(** * Staging-to-3NF transformation: a shallow embedding of
      [src/transformation.py] and the properties of its stages, followed
      by the loops and branches of the modules around it
      ([src/ingestion.py], [src/database.py], [src/validation.py],
      [src/pipeline.py]).

    Tables are lists of records, a connection is the database value
    threaded through the stages, and every SQL statement of the source is
    a function on that value.  Strings are sequences of characters with
    code points below 256. *)

From Stdlib Require Import List String Ascii Bool Arith ZArith Lia Permutation.
Import ListNotations.
Open Scope string_scope.
Open Scope list_scope.
Open Scope nat_scope.

(** ** Strings: the Python and SQL primitives the source calls *)

Module Str.

(** [str.isspace] on one character (code points below 256). *)
Definition py_isspace (c : ascii) : bool :=
  let n := nat_of_ascii c in
  ((9 <=? n) && (n <=? 13)) || ((28 <=? n) && (n <=? 32))
  || (n =? 133) || (n =? 160).

(** SQL [TRIM(x)] removes the space character only. *)
Definition sql_isblank (c : ascii) : bool := Ascii.eqb c " "%char.

(** [\s] of the regular expressions of the store. *)
Definition re_isspace (c : ascii) : bool :=
  let n := nat_of_ascii c in ((9 <=? n) && (n <=? 13)) || (n =? 32).

Fixpoint lstrip_by (f : ascii -> bool) (s : string) : string :=
  match s with
  | EmptyString => EmptyString
  | String c r => if f c then lstrip_by f r else s
  end.

Fixpoint rstrip_by (f : ascii -> bool) (s : string) : string :=
  match s with
  | EmptyString => EmptyString
  | String c r =>
      match rstrip_by f r with
      | EmptyString => if f c then EmptyString else String c EmptyString
      | r' => String c r'
      end
  end.

Definition strip_by (f : ascii -> bool) (s : string) : string :=
  rstrip_by f (lstrip_by f s).

(** [s.strip()] *)
Definition py_strip : string -> string := strip_by py_isspace.

(** [TRIM(s)] *)
Definition sql_trim : string -> string := strip_by sql_isblank.

(** Lower-casing of one character: A-Z and the Latin-1 capitals. *)
Definition lower_char (c : ascii) : ascii :=
  let n := nat_of_ascii c in
  if ((65 <=? n) && (n <=? 90))
     || ((192 <=? n) && (n <=? 222) && negb (n =? 215))
  then ascii_of_nat (n + 32) else c.

Fixpoint map_string (f : ascii -> ascii) (s : string) : string :=
  match s with
  | EmptyString => EmptyString
  | String c r => String (f c) (map_string f r)
  end.

(** [s.lower()]: on code points below 256 Python maps one character at a
    time. *)
Definition py_lower : string -> string := map_string lower_char.

(** [LOWER(s)] of the store maps one character at a time, by the locale of
    the database.  The letters A-Z are mapped; the letters above 127 are
    left as they are, as in a database with the C locale: which of them a
    database maps is decided by its locale, not by the source. *)
Definition sql_lower_char (c : ascii) : ascii :=
  let n := nat_of_ascii c in
  if (65 <=? n) && (n <=? 90) then ascii_of_nat (n + 32) else c.

Definition sql_lower : string -> string := map_string sql_lower_char.

(** [s.split(sep)] for a one-character separator: never the empty list. *)
Fixpoint split_on (sep : ascii) (s : string) : list string :=
  match s with
  | EmptyString => [EmptyString]
  | String c r =>
      if Ascii.eqb c sep then EmptyString :: split_on sep r
      else match split_on sep r with
           | [] => [String c EmptyString]
           | p :: ps => String c p :: ps
           end
  end.

Definition is_empty (s : string) : bool :=
  match s with EmptyString => true | _ => false end.

(** Case-insensitive removal of a literal prefix. *)
Fixpoint strip_prefix_ci (p s : string) : option string :=
  match p, s with
  | EmptyString, _ => Some s
  | String a p', String b s' =>
      if Ascii.eqb (lower_char a) (lower_char b) then strip_prefix_ci p' s'
      else None
  | String _ _, EmptyString => None
  end.

(** [REGEXP_REPLACE(s, '^(via|melalui)\s+', '', 'i')]: the match is
    anchored at the start, needs one space character at least after the
    word and takes all that follow. *)
Definition regexp_replace_via (s : string) : string :=
  let after w :=
    match strip_prefix_ci w s with
    | Some (String c r) =>
        if re_isspace c then Some (lstrip_by re_isspace r) else None
    | _ => None
    end in
  match after "via" with
  | Some r => r
  | None => match after "melalui" with Some r => r | None => s end
  end.

End Str.

(** ** SQL values: NULL and three-valued comparison *)

Module Sql.

(** [COALESCE(x, d)] with a non-NULL literal [d]. *)
Definition coalesce {A} (x : option A) (d : A) : A :=
  match x with Some v => v | None => d end.

(** [COALESCE(x, y)] of two nullable expressions. *)
Definition coalesce2 {A} (x y : option A) : option A :=
  match x with Some v => Some v | None => y end.

(** [x = y] on text: unknown (None) when an operand is NULL. *)
Definition eq_str (x y : option string) : option bool :=
  match x, y with
  | Some a, Some b => Some (String.eqb a b)
  | _, _ => None
  end.

Definition neq_str (x y : option string) : option bool :=
  option_map negb (eq_str x y).

Definition eq_Z (x y : option Z) : option bool :=
  match x, y with
  | Some a, Some b => Some (Z.eqb a b)
  | _, _ => None
  end.

Definition and3 (x y : option bool) : option bool :=
  match x, y with
  | Some false, _ | _, Some false => Some false
  | Some true, Some true => Some true
  | _, _ => None
  end.

Definition not3 (x : option bool) : option bool := option_map negb x.

Definition is_null {A} (x : option A) : option bool :=
  Some (match x with None => true | Some _ => false end).

(** A WHERE or ON clause keeps a row only when the condition is true. *)
Definition holds (c : option bool) : bool :=
  match c with Some true => true | _ => false end.

Definition trim (x : option string) : option string :=
  option_map Str.sql_trim x.

End Sql.

(** ** The Location Normalizer *)

(** What [extract_location_components] can receive for its location:
    [None], a float NaN (pandas' missing value) or a string. *)
Inductive pyval : Type :=
  | PyNone
  | PyNaN
  | PyStr (s : string).

(** [not v] *)
Definition py_not (v : pyval) : bool :=
  match v with
  | PyNone => true
  | PyNaN => false
  | PyStr s => Str.is_empty s
  end.

(** [pd.isna(v)] *)
Definition pd_isna (v : pyval) : bool :=
  match v with
  | PyNone | PyNaN => true
  | PyStr _ => false
  end.

(** [str(v)] *)
Definition py_str (v : pyval) : string :=
  match v with
  | PyNone => "None"
  | PyNaN => "nan"
  | PyStr s => s
  end.

Record components : Type := mkComponents {
  city : option string;
  state_province : option string;
  country : option string
}.

(** [p if p else None] *)
Definition or_none (p : string) : option string :=
  if Str.is_empty p then None else Some p.

(** [parts = [p.strip() for p in location_string.strip().split(',')]] *)
Definition location_parts (location_string : string) : list string :=
  map Str.py_strip (Str.split_on ","%char (Str.py_strip location_string)).

Definition extract_location_components
    (location_string : pyval) (country : option string) : components :=
  if py_not location_string || pd_isna location_string then
    mkComponents None None country
  else
    let parts := location_parts (py_str location_string) in
    if 3 <=? List.length parts then
      mkComponents (or_none (nth 0 parts "")) (or_none (nth 1 parts "")) country
    else if List.length parts =? 2 then
      mkComponents (or_none (nth 0 parts "")) (or_none (nth 1 parts "")) country
    else if List.length parts =? 1 then
      mkComponents (or_none (nth 0 parts "")) None country
    else
      mkComponents None None country.

(** ** The relational store *)

(** The typed-skills column (JSONB) as the driver hands it to Python:
    a dict from category to a value that is a list of strings (or nulls)
    or something else, or a value that is not a dict.  The items of a dict
    are in the order [dict.items()] yields them. *)
Inductive skills_value : Type :=
  | SkillList (l : list (option string))
  | NotAList.

Inductive jsonb : Type :=
  | JDict (items : list (string * skills_value))
  | JNotDict.

Module Staging.
Record row : Type := mk {
  id : Z;
  job_title_short : option string;
  job_title : option string;
  job_location : option string;
  job_via : option string;
  job_schedule_type : option string;
  job_work_from_home : option bool;
  search_location : option string;
  job_posted_date : option Z;
  job_no_degree_mention : option bool;
  job_health_insurance : option bool;
  job_country : option string;
  salary_rate : option string;
  salary_year_avg : option Z;
  salary_hour_avg : option Z;
  company_name : option string;
  job_skills : option (list string);
  job_type_skills : option jsonb
}.
End Staging.

Module Company.
Record row : Type := mk { company_id : Z; company_name : string }.
End Company.

Module Location.
Record row : Type := mk {
  location_id : Z;
  main_city : option string;
  main_state_province : option string;
  country : string;
  full_location : string
}.
End Location.

Module Platform.
Record row : Type := mk { platform_id : Z; platform_name : string }.
End Platform.

Module ScheduleType.
Record row : Type := mk { schedule_type_id : Z; schedule_type_name : string }.
End ScheduleType.

Module SkillCategory.
Record row : Type := mk { category_id : Z; category_name : string }.
End SkillCategory.

Module Skill.
Record row : Type := mk {
  skill_id : Z;
  skill_name : string;
  category_id : option Z
}.
End Skill.

Module Job.
(** The columns the INSERT of [populate_jobs] lists. *)
Record values : Type := mkValues {
  job_title : option string;
  job_title_short : option string;
  company_id : option Z;
  location_id : option Z;
  platform_id : option Z;
  schedule_type_id : option Z;
  job_work_from_home : option bool;
  job_posted_date : option Z;
  job_no_degree_mention : option bool;
  job_health_insurance : option bool;
  salary_rate : option string;
  salary_year_avg : option Z;
  salary_hour_avg : option Z;
  search_location : option string
}.
Record row : Type := mk { job_id : Z; cols : values }.
End Job.

Module JobSkill.
Record row : Type := mk { job_id : Z; skill_id : Z }.
End JobSkill.

(** Modelled from the spec: the schema file is not part of the sources.
    Every destination table but the bridge has a "surrogate id"; no INSERT
    of the source supplies it, so the store generates it.  A table is its
    rows and the next value of its id generator, a counter that each
    proposed row advances and that DELETE leaves alone. *)
Record table (R : Type) : Type := mkTable {
  rows : list R;
  next_id : Z
}.
Arguments mkTable {R} _ _.
Arguments rows {R} _.
Arguments next_id {R} _.

Record db : Type := mkDb {
  staging_jobs : list Staging.row;
  companies : table Company.row;
  locations : table Location.row;
  platforms : table Platform.row;
  schedule_types : table ScheduleType.row;
  skill_categories : table SkillCategory.row;
  skills : table Skill.row;
  jobs : table Job.row;
  job_skills : list JobSkill.row
}.

Definition with_staging_jobs (v : list Staging.row) (d : db) : db :=
  mkDb v (companies d) (locations d) (platforms d) (schedule_types d)
       (skill_categories d) (skills d) (jobs d) (job_skills d).
Definition with_companies (v : table Company.row) (d : db) : db :=
  mkDb (staging_jobs d) v (locations d) (platforms d) (schedule_types d)
       (skill_categories d) (skills d) (jobs d) (job_skills d).
Definition with_locations (v : table Location.row) (d : db) : db :=
  mkDb (staging_jobs d) (companies d) v (platforms d) (schedule_types d)
       (skill_categories d) (skills d) (jobs d) (job_skills d).
Definition with_platforms (v : table Platform.row) (d : db) : db :=
  mkDb (staging_jobs d) (companies d) (locations d) v (schedule_types d)
       (skill_categories d) (skills d) (jobs d) (job_skills d).
Definition with_schedule_types (v : table ScheduleType.row) (d : db) : db :=
  mkDb (staging_jobs d) (companies d) (locations d) (platforms d) v
       (skill_categories d) (skills d) (jobs d) (job_skills d).
Definition with_skill_categories (v : table SkillCategory.row) (d : db) : db :=
  mkDb (staging_jobs d) (companies d) (locations d) (platforms d)
       (schedule_types d) v (skills d) (jobs d) (job_skills d).
Definition with_skills (v : table Skill.row) (d : db) : db :=
  mkDb (staging_jobs d) (companies d) (locations d) (platforms d)
       (schedule_types d) (skill_categories d) v (jobs d) (job_skills d).
Definition with_jobs (v : table Job.row) (d : db) : db :=
  mkDb (staging_jobs d) (companies d) (locations d) (platforms d)
       (schedule_types d) (skill_categories d) (skills d) v (job_skills d).
Definition with_job_skills (v : list JobSkill.row) (d : db) : db :=
  mkDb (staging_jobs d) (companies d) (locations d) (platforms d)
       (schedule_types d) (skill_categories d) (skills d) (jobs d) v.

(** [INSERT ... ON CONFLICT ... DO NOTHING] of one proposed row: the row
    is built with the next generated id and kept unless a row of the table
    conflicts with it. *)
Definition insert_do_nothing {R} (conflicts : R -> bool) (mkrow : Z -> R)
    (t : table R) : table R :=
  if existsb conflicts (rows t)
  then mkTable (rows t) (next_id t + 1)
  else mkTable (rows t ++ [mkrow (next_id t)]) (next_id t + 1).

(** [DELETE FROM t] *)
Definition delete_all {R} (t : table R) : table R := mkTable [] (next_id t).

(** Decidable equalities, for DISTINCT. *)
Definition option_string_dec (x y : option string) : {x = y} + {x <> y}.
Proof. decide equality; apply string_dec. Defined.

Definition location_pair_dec (x y : option string * option string) :
  {x = y} + {x <> y}.
Proof. decide equality; apply option_string_dec. Defined.

Definition skills_value_dec (x y : skills_value) : {x = y} + {x <> y}.
Proof. decide equality; apply (list_eq_dec option_string_dec). Defined.

Definition jsonb_dec (x y : jsonb) : {x = y} + {x <> y}.
Proof.
  decide equality.
  apply list_eq_dec; decide equality;
    [apply skills_value_dec | apply string_dec].
Defined.

(** ** ORDER BY, LIMIT and OFFSET *)

Fixpoint insert_by {A} (le : A -> A -> bool) (x : A) (l : list A) : list A :=
  match l with
  | [] => [x]
  | y :: r => if le x y then x :: l else y :: insert_by le x r
  end.

(** A stable sort: rows with equal keys keep their order. *)
Definition order_by {A} (le : A -> A -> bool) (l : list A) : list A :=
  fold_right (insert_by le) [] l.

(** [LIMIT limit OFFSET offset] *)
Definition limit_offset {A} (limit offset : nat) (l : list A) : list A :=
  firstn limit (skipn offset l).

(** [LEFT JOIN t ON on]: the matching rows, or one NULL row. *)
Definition left_join {R} (on : R -> bool) (t : list R) : list (option R) :=
  match filter on t with
  | [] => [None]
  | m => map Some m
  end.

Definition BATCH_SIZE : nat := 100 * 100.

(** The batch loop of [populate_jobs] and [populate_job_skills]:

      offset = 0
      while offset < total_rows:
          rows_inserted = <one batch at offset>
          pbar.update(rows_inserted)
          offset += limit

    [reported] collects the arguments of [pbar.update].  The recursion is
    on [fuel]; [total_rows] is enough of it when [limit] is positive. *)
Fixpoint batch_loop (fuel limit total_rows offset : nat)
    (batch : nat -> db -> db * nat) (d : db) (reported : list nat)
    : db * list nat :=
  match fuel with
  | 0 => (d, reported)
  | S fuel' =>
      if offset <? total_rows then
        let '(d', rows_inserted) := batch offset d in
        batch_loop fuel' limit total_rows (offset + limit) batch d'
                   (reported ++ [rows_inserted])
      else (d, reported)
  end.

(** ** The stages of [DataTransformation] *)

Inductive table_name : Type :=
  | T_staging_jobs | T_job_skills | T_jobs | T_skills | T_skill_categories
  | T_companies | T_locations | T_platforms | T_schedule_types.

(** [conn.execute(text("DELETE FROM <t>"))] *)
Definition delete_from (t : table_name) (d : db) : db :=
  match t with
  | T_staging_jobs => with_staging_jobs [] d
  | T_job_skills => with_job_skills [] d
  | T_jobs => with_jobs (delete_all (jobs d)) d
  | T_skills => with_skills (delete_all (skills d)) d
  | T_skill_categories =>
      with_skill_categories (delete_all (skill_categories d)) d
  | T_companies => with_companies (delete_all (companies d)) d
  | T_locations => with_locations (delete_all (locations d)) d
  | T_platforms => with_platforms (delete_all (platforms d)) d
  | T_schedule_types => with_schedule_types (delete_all (schedule_types d)) d
  end.

(** The statements of [delete_previous_info], in the order it issues them. *)
Definition purged_tables : list table_name :=
  [T_job_skills; T_jobs; T_skills; T_skill_categories;
   T_companies; T_locations; T_platforms; T_schedule_types].

Definition delete_previous_info (d : db) : db :=
  fold_left (fun d t => delete_from t d) purged_tables d.

(** A value read from a nullable text column, as Python sees it. *)
Definition of_column (x : option string) : pyval :=
  match x with None => PyNone | Some s => PyStr s end.

(** Python sets and dicts keep what was added; a set is the list of its
    elements and a dict the list of its items, both in insertion order and
    without repetition. *)
Definition set_add (x : string) (s : list string) : list string :=
  if in_dec string_dec x s then s else s ++ [x].

Fixpoint dict_mem {V} (k : string) (d : list (string * V)) : bool :=
  match d with
  | [] => false
  | (k', _) :: r => String.eqb k k' || dict_mem k r
  end.

Fixpoint dict_update {V} (k : string) (f : V -> V) (d : list (string * V))
    : list (string * V) :=
  match d with
  | [] => []
  | (k', v) :: r =>
      if String.eqb k k' then (k', f v) :: r else (k', v) :: dict_update k f r
  end.

(** [if k not in d: d[k] = set()] *)
Definition dict_setdefault (k : string) (d : list (string * list string))
    : list (string * list string) :=
  if dict_mem k d then d else d ++ [(k, [])].

(** [{row[1]: row[0] for row in rows}.get(name)]: a later row replaces an
    earlier one with the same name. *)
Definition category_map_get (rows : list SkillCategory.row) (name : string)
    : option Z :=
  fold_left
    (fun acc r =>
       if String.eqb (SkillCategory.category_name r) name
       then Some (SkillCategory.category_id r) else acc)
    rows None.

(** The WHERE clause of [populate_jobs] and of its count query. *)
Definition job_qualifies (s : Staging.row) : bool :=
  Sql.holds
    (Sql.not3 (Sql.and3 (Sql.is_null (Staging.job_title s))
                        (Sql.is_null (Staging.job_title_short s)))).

Definition unnest (x : option (list string)) : list string :=
  match x with Some l => l | None => [] end.

Definition pair_le (x y : Z * Z) : bool :=
  (fst x <? fst y)%Z || ((fst x =? fst y)%Z && (snd x <=? snd y)%Z).

Section Pipeline.

(** The order in which an unordered collection is enumerated: the rows of
    a SELECT without ORDER BY, the elements of a Python set. *)
Variable any_order : forall A : Type, list A -> list A.

(** [SELECT DISTINCT ...] *)
Definition select_distinct {A} (dec : forall x y : A, {x = y} + {x <> y})
    (l : list A) : list A :=
  any_order A (nodup dec l).

(** *** populate_companies *)

(** SELECT DISTINCT TRIM(COALESCE(company_name, 'Unknown'))
    FROM staging_jobs WHERE TRIM(company_name) != '' *)
Definition companies_select (stg : list Staging.row) : list string :=
  select_distinct string_dec
    (map (fun s => Str.sql_trim (Sql.coalesce (Staging.company_name s) "Unknown"))
       (filter
          (fun s => Sql.holds
             (Sql.neq_str (Sql.trim (Staging.company_name s)) (Some "")))
          stg)).

(** INSERT INTO companies (company_name) ...
    ON CONFLICT (company_name) DO NOTHING *)
Definition insert_company (t : table Company.row) (name : string)
    : table Company.row :=
  insert_do_nothing
    (fun r => String.eqb (Company.company_name r) name)
    (fun i => Company.mk i name) t.

Definition populate_companies (d : db) : db :=
  with_companies
    (fold_left insert_company (companies_select (staging_jobs d)) (companies d))
    d.

(** *** populate_locations *)

(** SELECT DISTINCT job_location, job_country FROM staging_jobs *)
Definition locations_select (stg : list Staging.row)
    : list (option string * option string) :=
  select_distinct location_pair_dec
    (map (fun s => (Staging.job_location s, Staging.job_country s)) stg).

(** Modelled from the spec: the conflict target of the INSERT is a unique
    constraint of the missing schema, "uniqueness enforced on the 4-tuple
    (city, state/province, country, full raw string)".  Two rows conflict
    when the four columns are equal, with the equality of the store: a
    NULL city or state/province is equal to nothing, not to another NULL,
    so a row with one conflicts with no row. *)
Definition same_location (a b : Location.row) : bool :=
  Sql.holds
    (Sql.and3
       (Sql.eq_str (Location.main_city a) (Location.main_city b))
       (Sql.and3
          (Sql.eq_str (Location.main_state_province a)
                      (Location.main_state_province b))
          (Some (String.eqb (Location.country a) (Location.country b)
                 && String.eqb (Location.full_location a)
                               (Location.full_location b))))).

(** One turn of the loop over the fetched pairs: INSERT INTO locations
    (...) VALUES (...) ON CONFLICT (main_city, main_state_province,
    country, full_location) DO NOTHING. *)
Definition insert_location (t : table Location.row)
    (loc_row : option string * option string) : table Location.row :=
  let location_string := fst loc_row in
  let job_country := snd loc_row in
  let components :=
    extract_location_components (of_column location_string) job_country in
  let proposed i :=
    Location.mk i (city components) (state_province components)
      (Sql.coalesce (country components) "Unknown")
      (Sql.coalesce location_string "Unknown") in
  insert_do_nothing (same_location (proposed 0%Z)) proposed t.

Definition populate_locations (d : db) : db :=
  with_locations
    (fold_left insert_location (locations_select (staging_jobs d)) (locations d))
    d.

(** *** populate_platforms *)

(** TRIM(REGEXP_REPLACE(job_via, '^(via|melalui)\s+', '', 'i')) *)
Definition platform_clean (job_via : option string) : option string :=
  Sql.trim (option_map Str.regexp_replace_via job_via).

(** SELECT DISTINCT <platform_clean> FROM staging_jobs
    WHERE job_via IS NOT NULL AND TRIM(job_via) <> ''
    The rows that pass have a non-NULL [job_via], hence a non-NULL value. *)
Definition platforms_select (stg : list Staging.row) : list string :=
  select_distinct string_dec
    (flat_map
       (fun s =>
          if Sql.holds
               (Sql.and3 (Sql.not3 (Sql.is_null (Staging.job_via s)))
                  (Sql.neq_str (Sql.trim (Staging.job_via s)) (Some "")))
          then match platform_clean (Staging.job_via s) with
               | Some v => [v]
               | None => []
               end
          else [])
       stg).

Definition insert_platform (t : table Platform.row) (name : string)
    : table Platform.row :=
  insert_do_nothing
    (fun r => String.eqb (Platform.platform_name r) name)
    (fun i => Platform.mk i name) t.

Definition populate_platforms (d : db) : db :=
  with_platforms
    (fold_left insert_platform (platforms_select (staging_jobs d)) (platforms d))
    d.

(** *** populate_schedule_types *)

(** SELECT DISTINCT TRIM(job_schedule_type) FROM staging_jobs
    WHERE job_schedule_type IS NOT NULL AND TRIM(job_schedule_type) != '' *)
Definition schedule_types_select (stg : list Staging.row) : list string :=
  select_distinct string_dec
    (flat_map
       (fun s =>
          if Sql.holds
               (Sql.and3
                  (Sql.not3 (Sql.is_null (Staging.job_schedule_type s)))
                  (Sql.neq_str (Sql.trim (Staging.job_schedule_type s))
                               (Some "")))
          then match Sql.trim (Staging.job_schedule_type s) with
               | Some v => [v]
               | None => []
               end
          else [])
       stg).

Definition insert_schedule_type (t : table ScheduleType.row) (name : string)
    : table ScheduleType.row :=
  insert_do_nothing
    (fun r => String.eqb (ScheduleType.schedule_type_name r) name)
    (fun i => ScheduleType.mk i name) t.

Definition populate_schedule_types (d : db) : db :=
  with_schedule_types
    (fold_left insert_schedule_type (schedule_types_select (staging_jobs d))
       (schedule_types d))
    d.

(** *** populate_skill_categories_and_skills *)

(** SELECT DISTINCT job_type_skills FROM staging_jobs
    WHERE job_type_skills IS NOT NULL *)
Definition type_skills_select (stg : list Staging.row) : list jsonb :=
  select_distinct jsonb_dec
    (flat_map
       (fun s => match Staging.job_type_skills s with
                 | Some j => [j]
                 | None => []
                 end)
       stg).

(** [for skill in skills: if skill: <set>.add(skill.lower().strip())] *)
Definition add_skills (skills : list (option string)) (set : list string)
    : list string :=
  fold_left
    (fun set skill =>
       match skill with
       | Some sk =>
           if Str.is_empty sk then set
           else set_add (Str.py_strip (Str.py_lower sk)) set
       | None => set
       end)
    skills set.

(** The two collections the extraction loop fills. *)
Record extracted : Type := mkExtracted {
  all_categories : list string;
  skills_by_category : list (string * list string)
}.

(** The body of [for category, skills in skill_dict.items()]. *)
Definition extract_item (acc : extracted) (item : string * skills_value)
    : extracted :=
  let category := fst item in
  let cats := set_add category (all_categories acc) in
  let by_cat := dict_setdefault category (skills_by_category acc) in
  match snd item with
  | SkillList skills =>
      mkExtracted cats (dict_update category (add_skills skills) by_cat)
  | NotAList => mkExtracted cats by_cat
  end.

(** The body of [for row in skill_type_rows]; an empty dict is falsy. *)
Definition extract_row (acc : extracted) (skill_dict : jsonb) : extracted :=
  match skill_dict with
  | JDict [] => acc
  | JDict items => fold_left extract_item items acc
  | JNotDict => acc
  end.

(** Modelled from the spec: the schema file is missing, and the constraint
    that can conflict is the "unique name" of a skill category.
    INSERT INTO skill_categories (category_name) VALUES (:name)
    ON CONFLICT DO NOTHING *)
Definition insert_category (t : table SkillCategory.row) (name : string)
    : table SkillCategory.row :=
  insert_do_nothing
    (fun r => String.eqb (SkillCategory.category_name r) name)
    (fun i => SkillCategory.mk i name) t.

(** INSERT INTO skills (skill_name, category_id) VALUES (:name, :cat_id)
    ON CONFLICT (skill_name) DO NOTHING *)
Definition insert_skill (cat_id : option Z) (t : table Skill.row)
    (name : string) : table Skill.row :=
  insert_do_nothing
    (fun r => String.eqb (Skill.skill_name r) name)
    (fun i => Skill.mk i name cat_id) t.

(** SELECT DISTINCT unnest(job_skills) AS skill FROM staging_jobs
    WHERE job_skills IS NOT NULL *)
Definition flat_skills_select (stg : list Staging.row) : list string :=
  select_distinct string_dec
    (flat_map (fun s => unnest (Staging.job_skills s)) stg).

Definition populate_skill_categories_and_skills (d : db) : db :=
  let skill_type_rows := type_skills_select (staging_jobs d) in
  let ex := fold_left extract_row skill_type_rows (mkExtracted [] []) in
  (* Insert categories *)
  let categories :=
    fold_left insert_category (any_order string (all_categories ex))
      (skill_categories d) in
  (* Get category IDs *)
  let category_map := category_map_get (rows categories) in
  (* Insert skills with their categories *)
  let categorized :=
    fold_left
      (fun t item =>
         let category_id := category_map (fst item) in
         fold_left (insert_skill category_id) (any_order string (snd item)) t)
      (skills_by_category ex) (skills d) in
  (* Insert skills that don't have category info *)
  let uncategorized_skills := flat_skills_select (staging_jobs d) in
  let all_skills :=
    fold_left
      (fun t row => insert_skill None t (Str.py_strip (Str.py_lower row)))
      uncategorized_skills categorized in
  with_skills all_skills (with_skill_categories categories d).

(** *** populate_jobs *)

(** The SELECT list for one staging row joined to one row (or NULL) of
    each dimension. *)
Definition job_values (s : Staging.row) (c : option Company.row)
    (l : option Location.row) (p : option Platform.row)
    (st : option ScheduleType.row) : Job.values :=
  Job.mkValues
    (Sql.coalesce2 (Staging.job_title s) (Staging.job_title_short s))
    (Staging.job_title_short s)
    (option_map Company.company_id c)
    (option_map Location.location_id l)
    (option_map Platform.platform_id p)
    (option_map ScheduleType.schedule_type_id st)
    (Staging.job_work_from_home s)
    (Staging.job_posted_date s)
    (Staging.job_no_degree_mention s)
    (Staging.job_health_insurance s)
    (Staging.salary_rate s)
    (Staging.salary_year_avg s)
    (Staging.salary_hour_avg s)
    (Staging.search_location s).

(** FROM staging_jobs s LEFT JOIN companies c ON ... LEFT JOIN locations l
    ON ... LEFT JOIN platforms p ON ... LEFT JOIN schedule_types st ON ...:
    every ON clause relates [s] to the joined table alone, so the joined
    rows of [s] are the product of its matches in each dimension. *)
Definition job_joined (d : db) (s : Staging.row) : list Job.values :=
  flat_map (fun c =>
  flat_map (fun l =>
  flat_map (fun p =>
  map (fun st => job_values s c l p st)
    (left_join
       (fun st => Sql.holds
          (Sql.eq_str (Sql.trim (Staging.job_schedule_type s))
                      (Some (ScheduleType.schedule_type_name st))))
       (rows (schedule_types d))))
    (left_join
       (fun p => Sql.holds
          (Sql.eq_str (platform_clean (Staging.job_via s))
                      (Some (Platform.platform_name p))))
       (rows (platforms d))))
    (left_join
       (fun l =>
          String.eqb (Sql.coalesce (Staging.job_country s) "Unknown")
                     (Location.country l)
          && String.eqb (Sql.coalesce (Staging.job_location s) "Unknown")
                        (Location.full_location l))
       (rows (locations d))))
    (left_join
       (fun c =>
          String.eqb
            (Str.sql_trim (Sql.coalesce (Staging.company_name s) "Unknown"))
            (Company.company_name c))
       (rows (companies d))).

(** The SELECT of [populate_jobs]: WHERE keeps the joined rows of the
    qualifying staging rows, ORDER BY s.id sorts them. *)
Definition jobs_select (d : db) : list Job.values :=
  flat_map (job_joined d)
    (order_by (fun a b => (Staging.id a <=? Staging.id b)%Z)
       (filter job_qualifies (staging_jobs d))).

(** SELECT COUNT( * ) FROM staging_jobs
    WHERE NOT (job_title IS NULL AND job_title_short IS NULL) *)
Definition jobs_total_rows (d : db) : nat :=
  List.length (filter job_qualifies (staging_jobs d)).

(** INSERT INTO jobs (...) of the rows of one window. *)
Definition insert_jobs (window : list Job.values) (t : table Job.row)
    : table Job.row :=
  fold_left
    (fun t v => mkTable (rows t ++ [Job.mk (next_id t) v]) (next_id t + 1))
    window t.

(** One batch: [{sql} LIMIT {BATCH_SIZE} OFFSET {offset}]; [result.rowcount]
    is the number of rows inserted. *)
Definition jobs_batch (offset : nat) (d : db) : db * nat :=
  let window := limit_offset BATCH_SIZE offset (jobs_select d) in
  (with_jobs (insert_jobs window (jobs d)) d, List.length window).

(** The new store and the numbers given to [pbar.update]. *)
Definition populate_jobs_reporting (d : db) : db * list nat :=
  let total_rows := jobs_total_rows d in
  batch_loop total_rows BATCH_SIZE total_rows 0 jobs_batch d [].

Definition populate_jobs (d : db) : db := fst (populate_jobs_reporting d).

(** *** populate_job_skills *)

(** ON j.job_title = stg.job_title
    AND j.job_posted_date = stg.job_posted_date *)
Definition bridge_on (j : Job.row) (stg : Staging.row) : bool :=
  Sql.holds
    (Sql.and3
       (Sql.eq_str (Job.job_title (Job.cols j)) (Staging.job_title stg))
       (Sql.eq_Z (Job.job_posted_date (Job.cols j))
                 (Staging.job_posted_date stg))).

(** ON LOWER(TRIM(s_name)) = LOWER(s_map.skill_name) *)
Definition skill_on (s_name : string) (s_map : Skill.row) : bool :=
  String.eqb (Str.sql_lower (Str.sql_trim s_name))
             (Str.sql_lower (Skill.skill_name s_map)).

(** FROM jobs j JOIN staging_jobs stg ON ...
    CROSS JOIN LATERAL UNNEST(stg.job_skills) AS s_name
    JOIN skills s_map ON ...: the pairs (j.job_id, s_map.skill_id). *)
Definition bridge_joined (d : db) : list (Z * Z) :=
  flat_map (fun j =>
  flat_map (fun stg =>
  flat_map (fun s_name =>
  map (fun s_map => (Job.job_id j, Skill.skill_id s_map))
    (filter (skill_on s_name) (rows (skills d))))
    (unnest (Staging.job_skills stg)))
    (filter (bridge_on j) (staging_jobs d)))
    (rows (jobs d)).

(** ... ORDER BY j.job_id, s_map.skill_id *)
Definition bridge_select (d : db) : list (Z * Z) :=
  order_by pair_le (bridge_joined d).

(** SELECT count( * ) FROM <the same joins> *)
Definition bridge_total_rows (d : db) : nat := List.length (bridge_joined d).

Definition same_pair (p : Z * Z) (r : JobSkill.row) : bool :=
  (JobSkill.job_id r =? fst p)%Z && (JobSkill.skill_id r =? snd p)%Z.

(** Modelled from the spec: the schema file is missing, and the constraint
    that can conflict is its "uniqueness enforced on (job, skill) pair".
    One row proposed by INSERT INTO job_skills (job_id, skill_id) ...
    ON CONFLICT DO NOTHING, with the count of rows inserted so far. *)
Definition insert_job_skill (acc : list JobSkill.row * nat) (p : Z * Z)
    : list JobSkill.row * nat :=
  if existsb (same_pair p) (fst acc) then acc
  else (fst acc ++ [JobSkill.mk (fst p) (snd p)], S (snd acc)).

(** The INSERT of one window and its [result.rowcount]. *)
Definition insert_job_skills (window : list (Z * Z)) (t : list JobSkill.row)
    : list JobSkill.row * nat :=
  fold_left insert_job_skill window (t, 0).

(** One batch: [{sql} LIMIT {BATCH_SIZE*10} OFFSET {offset}
    ON CONFLICT DO NOTHING]. *)
Definition job_skills_batch (offset : nat) (d : db) : db * nat :=
  let window := limit_offset (BATCH_SIZE * 10) offset (bridge_select d) in
  let '(t, rows_inserted) := insert_job_skills window (job_skills d) in
  (with_job_skills t d, rows_inserted).

Definition populate_job_skills_reporting (d : db) : db * list nat :=
  let total_rows := bridge_total_rows d in
  batch_loop total_rows (BATCH_SIZE * 10) total_rows 0 job_skills_batch d [].

Definition populate_job_skills (d : db) : db :=
  fst (populate_job_skills_reporting d).

(** *** run_transformation *)

Definition populate_dimensions (d : db) : db :=
  populate_skill_categories_and_skills
    (populate_schedule_types
       (populate_platforms (populate_locations (populate_companies d)))).

Definition run_transformation (d : db) : db :=
  populate_job_skills
    (populate_jobs (populate_dimensions (delete_previous_info d))).

End Pipeline.

(** The enumeration that keeps the order it is given. *)
Definition in_order : forall A : Type, list A -> list A := fun _ l => l.

(** ** Auxiliary definitions for the properties *)

(** The offsets at which the loop runs a batch. *)
Fixpoint offsets (fuel limit total_rows offset : nat) : list nat :=
  match fuel with
  | 0 => []
  | S fuel' =>
      if offset <? total_rows
      then offset :: offsets fuel' limit total_rows (offset + limit)
      else []
  end.

Definition run_batch (batch : nat -> db -> db * nat)
    (acc : db * list nat) (offset : nat) : db * list nat :=
  let '(d', rows_inserted) := batch offset (fst acc) in
  (d', snd acc ++ [rows_inserted]).


(** The number of batches [populate_jobs] runs. *)
Definition jobs_batches (d : db) : nat :=
  List.length (offsets (jobs_total_rows d) BATCH_SIZE (jobs_total_rows d) 0).

(** A job row respects the exclusion law. *)
Definition has_title (j : Job.row) : Prop :=
  ~ (Job.job_title (Job.cols j) = None
     /\ Job.job_title_short (Job.cols j) = None).

(** The (job, skill) pair of a bridge row. *)
Definition pair_of (r : JobSkill.row) : Z * Z :=
  (JobSkill.job_id r, JobSkill.skill_id r).

(** Insert-if-absent of a row made from its key and the generated id: the
    shape of every dimension INSERT of the source. *)
Definition insert_keyed {R K : Type} (key : R -> K) (keqb : K -> K -> bool)
    (mk : Z -> K -> R) (t : table R) (k : K) : table R :=
  insert_do_nothing (fun r => keqb (key r) k) (fun i => mk i k) t.

(** A staging row with the columns the examples use; the others are NULL. *)
Definition staging_row (id : Z) (title title_short company : option string)
    (location country : option string) (posted : option Z)
    (skills : option (list string)) (type_skills : option jsonb)
    : Staging.row :=
  Staging.mk id title_short title location None None None None posted
             None None country None None None company skills type_skills.

(** A store with the given staging rows and empty destination tables whose
    id generators are at 1. *)
Definition fresh_db (stg : list Staging.row) : db :=
  mkDb stg (mkTable [] 1%Z) (mkTable [] 1%Z) (mkTable [] 1%Z)
       (mkTable [] 1%Z) (mkTable [] 1%Z) (mkTable [] 1%Z) (mkTable [] 1%Z) [].

(** A store ready for the bridge populator: one posting whose skill list
    names the same skill twice, in two spellings. *)
Definition repeated_skill_db : db :=
  populate_jobs
    (populate_dimensions in_order
       (delete_previous_info
          (fresh_db
             [staging_row 1 (Some "Data Engineer") None (Some "Acme")
                None None (Some 5%Z) (Some ["python"; "Python"]) None]))).

(** The staging row of the skill scenario. *)
Definition scenario_row : Staging.row :=
  staging_row 1 (Some "Data Engineer") None None None None None
    (Some ["python"; "sql"; "aws"])
    (Some (JDict [("programming", SkillList [Some "Python"; Some "SQL"])])).

(** *** The natural keys of the dimension tables *)

Definition location_key (l : Location.row)
    : option string * option string * string * string :=
  (Location.main_city l, Location.main_state_province l,
   Location.country l, Location.full_location l).

Definition company_names (d : db) : list string :=
  map Company.company_name (rows (companies d)).
Definition location_keys (d : db)
    : list (option string * option string * string * string) :=
  map location_key (rows (locations d)).
Definition platform_names (d : db) : list string :=
  map Platform.platform_name (rows (platforms d)).
Definition schedule_type_names (d : db) : list string :=
  map ScheduleType.schedule_type_name (rows (schedule_types d)).
Definition category_names (d : db) : list string :=
  map SkillCategory.category_name (rows (skill_categories d)).

(** The name of the category a skill row refers to. *)
Definition category_name_of (cats : list SkillCategory.row) (id : option Z)
    : option string :=
  match id with
  | None => None
  | Some i =>
      option_map SkillCategory.category_name
        (find (fun c => (SkillCategory.category_id c =? i)%Z) cats)
  end.

Definition skill_key (cats : list SkillCategory.row) (s : Skill.row)
    : string * option string :=
  (Skill.skill_name s, category_name_of cats (Skill.category_id s)).

(** The skills with their category by name instead of by id. *)
Definition skill_view (d : db) : list (string * option string) :=
  map (skill_key (rows (skill_categories d))) (rows (skills d)).

(** The six dimension tables without their surrogate ids. *)
Definition dimensions_view (d : db) :=
  (company_names d, location_keys d, platform_names d,
   schedule_type_names d, category_names d, skill_view d).

(** The key [insert_location] proposes for a fetched pair. *)
Definition proposed_location_key (loc_row : option string * option string)
    : option string * option string * string * string :=
  let components :=
    extract_location_components (of_column (fst loc_row)) (snd loc_row) in
  (city components, state_province components,
   Sql.coalesce (country components) "Unknown",
   Sql.coalesce (fst loc_row) "Unknown").

(** The conflict test of [insert_location] on keys: equality of the
    store, which no key with a NULL city or state/province passes. *)
Definition location_key_eqb
    (a b : option string * option string * string * string) : bool :=
  Sql.holds
    (Sql.and3
       (Sql.eq_str (fst (fst (fst a))) (fst (fst (fst b))))
       (Sql.and3
          (Sql.eq_str (snd (fst (fst a))) (snd (fst (fst b))))
          (Some (String.eqb (snd (fst a)) (snd (fst b))
                 && String.eqb (snd a) (snd b))))).

(** A location key without NULL: the keys the unique constraint tells
    apart. *)
Definition location_key_complete
    (k : option string * option string * string * string) : bool :=
  match fst (fst (fst k)), snd (fst (fst k)) with
  | Some _, Some _ => true
  | _, _ => false
  end.

Definition location_of_key (i : Z)
    (k : option string * option string * string * string) : Location.row :=
  Location.mk i (fst (fst (fst k))) (snd (fst (fst k))) (snd (fst k)) (snd k).

(** The generated ids of a table are below its generator and never
    repeated. *)
Definition ids_fresh {R : Type} (idf : R -> Z) (t : table R) : Prop :=
  Forall (fun r => (idf r < next_id t)%Z) (rows t)
  /\ NoDup (map idf (rows t)).

(** A store with one posting, of the company "Acme". *)
Definition acme_db : db :=
  fresh_db
    [staging_row 1 (Some "Data Engineer") None (Some "Acme")
       (Some "Berlin, Germany") (Some "Germany") (Some 5%Z)
       (Some ["python"]) (Some (JDict [("programming", SkillList [Some "Python"])]))].

(** The pair of columns a location row is joined on by [populate_jobs]. *)
Definition location_join_key (l : Location.row) : string * string :=
  (Location.country l, Location.full_location l).

(** NULL and the text "Unknown" are told apart in the country and location
    columns of the staging table: two rows that agree after
    COALESCE(..., 'Unknown') agree before it. *)
Definition unknown_unambiguous (stg : list Staging.row) : Prop :=
  forall s1 s2,
    In s1 stg -> In s2 stg ->
    Sql.coalesce (Staging.job_country s1) "Unknown"
    = Sql.coalesce (Staging.job_country s2) "Unknown" ->
    Sql.coalesce (Staging.job_location s1) "Unknown"
    = Sql.coalesce (Staging.job_location s2) "Unknown" ->
    Staging.job_country s1 = Staging.job_country s2
    /\ Staging.job_location s1 = Staging.job_location s2.

(** *** What the staging table says about skills *)

(** The name [n] is in the set the dict holds under [cat]. *)
Definition has_skill (by_cat : list (string * list string)) (cat n : string)
    : Prop :=
  exists l, In (cat, l) by_cat /\ In n l.

(** [cat] is a key of the typed-skills dict of some staging row. *)
Definition typed_category (stg : list Staging.row) (cat : string) : Prop :=
  exists s items v,
    In s stg /\ Staging.job_type_skills s = Some (JDict items)
    /\ In (cat, v) items.

(** [n] is the lower-cased and stripped form of a skill some staging row
    lists under [cat] in its typed-skills dict. *)
Definition typed_skill (stg : list Staging.row) (cat n : string) : Prop :=
  exists s items sks sk,
    In s stg /\ Staging.job_type_skills s = Some (JDict items)
    /\ In (cat, SkillList sks) items /\ In (Some sk) sks /\ sk <> ""
    /\ n = Str.py_strip (Str.py_lower sk).

(** [n] is the lower-cased and stripped form of an element of the flat
    skill list of some staging row. *)
Definition flat_skill (stg : list Staging.row) (n : string) : Prop :=
  exists s l x,
    In s stg /\ Staging.job_skills s = Some l /\ In x l
    /\ n = Str.py_strip (Str.py_lower x).

(** What a skill row says about its category, against the staging table:
    a category id is that of a category row under whose name some staging
    row lists the skill; a NULL category belongs to a skill of the flat
    lists that no staging row lists under any category. *)
Definition category_justified (stg : list Staging.row)
    (cats : list SkillCategory.row) (sk : Skill.row) : Prop :=
  match Skill.category_id sk with
  | Some i =>
      exists c,
        In c cats /\ SkillCategory.category_id c = i
        /\ typed_skill stg (SkillCategory.category_name c)
             (Skill.skill_name sk)
  | None =>
      flat_skill stg (Skill.skill_name sk)
      /\ forall c, ~ typed_skill stg c (Skill.skill_name sk)
  end.

(** The staging row of [acme_db] and the job row a run makes of it. *)
Definition acme_row : Staging.row :=
  staging_row 1 (Some "Data Engineer") None (Some "Acme")
    (Some "Berlin, Germany") (Some "Germany") (Some 5%Z)
    (Some ["python"]) (Some (JDict [("programming", SkillList [Some "Python"])])).

Definition acme_job : Job.row :=
  Job.mk 1
    (Job.mkValues (Some "Data Engineer") None (Some 1%Z) (Some 1%Z) None None
       None (Some 5%Z) None None None None None None).

(** *** Surrogate ids *)

(** The ids of the rows of a table are values its generator gave from
    [lo] on. *)
Definition ids_from {R : Type} (idf : R -> Z) (lo : Z) (t : table R) : Prop :=
  (lo <= next_id t)%Z
  /\ Forall (fun r => (lo <= idf r < next_id t)%Z) (rows t).

(** No row of [after] has the id of a row of [before]. *)
Definition ids_new {R : Type} (idf : R -> Z) (before after : table R)
    : Prop :=
  Forall (fun r => ~ In (idf r) (map idf (rows before))) (rows after).

(** A store whose two staging rows propose the same location 4-tuple with
    a NULL city: no location and no country, and no location with the
    country spelled "Unknown". *)
Definition unknown_db : db :=
  fresh_db
    [staging_row 1 (Some "Data Engineer") None None None None None None None;
     staging_row 2 (Some "Data Analyst") None None None (Some "Unknown")
       None None None].

(** The string has ASCII characters only: those on which the LOWER of
    the store and Python's [lower] are the same function. *)
Definition is_ascii (s : string) : bool :=
  forallb (fun c => nat_of_ascii c <? 128) (list_ascii_of_string s).

(** *** The skill scenario among other rows *)

(** The scenario row and a second posting that lists AWS under the
    category "cloud". *)
Definition scenario_cloud_db : db :=
  fresh_db
    [scenario_row;
     staging_row 2 (Some "Cloud Engineer") None None None None None None
       (Some (JDict [("cloud", SkillList [Some "AWS"])]))].

(** The scenario row in a store whose skills table already has the skill
    "python", without a category. *)
Definition scenario_old_skill_db : db :=
  with_skills (mkTable [Skill.mk 1 "python" None] 2%Z)
    (fresh_db [scenario_row]).

(** What the builder leaves of the scenario in the store [d'], the staging
    rows being [stg]: the category "programming"; no skill name twice;
    "python" and "sql" with the id of a category under which a staging row
    lists them, "programming" when no row lists them under another; "aws"
    with a NULL category exactly when no staging row lists it under a
    category. *)
Definition scenario_outcome (stg : list Staging.row) (d' : db) : Prop :=
  (exists c, In c (rows (skill_categories d'))
             /\ SkillCategory.category_name c = "programming")
  /\ NoDup (map Skill.skill_name (rows (skills d')))
  /\ (forall n,
        In n ["python"; "sql"] ->
        exists sk c,
          In sk (rows (skills d')) /\ Skill.skill_name sk = n
          /\ In c (rows (skill_categories d'))
          /\ Skill.category_id sk = Some (SkillCategory.category_id c)
          /\ typed_skill stg (SkillCategory.category_name c) n
          /\ ((forall cat, typed_skill stg cat n -> cat = "programming")
              -> SkillCategory.category_name c = "programming"))
  /\ (exists sk,
        In sk (rows (skills d')) /\ Skill.skill_name sk = "aws"
        /\ (Skill.category_id sk = None
            <-> forall cat, ~ typed_skill stg cat "aws")).

(** * The modules around the transformation *)

(** ** [src/ingestion.py]: loading the data frame into the staging table *)

Module DataIngestion.

(** What a cell of a boolean column holds after [read_csv], and after the
    conversion: [None], NaN, a bool, or text. *)
Inductive cell : Type :=
  | CNone
  | CNaN
  | CBool (b : bool)
  | CStr (s : string).

(** [str(x)] *)
Definition str (x : cell) : string :=
  match x with
  | CNone => "None"
  | CNaN => "nan"
  | CBool true => "True"
  | CBool false => "False"
  | CStr s => s
  end.

(** [lambda x: True if str(x).lower() == 'true'
               else False if str(x).lower() == 'false' else None] *)
Definition to_bool (x : cell) : cell :=
  if String.eqb (Str.py_lower (str x)) "true" then CBool true
  else if String.eqb (Str.py_lower (str x)) "false" then CBool false
  else CNone.

(** [range(0, stop, step)]: a zero step raises ValueError, a negative one
    gives the empty range. *)
Definition py_range (stop : nat) (step : Z) : option (list nat) :=
  if (step =? 0)%Z then None
  else if (step <? 0)%Z then Some []
  else Some (offsets stop (Z.to_nat step) stop 0).

(** [df.iloc[i : j]] for [0 <= i <= j] *)
Definition iloc {A} (i j : nat) (df : list A) : list A :=
  firstn (j - i) (skipn i df).

Section Load.

Context {Raw Row : Type}.

(** The conversions [load_to_staging] applies to the columns of the copy
    of the frame, cell by cell, seen on one row. *)
Variable prepare : Raw -> Row.

(** One turn of

      for i in range(0, len(df_copy), batch_size):
          chunk = df_copy.iloc[i : i + batch_size]
          chunk.to_sql('staging_jobs', engine, if_exists='append', ...)
          pbar.update(len(chunk))

    on the rows of the staging table and the numbers given to
    [pbar.update]. *)
Definition load_chunk (df_copy : list Row) (batch_size : nat)
    (acc : list Row * list nat) (i : nat) : list Row * list nat :=
  let chunk := iloc i (i + batch_size) df_copy in
  (fst acc ++ chunk, snd acc ++ [List.length chunk]).

(** [load_to_staging(df, batch_size)]: [None] when [range] raises. *)
Definition load_to_staging (df : list Raw) (batch_size : Z)
    (staging_jobs : list Row) : option (list Row * list nat) :=
  let df_copy := map prepare df in
  match py_range (List.length df_copy) batch_size with
  | None => None
  | Some starts =>
      Some (fold_left (load_chunk df_copy (Z.to_nat batch_size)) starts
              (staging_jobs, []))
  end.

End Load.

End DataIngestion.

(** ** [src/database.py]: the engine and the schema file *)

Module DatabaseConfig.

(** An environment variable inside an f-string: an unset one prints as
    None. *)
Definition getenv_str (x : option string) : string :=
  match x with Some s => s | None => "None" end.

(** [f"postgresql://{user}:{password}@{host}:{port}/{database}"] *)
Definition _build_database_url (user password host port database
    : option string) : string :=
  ("postgresql://" ++ getenv_str user ++ ":" ++ getenv_str password ++ "@"
   ++ getenv_str host ++ ":" ++ getenv_str port ++ "/"
   ++ getenv_str database)%string.

(** [self.database_url.split('@')[1]]: [None] stands for IndexError. *)
Definition logged_host (database_url : string) : option string :=
  nth_error (Str.split_on "@"%char database_url) 1.

(** The string has the character. *)
Definition has_char (c : ascii) (s : string) : Prop :=
  In c (list_ascii_of_string s).

Inductive exn : Type :=
  | IndexError
  | CreateEngineError.

Inductive outcome (A : Type) : Type :=
  | Return (a : A)
  | Raise (e : exn).
Arguments Return {A} a.
Arguments Raise {A} e.

Section Engine.

Context {Engine : Type}.

(** [create_engine(url)]: [None] when it raises. *)
Variable create_engine : string -> option Engine.

Record config : Type := mkConfig {
  database_url : string;
  engine : option Engine
}.

(** [get_engine]: what it returns or raises, the configuration afterwards,
    and the lines it logs. *)
Definition get_engine (self : config)
    : outcome Engine * config * list string :=
  match engine self with
  | Some e => (Return e, self, [])
  | None =>
      match logged_host (database_url self) with
      | None => (Raise IndexError, self, [])
      | Some host =>
          let line := ("Creating database engine for " ++ host)%string in
          match create_engine (database_url self) with
          | None => (Raise CreateEngineError, self, [line])
          | Some e =>
              (Return e, mkConfig (database_url self) (Some e), [line])
          end
      end
  end.

(** Whether [conn.execute(text(statement))] raises. *)
Variable raises : string -> bool.

(** The loop of [execute_sql_file] over the pieces of the file:

      for statement in sql_commands.split(';'):
          statement = statement.strip()
          if statement:
              conn.execute(text(statement))

    gives the statements sent to the store and whether the loop ended
    without an exception. *)
Fixpoint run_statements (pieces : list string) : list string * bool :=
  match pieces with
  | [] => ([], true)
  | piece :: rest =>
      let statement := Str.py_strip piece in
      if Str.is_empty statement then run_statements rest
      else if raises statement then ([statement], false)
      else let '(sent, ok) := run_statements rest in (statement :: sent, ok)
  end.

Record sql_file_result : Type := mkSqlFileResult {
  returned : bool;
  sent : list string;
  committed : bool
}.

(** [execute_sql_file(filepath)], [sql_commands] being the content of the
    file, [None] when it cannot be read; [connect_ok] and [commit_ok] tell
    whether [engine.connect()] and [conn.commit()] succeed.  Every
    exception is caught and turned into [False]; [conn.commit()] is the
    last statement of the [with] block. *)
Definition execute_sql_file (sql_commands : option string)
    (connect_ok commit_ok : bool) (self : config)
    : sql_file_result * config :=
  match sql_commands with
  | None => (mkSqlFileResult false [] false, self)
  | Some sql_commands =>
      match get_engine self with
      | (Raise _, self', _) => (mkSqlFileResult false [] false, self')
      | (Return _, self', _) =>
          if connect_ok then
            let '(sent, ok) :=
              run_statements (Str.split_on ";"%char sql_commands) in
            (mkSqlFileResult (ok && commit_ok) sent (ok && commit_ok), self')
          else (mkSqlFileResult false [] false, self')
      end
  end.

End Engine.

End DatabaseConfig.

(** ** [src/validation.py]: the structure of the skills columns *)

Module DataValidator.

(** A cell of [job_skills] or [job_type_skills] in the data frame: a
    missing value, a list, a dict (its keys, in order), or something
    else. *)
Inductive value : Type :=
  | VNone
  | VNaN
  | VList (l : list string)
  | VDict (keys : list string)
  | VOther.

(** [Series.notna()] on one cell. *)
Definition notna (v : value) : bool :=
  match v with
  | VNone | VNaN => false
  | _ => true
  end.

Record job_skills_result : Type := mkJobSkills {
  total_non_null : nat;
  valid_lists : nat;
  invalid : nat;
  sample_values : list (list string)
}.

Record job_type_skills_result : Type := mkJobTypeSkills {
  dict_total_non_null : nat;
  valid_dicts : nat;
  dict_invalid : nat;
  sample_categories : list string
}.

(** The body of [for skill_list in df[non_null]['job_skills'].head(10)]. *)
Definition check_list (r : job_skills_result) (skill_list : value)
    : job_skills_result :=
  match skill_list with
  | VList l =>
      mkJobSkills (total_non_null r) (valid_lists r + 1) (invalid r)
        (if List.length (sample_values r) <? 3
         then sample_values r ++ [firstn 3 l] else sample_values r)
  | _ =>
      mkJobSkills (total_non_null r) (valid_lists r) (invalid r + 1)
        (sample_values r)
  end.

(** The body of
    [for skill_dict in df[non_null]['job_type_skills'].head(100)];
    [set.update(keys)] adds the keys that are not there. *)
Definition check_dict (r : job_type_skills_result) (skill_dict : value)
    : job_type_skills_result :=
  match skill_dict with
  | VDict keys =>
      mkJobTypeSkills (dict_total_non_null r) (valid_dicts r + 1)
        (dict_invalid r)
        (fold_left (fun s k => set_add k s) keys (sample_categories r))
  | _ =>
      mkJobTypeSkills (dict_total_non_null r) (valid_dicts r)
        (dict_invalid r + 1) (sample_categories r)
  end.

(** [validate_skills_structure(df)]: the [results] it logs.  A column is
    [None] when the frame does not have it. *)
Definition validate_skills_structure
    (job_skills job_type_skills : option (list value))
    : job_skills_result * job_type_skills_result :=
  (match job_skills with
   | None => mkJobSkills 0 0 0 []
   | Some col =>
       let non_null := filter notna col in
       fold_left check_list (firstn 10 non_null)
         (mkJobSkills (List.length non_null) 0 0 [])
   end,
   match job_type_skills with
   | None => mkJobTypeSkills 0 0 0 []
   | Some col =>
       let non_null := filter notna col in
       fold_left check_dict (firstn 100 non_null)
         (mkJobTypeSkills (List.length non_null) 0 0 [])
   end).

End DataValidator.

(** ** [src/pipeline.py]: the order of the phases *)

Module JobPipeline.

(** What the collaborators of one run do: each field tells whether a call
    succeeds (a call that fails returns False or raises). *)
Record world : Type := mkWorld {
  connection_ok : bool;      (* test_connection() *)
  schema_exists : bool;      (* schema_path.exists() *)
  schema_ok : bool;          (* execute_sql_file(schema_path) *)
  csv_ok : bool;             (* read_csv does not raise *)
  data_valid : bool;         (* validate_raw_data(df)[0] *)
  checks_ok : bool;          (* the quality checks do not raise *)
  load_ok : bool;            (* load_to_staging does not raise *)
  transformation_ok : bool   (* run_transformation() does not raise *)
}.

Inductive event : Type :=
  | TestConnection
  | ExecuteSchema
  | ReadCsv
  | ValidateRawData
  | QualityChecks
  | LoadToStaging
  | Transformation
  | Close.

Definition event_eqb (a b : event) : bool :=
  match a, b with
  | TestConnection, TestConnection | ExecuteSchema, ExecuteSchema
  | ReadCsv, ReadCsv | ValidateRawData, ValidateRawData
  | QualityChecks, QualityChecks | LoadToStaging, LoadToStaging
  | Transformation, Transformation | Close, Close => true
  | _, _ => false
  end.

(** [setup_database()]: its result and the calls it makes. *)
Definition setup_database (w : world) : bool * list event :=
  if negb (connection_ok w) then (false, [TestConnection])
  else if negb (schema_exists w) then (false, [TestConnection])
  else if negb (schema_ok w) then (false, [TestConnection; ExecuteSchema])
  else (true, [TestConnection; ExecuteSchema]).

(** [validate_data(df)]: [None] when a quality check raises. *)
Definition validate_data (w : world) : option bool * list event :=
  if negb (data_valid w) then (Some false, [ValidateRawData])
  else if negb (checks_ok w) then (None, [ValidateRawData; QualityChecks])
  else (Some true, [ValidateRawData; QualityChecks]).

(** [run_ingestion()]: every exception is caught and gives False. *)
Definition run_ingestion (w : world) : bool * list event :=
  if negb (csv_ok w) then (false, [ReadCsv])
  else
    match validate_data w with
    | (None, evs) => (false, ReadCsv :: evs)
    | (Some false, evs) => (false, ReadCsv :: evs)
    | (Some true, evs) =>
        (load_ok w, ReadCsv :: evs ++ [LoadToStaging])
    end.

(** [run_transformation()] of the pipeline. *)
Definition run_transformation (w : world) : bool * list event :=
  (transformation_ok w, [Transformation]).

(** [run()]: the [finally] clause closes the connections on every path. *)
Definition run (only_transformation : bool) (w : world) : bool * list event :=
  if only_transformation then
    let '(ok, evs) := run_transformation w in
    (ok, evs ++ [Close])
  else
    let '(ok1, evs1) := setup_database w in
    if negb ok1 then (false, evs1 ++ [Close])
    else
      let '(ok2, evs2) := run_ingestion w in
      if negb ok2 then (false, evs1 ++ evs2 ++ [Close])
      else
        let '(ok3, evs3) := run_transformation w in
        (ok3, evs1 ++ evs2 ++ evs3 ++ [Close]).

End JobPipeline.

(** * Properties *)

(** ** The Location Normalizer *)

Lemma split_on_not_nil (sep : ascii) (s : string) : Str.split_on sep s <> [].
Proof.
  destruct s as [|c r]; simpl; [discriminate|].
  destruct (Ascii.eqb c sep); [discriminate|].
  destruct (Str.split_on sep r); discriminate.
Qed.

Lemma location_parts_not_nil (s : string) : location_parts s <> [].
Proof.
  unfold location_parts.
  destruct (Str.split_on ","%char (Str.py_strip s)) eqn:E; [|discriminate].
  now apply split_on_not_nil in E.
Qed.

Lemma extract_location_components_country
    (location_string : pyval) (c : option string) :
  country (extract_location_components location_string c) = c.
Proof.
  unfold extract_location_components.
  destruct (py_not location_string || pd_isna location_string);
    [reflexivity|].
  destruct (3 <=? _); [reflexivity|].
  destruct (_ =? 2); [reflexivity|].
  destruct (_ =? 1); reflexivity.
Qed.

(** C4 as the code has it: the country is passed through; a missing or empty
    location gives no city and no state/province; otherwise the trimmed
    comma-separated segments decide, one segment giving the city alone, two
    or more giving city and state/province from the first two and ignoring
    the rest, where a segment that is empty after trimming is reported as
    NULL. *)
Theorem extract_location_components_cases
    (location_string : pyval) (c : option string) :
  let r := extract_location_components location_string c in
  country r = c /\
  match location_string with
  | PyNone | PyNaN | PyStr "" => city r = None /\ state_province r = None
  | PyStr s =>
      match location_parts s with
      | [] => False
      | [p0] => city r = or_none p0 /\ state_province r = None
      | p0 :: p1 :: _ => city r = or_none p0 /\ state_province r = or_none p1
      end
  end.
Proof.
  destruct location_string as [| |s]; simpl; try (split; [reflexivity|split; reflexivity]).
  destruct s as [|a s]; [split; [reflexivity|split; reflexivity]|].
  unfold extract_location_components; simpl py_not; simpl pd_isna;
    simpl py_str; cbv [orb].
  pose proof (location_parts_not_nil (String a s)) as Hne.
  destruct (location_parts (String a s)) as [|p0 [|p1 [|p2 rest]]];
    [contradiction| | |]; simpl; repeat split; reflexivity.
Qed.

(** C4, the scenario of the claim. *)
Example extract_location_components_rio :
  extract_location_components
    (PyStr "Rio de Janeiro, State of Rio de Janeiro, Brazil") (Some "Brazil")
  = mkComponents (Some "Rio de Janeiro") (Some "State of Rio de Janeiro")
                 (Some "Brazil").
Proof. reflexivity. Qed.

(** C4 as stated fails: ",CA" has the two segments "" and "CA", and the city
    is NULL, not the first segment. *)
Lemma extract_location_components_empty_segment :
  location_parts ",CA" = [""; "CA"] /\
  city (extract_location_components (PyStr ",CA") (Some "US")) = None /\
  city (extract_location_components (PyStr ",CA") (Some "US"))
    <> Some (nth 0 (location_parts ",CA") "").
Proof. repeat split; try reflexivity. discriminate. Qed.

(** ** The batch loop *)

Lemma batch_loop_fold fuel limit total_rows batch :
  forall offset d reported,
    batch_loop fuel limit total_rows offset batch d reported
    = fold_left (run_batch batch) (offsets fuel limit total_rows offset)
        (d, reported).
Proof.
  induction fuel as [|fuel IH]; intros offset d reported; simpl;
    [reflexivity|].
  destruct (offset <? total_rows); [|reflexivity].
  simpl. unfold run_batch at 2. simpl.
  destruct (batch offset d) as [d' n]. apply IH.
Qed.

(** More fuel than the rows left changes nothing: the loop ends because its
    condition fails. *)
Lemma offsets_fuel limit total_rows :
  0 < limit ->
  forall fuel fuel' offset,
    total_rows - offset <= fuel -> total_rows - offset <= fuel' ->
    offsets fuel limit total_rows offset
    = offsets fuel' limit total_rows offset.
Proof.
  intros Hl. induction fuel as [|fuel IH]; intros fuel' offset H H'.
  - destruct fuel' as [|fuel']; simpl; [reflexivity|].
    destruct (Nat.ltb_spec offset total_rows); [lia|reflexivity].
  - destruct fuel' as [|fuel']; simpl.
    + destruct (Nat.ltb_spec offset total_rows); [lia|reflexivity].
    + destruct (Nat.ltb_spec offset total_rows); [|reflexivity].
      f_equal. apply IH; lia.
Qed.

Lemma batch_loop_fuel limit total_rows batch d reported :
  0 < limit ->
  forall fuel, total_rows <= fuel ->
    batch_loop fuel limit total_rows 0 batch d reported
    = batch_loop total_rows limit total_rows 0 batch d reported.
Proof.
  intros Hl fuel H. rewrite !batch_loop_fold.
  now rewrite (offsets_fuel limit total_rows Hl fuel total_rows 0) by lia.
Qed.

Lemma firstn_plus {A} (a b : nat) (l : list A) :
  firstn (a + b) l = firstn a l ++ firstn b (skipn a l).
Proof.
  revert l. induction a as [|a IH]; intros l; [reflexivity|].
  destruct l as [|x l]; simpl.
  - now rewrite firstn_nil.
  - now rewrite IH.
Qed.

(** The windows at the offsets of the loop, one after the other, are a
    prefix of the rows from the first offset on. *)
Lemma windows_tile {A} (q : list A) limit total_rows :
  forall fuel offset,
    List.concat (map (fun o => limit_offset limit o q)
                (offsets fuel limit total_rows offset))
    = firstn (List.length (offsets fuel limit total_rows offset) * limit)
        (skipn offset q).
Proof.
  induction fuel as [|fuel IH]; intros offset; simpl; [reflexivity|].
  destruct (offset <? total_rows); simpl; [|reflexivity].
  rewrite IH. unfold limit_offset.
  rewrite Nat.add_comm, firstn_plus. f_equal.
  now rewrite skipn_skipn, (Nat.add_comm limit offset).
Qed.

(** With a positive limit the loop started at 0 with [total_rows] of fuel
    runs until its windows reach [total_rows]. *)
Lemma offsets_reach limit total_rows :
  0 < limit ->
  forall fuel offset,
    total_rows - offset <= fuel ->
    total_rows
    <= offset + List.length (offsets fuel limit total_rows offset) * limit.
Proof.
  intros Hl. induction fuel as [|fuel IH]; intros offset H; simpl.
  - lia.
  - destruct (Nat.ltb_spec offset total_rows); simpl; [|lia].
    specialize (IH (offset + limit)). lia.
Qed.

Lemma BATCH_SIZE_pos : 0 < BATCH_SIZE.
Proof. unfold BATCH_SIZE. lia. Qed.

Lemma BATCH_SIZE_10_pos : 0 < BATCH_SIZE * 10.
Proof. unfold BATCH_SIZE. lia. Qed.

(** The proofs below never need the value of the batch size. *)
Opaque BATCH_SIZE.

(** ** Sorting keeps the rows *)

Lemma insert_by_perm {A} (le : A -> A -> bool) (x : A) (l : list A) :
  Permutation (insert_by le x l) (x :: l).
Proof.
  induction l as [|y r IH]; simpl; [reflexivity|].
  destruct (le x y); [reflexivity|].
  rewrite IH. apply perm_swap.
Qed.

Lemma order_by_perm {A} (le : A -> A -> bool) (l : list A) :
  Permutation (order_by le l) l.
Proof.
  induction l as [|x l IH]; simpl; [reflexivity|].
  rewrite insert_by_perm. now constructor.
Qed.

Lemma order_by_length {A} (le : A -> A -> bool) (l : list A) :
  List.length (order_by le l) = List.length l.
Proof. apply Permutation_length, order_by_perm. Qed.

(** ** The fact populator *)

Lemma db_eta (d : db) : with_jobs (jobs d) d = d.
Proof. now destruct d. Qed.

Lemma insert_jobs_app (w1 w2 : list Job.values) (t : table Job.row) :
  insert_jobs (w1 ++ w2) t = insert_jobs w2 (insert_jobs w1 t).
Proof. apply fold_left_app. Qed.

Lemma insert_jobs_cols (w : list Job.values) :
  forall t, exists new,
    rows (insert_jobs w t) = rows t ++ new /\ map Job.cols new = w.
Proof.
  induction w as [|v w IH]; intros t; simpl.
  - exists []. now rewrite app_nil_r.
  - destruct (IH (mkTable (rows t ++ [Job.mk (next_id t) v]) (next_id t + 1)%Z))
      as (new & Hr & Hc).
    exists (Job.mk (next_id t) v :: new). split.
    + unfold insert_jobs in *. rewrite Hr. simpl. now rewrite <- app_assoc.
    + simpl. now rewrite Hc.
Qed.

(** The loop of [populate_jobs] from any store that differs from [d] in
    the jobs table only: the windows are cut from the SELECT on [d]. *)
Lemma jobs_loop_fold (d : db) (offs : list nat) :
  forall t reported,
    fold_left (run_batch jobs_batch) offs (with_jobs t d, reported)
    = (with_jobs
         (insert_jobs
            (List.concat
               (map (fun o => limit_offset BATCH_SIZE o (jobs_select d)) offs))
            t) d,
       reported
       ++ map (fun o => List.length (limit_offset BATCH_SIZE o (jobs_select d)))
            offs).
Proof.
  induction offs as [|o offs IH]; intros t reported; simpl.
  - now rewrite app_nil_r.
  - unfold run_batch at 2. simpl.
    change (jobs_select (with_jobs t d)) with (jobs_select d).
    change (with_jobs _ (with_jobs t d))
      with (with_jobs
              (insert_jobs (limit_offset BATCH_SIZE o (jobs_select d)) t) d).
    rewrite IH, insert_jobs_app, <- app_assoc. reflexivity.
Qed.

Lemma populate_jobs_reporting_eq (d : db) :
  let offs := offsets (jobs_total_rows d) BATCH_SIZE (jobs_total_rows d) 0 in
  populate_jobs_reporting d
  = (with_jobs
       (insert_jobs (firstn (jobs_batches d * BATCH_SIZE) (jobs_select d))
          (jobs d)) d,
     map (fun o => List.length (limit_offset BATCH_SIZE o (jobs_select d)))
       offs).
Proof.
  intros offs. unfold populate_jobs_reporting.
  rewrite batch_loop_fold.
  pose proof (jobs_loop_fold d offs (jobs d) []) as H.
  rewrite db_eta in H. fold offs. rewrite H. simpl app.
  unfold offs, jobs_batches. now rewrite windows_tile.
Qed.

Lemma list_sum_map_length {A} (ls : list (list A)) :
  list_sum (map (@List.length A) ls) = List.length (List.concat ls).
Proof.
  induction ls as [|l ls IH]; simpl; [reflexivity|].
  now rewrite length_app, IH.
Qed.

(** The rows the fact populator adds are those of the windows, in order. *)
Lemma populate_jobs_rows (d : db) :
  exists new,
    rows (jobs (populate_jobs d)) = rows (jobs d) ++ new
    /\ map Job.cols new
       = firstn (jobs_batches d * BATCH_SIZE) (jobs_select d).
Proof.
  unfold populate_jobs. rewrite populate_jobs_reporting_eq. simpl.
  apply insert_jobs_cols.
Qed.

Lemma job_qualifies_spec (s : Staging.row) :
  job_qualifies s = true
  <-> ~ (Staging.job_title s = None /\ Staging.job_title_short s = None).
Proof.
  unfold job_qualifies.
  destruct (Staging.job_title s), (Staging.job_title_short s); simpl;
    split; intros H; try reflexivity; try discriminate;
    try (intros [? ?]; discriminate).
  exfalso. apply H. now split.
Qed.

Lemma left_join_not_nil {R} (on : R -> bool) (t : list R) :
  left_join on t <> [].
Proof.
  unfold left_join. destruct (filter on t); discriminate.
Qed.

Lemma in_job_joined (d : db) (s : Staging.row) (v : Job.values) :
  In v (job_joined d s) ->
  Job.job_title v
    = Sql.coalesce2 (Staging.job_title s) (Staging.job_title_short s)
  /\ Job.job_title_short v = Staging.job_title_short s
  /\ Job.job_posted_date v = Staging.job_posted_date s.
Proof.
  unfold job_joined. intros H.
  apply in_flat_map in H as (c & _ & H).
  apply in_flat_map in H as (l & _ & H).
  apply in_flat_map in H as (p & _ & H).
  apply in_map_iff in H as (st & <- & _).
  now repeat split.
Qed.

Lemma job_joined_not_nil (d : db) (s : Staging.row) : job_joined d s <> [].
Proof.
  unfold job_joined.
  set (cs := left_join _ (rows (companies d))).
  set (ls := left_join _ (rows (locations d))).
  set (ps := left_join _ (rows (platforms d))).
  set (sts := left_join _ (rows (schedule_types d))).
  assert (Hc : cs <> []) by apply left_join_not_nil.
  assert (Hl : ls <> []) by apply left_join_not_nil.
  assert (Hp : ps <> []) by apply left_join_not_nil.
  assert (Hs : sts <> []) by apply left_join_not_nil.
  destruct cs as [|c cs]; [contradiction|].
  destruct ls as [|l ls]; [contradiction|].
  destruct ps as [|p ps]; [contradiction|].
  destruct sts as [|st sts]; [contradiction|].
  simpl. discriminate.
Qed.

Lemma in_jobs_select (d : db) (v : Job.values) :
  In v (jobs_select d)
  <-> exists s, In s (staging_jobs d) /\ job_qualifies s = true
                /\ In v (job_joined d s).
Proof.
  unfold jobs_select. rewrite in_flat_map. split.
  - intros (s & Hs & Hv). exists s.
    apply (Permutation_in _ (order_by_perm _ _)) in Hs.
    apply filter_In in Hs as [Hs Hq]. now repeat split.
  - intros (s & Hs & Hq & Hv). exists s. split; [|exact Hv].
    apply (Permutation_in _ (Permutation_sym (order_by_perm _ _))).
    apply filter_In. now split.
Qed.

Lemma in_firstn {A} (n : nat) (l : list A) (x : A) :
  In x (firstn n l) -> In x l.
Proof.
  intros H. rewrite <- (firstn_skipn n l). apply in_or_app. now left.
Qed.

(** Every row the fact populator adds comes from a qualifying staging row
    and carries its coalesced title. *)
Lemma populate_jobs_new_rows (d : db) :
  exists new,
    rows (jobs (populate_jobs d)) = rows (jobs d) ++ new
    /\ Forall
         (fun j => exists s,
            In s (staging_jobs d) /\ job_qualifies s = true
            /\ In (Job.cols j) (job_joined d s))
         new.
Proof.
  destruct (populate_jobs_rows d) as (new & Hr & Hc).
  exists new. split; [exact Hr|].
  apply Forall_forall. intros j Hj.
  apply in_jobs_select.
  apply (in_map Job.cols) in Hj. rewrite Hc in Hj.
  eapply in_firstn; eauto.
Qed.

Lemma coalesce2_title (s : Staging.row) :
  job_qualifies s = true ->
  Sql.coalesce2 (Staging.job_title s) (Staging.job_title_short s) <> None.
Proof.
  intros H. apply job_qualifies_spec in H.
  destruct (Staging.job_title s) eqn:E1; simpl; [discriminate|].
  destruct (Staging.job_title_short s) eqn:E2; [discriminate|].
  exfalso. apply H. now split.
Qed.

Lemma bridge_on_spec (j : Job.row) (stg : Staging.row) :
  bridge_on j stg = true
  <-> (exists t, Job.job_title (Job.cols j) = Some t
                 /\ Staging.job_title stg = Some t)
      /\ (exists p, Job.job_posted_date (Job.cols j) = Some p
                    /\ Staging.job_posted_date stg = Some p).
Proof.
  unfold bridge_on.
  destruct (Job.job_title (Job.cols j)) as [a|],
           (Staging.job_title stg) as [b|],
           (Job.job_posted_date (Job.cols j)) as [p|],
           (Staging.job_posted_date stg) as [q|]; simpl.
  1: destruct (String.eqb_spec a b) as [->|Hab],
              (Z.eqb_spec p q) as [->|Hpq]; simpl.
  1: split; [intros _; split; eauto|reflexivity].
  all: split;
    [try discriminate;
     try (match goal with
          | |- context [String.eqb ?x ?y] => destruct (String.eqb x y)
          | |- context [Z.eqb ?x ?y] => destruct (Z.eqb x y)
          end; discriminate)
    |intros [(t & H1 & H2) (r & H3 & H4)]; congruence].
Qed.

(** ** The bridge populator *)

Lemma existsb_same_pair (p : Z * Z) (t : list JobSkill.row) :
  existsb (same_pair p) t = true <-> In p (map pair_of t).
Proof.
  rewrite existsb_exists, in_map_iff. unfold same_pair, pair_of.
  split; intros (r & H1 & H2); exists r.
  - apply andb_true_iff in H2 as [Ha Hb].
    apply Z.eqb_eq in Ha, Hb. destruct p; simpl in *. now subst.
  - destruct p; simpl in *. inversion H1; subst.
    now rewrite !Z.eqb_refl.
Qed.

Lemma insert_job_skill_count (w : list (Z * Z)) :
  forall t n,
    fold_left insert_job_skill w (t, n)
    = (fst (insert_job_skills w t), n + snd (insert_job_skills w t)).
Proof.
  unfold insert_job_skills.
  induction w as [|p w IH]; intros t n; simpl.
  - now rewrite Nat.add_0_r.
  - unfold insert_job_skill at 2 4 6. simpl.
    destruct (existsb (same_pair p) t); simpl.
    + apply IH.
    + rewrite IH. rewrite (IH _ 1). simpl. f_equal. lia.
Qed.

Lemma insert_job_skills_app (w1 w2 : list (Z * Z)) (t : list JobSkill.row) :
  insert_job_skills (w1 ++ w2) t
  = (fst (insert_job_skills w2 (fst (insert_job_skills w1 t))),
     snd (insert_job_skills w1 t)
     + snd (insert_job_skills w2 (fst (insert_job_skills w1 t)))).
Proof.
  unfold insert_job_skills at 1. rewrite fold_left_app.
  fold (insert_job_skills w1 t).
  destruct (insert_job_skills w1 t) as [t1 n1]. simpl.
  apply insert_job_skill_count.
Qed.

(** What one INSERT does to the pairs of the table: it appends, in order,
    the pairs of the window that are new, and counts them. *)
Lemma insert_job_skill_fold (w : list (Z * Z)) :
  forall t n, exists new,
    map pair_of (fst (fold_left insert_job_skill w (t, n)))
    = map pair_of t ++ new
    /\ snd (fold_left insert_job_skill w (t, n)) = n + List.length new
    /\ incl new w
    /\ (forall p, In p w -> In p (map pair_of t) \/ In p new)
    /\ (NoDup (map pair_of t) -> NoDup (map pair_of t ++ new)).
Proof.
  induction w as [|p w IH]; intros t n.
  - exists []. simpl. rewrite app_nil_r, Nat.add_0_r.
    repeat split; try easy.
  - simpl. unfold insert_job_skill at 2 4. simpl.
    destruct (existsb (same_pair p) t) eqn:E.
    + destruct (IH t n) as (new & H1 & H2 & H3 & H4 & H5).
      exists new. repeat split; auto.
      * now apply incl_tl.
      * intros q [<-|Hq]; [left; now apply existsb_same_pair|now apply H4].
    + destruct (IH (t ++ [JobSkill.mk (fst p) (snd p)]) (S n))
        as (new & H1 & H2 & H3 & H4 & H5).
      assert (Hp : pair_of (JobSkill.mk (fst p) (snd p)) = p)
        by now destruct p.
      rewrite map_app in H1, H4, H5. simpl in H1, H4, H5.
      rewrite Hp in H1, H4, H5.
      exists (p :: new). repeat split.
      * rewrite H1, <- app_assoc. reflexivity.
      * rewrite H2. simpl. lia.
      * intros q [<-|Hq]; [now left|right; now apply H3].
      * intros q [<-|Hq]; [right; now left|].
        destruct (H4 q Hq) as [H|H]; [|right; now right].
        apply in_app_or in H as [H|[<-|[]]]; [now left|right; now left].
      * intros Hnd.
        replace (map pair_of t ++ p :: new)
          with ((map pair_of t ++ [p]) ++ new)
          by now rewrite <- app_assoc.
        apply H5. apply NoDup_app; [exact Hnd|repeat constructor; easy|].
        intros q Hq [<-|[]].
        apply existsb_same_pair in Hq. congruence.
Qed.

Lemma insert_job_skills_pairs (w : list (Z * Z)) (t : list JobSkill.row) :
  exists new,
    map pair_of (fst (insert_job_skills w t)) = map pair_of t ++ new
    /\ snd (insert_job_skills w t) = List.length new
    /\ incl new w
    /\ (forall p, In p w -> In p (map pair_of t) \/ In p new)
    /\ (NoDup (map pair_of t) -> NoDup (map pair_of t ++ new)).
Proof. apply (insert_job_skill_fold w t 0). Qed.

Lemma db_eta_job_skills (d : db) : with_job_skills (job_skills d) d = d.
Proof. now destruct d. Qed.

Lemma job_skills_batch_eq (d : db) (t : list JobSkill.row) (o : nat) :
  let w := limit_offset (BATCH_SIZE * 10) o (bridge_select d) in
  job_skills_batch o (with_job_skills t d)
  = (with_job_skills (fst (insert_job_skills w t)) d,
     snd (insert_job_skills w t)).
Proof.
  intros w. unfold job_skills_batch.
  change (bridge_select (with_job_skills t d)) with (bridge_select d).
  change (job_skills (with_job_skills t d)) with t. fold w.
  now destruct (insert_job_skills w t).
Qed.

(** The loop of [populate_job_skills] from any store that differs from [d]
    in the bridge table only. *)
Lemma job_skills_loop_fold (d : db) (offs : list nat) :
  forall t reported,
    let windows :=
      map (fun o => limit_offset (BATCH_SIZE * 10) o (bridge_select d)) offs in
    exists counts,
      fold_left (run_batch job_skills_batch) offs
        (with_job_skills t d, reported)
      = (with_job_skills
           (fst (insert_job_skills (List.concat windows) t)) d,
         reported ++ counts)
      /\ list_sum counts
         = snd (insert_job_skills (List.concat windows) t).
Proof.
  induction offs as [|o offs IH]; intros t reported; simpl.
  - exists []. now rewrite app_nil_r.
  - unfold run_batch at 2. simpl fst. simpl snd.
    rewrite job_skills_batch_eq.
    set (w := limit_offset (BATCH_SIZE * 10) o (bridge_select d)).
    destruct (IH (fst (insert_job_skills w t))
                 (reported ++ [snd (insert_job_skills w t)]))
      as (counts & H1 & H2).
    exists (snd (insert_job_skills w t) :: counts).
    rewrite H1, insert_job_skills_app. simpl.
    rewrite <- app_assoc. split; [reflexivity|]. now rewrite H2.
Qed.

Lemma bridge_select_length (d : db) :
  List.length (bridge_select d) = bridge_total_rows d.
Proof. apply order_by_length. Qed.

(** The bridge populator as one INSERT: its windows cover the whole SELECT,
    and the reported counts add up to the rows that were inserted. *)
Lemma populate_job_skills_reporting_eq (d : db) :
  exists counts,
    populate_job_skills_reporting d
    = (with_job_skills
         (fst (insert_job_skills (bridge_select d) (job_skills d))) d,
       counts)
    /\ list_sum counts
       = snd (insert_job_skills (bridge_select d) (job_skills d)).
Proof.
  unfold populate_job_skills_reporting. rewrite batch_loop_fold.
  set (total := bridge_total_rows d).
  set (offs := offsets total (BATCH_SIZE * 10) total 0).
  destruct (job_skills_loop_fold d offs (job_skills d) [])
    as (counts & H1 & H2).
  rewrite db_eta_job_skills in H1.
  assert (Hall : List.concat
            (map (fun o => limit_offset (BATCH_SIZE * 10) o (bridge_select d))
               offs) = bridge_select d).
  { unfold offs. rewrite windows_tile. simpl skipn.
    apply firstn_all2. rewrite bridge_select_length. fold total.
    pose proof (offsets_reach (BATCH_SIZE * 10) total BATCH_SIZE_10_pos
                  total 0) as H. lia. }
  rewrite Hall in H1, H2.
  exists counts. split; [exact H1|exact H2].
Qed.

(** ** What each stage leaves alone *)

Lemma populate_jobs_with (d : db) :
  populate_jobs d
  = with_jobs
      (insert_jobs (firstn (jobs_batches d * BATCH_SIZE) (jobs_select d))
         (jobs d)) d.
Proof. unfold populate_jobs. now rewrite populate_jobs_reporting_eq. Qed.

Lemma populate_job_skills_with (d : db) :
  populate_job_skills d
  = with_job_skills
      (fst (insert_job_skills (bridge_select d) (job_skills d))) d.
Proof.
  unfold populate_job_skills.
  destruct (populate_job_skills_reporting_eq d) as (counts & H & _).
  now rewrite H.
Qed.

Lemma delete_previous_info_eq (d : db) :
  delete_previous_info d
  = mkDb (staging_jobs d)
      (delete_all (companies d)) (delete_all (locations d))
      (delete_all (platforms d)) (delete_all (schedule_types d))
      (delete_all (skill_categories d)) (delete_all (skills d))
      (delete_all (jobs d)) [].
Proof. reflexivity. Qed.

Section Frame.

Variable any_order : forall A : Type, list A -> list A.

Lemma populate_dimensions_staging (d : db) :
  staging_jobs (populate_dimensions any_order d) = staging_jobs d.
Proof. reflexivity. Qed.

Lemma populate_dimensions_jobs (d : db) :
  jobs (populate_dimensions any_order d) = jobs d
  /\ job_skills (populate_dimensions any_order d) = job_skills d.
Proof. split; reflexivity. Qed.

(** The dimension stage fills each of the four dimensions of the fact
    table from the staging rows and the table itself. *)
Lemma populate_dimensions_tables (d : db) :
  companies (populate_dimensions any_order d)
  = fold_left insert_company (companies_select any_order (staging_jobs d))
      (companies d)
  /\ locations (populate_dimensions any_order d)
     = fold_left insert_location (locations_select any_order (staging_jobs d))
         (locations d)
  /\ platforms (populate_dimensions any_order d)
     = fold_left insert_platform (platforms_select any_order (staging_jobs d))
         (platforms d)
  /\ schedule_types (populate_dimensions any_order d)
     = fold_left insert_schedule_type
         (schedule_types_select any_order (staging_jobs d))
         (schedule_types d).
Proof. repeat split; reflexivity. Qed.

Lemma run_transformation_staging (d : db) :
  staging_jobs (run_transformation any_order d) = staging_jobs d.
Proof.
  unfold run_transformation.
  now rewrite populate_job_skills_with, populate_jobs_with.
Qed.

(** C10: the purge deletes from the eight destination tables, in child to
    parent order, and not from staging_jobs; no statement of the purge and
    no stage changes the staging table, so a full run leaves it as it
    found it. *)
Theorem run_transformation_keeps_staging (d : db) :
  purged_tables
  = [T_job_skills; T_jobs; T_skills; T_skill_categories;
     T_companies; T_locations; T_platforms; T_schedule_types]
  /\ ~ In T_staging_jobs purged_tables
  /\ Forall (fun t => forall d', staging_jobs (delete_from t d')
                                 = staging_jobs d') purged_tables
  /\ staging_jobs (delete_previous_info d) = staging_jobs d
  /\ staging_jobs (populate_companies any_order d) = staging_jobs d
  /\ staging_jobs (populate_locations any_order d) = staging_jobs d
  /\ staging_jobs (populate_platforms any_order d) = staging_jobs d
  /\ staging_jobs (populate_schedule_types any_order d) = staging_jobs d
  /\ staging_jobs (populate_skill_categories_and_skills any_order d)
     = staging_jobs d
  /\ staging_jobs (populate_jobs d) = staging_jobs d
  /\ staging_jobs (populate_job_skills d) = staging_jobs d
  /\ staging_jobs (run_transformation any_order d) = staging_jobs d.
Proof.
  split; [reflexivity|].
  split; [unfold purged_tables; simpl; intuition discriminate|].
  split; [repeat constructor|].
  split; [reflexivity|].
  do 5 (split; [reflexivity|]).
  split; [now rewrite populate_jobs_with|].
  split; [now rewrite populate_job_skills_with|].
  apply run_transformation_staging.
Qed.

End Frame.

(** ** Exclusion law and bridge uniqueness *)

Lemma job_joined_has_title (d : db) (s : Staging.row) (j : Job.row) :
  job_qualifies s = true -> In (Job.cols j) (job_joined d s) -> has_title j.
Proof.
  intros Hq Hj [Ht _]. apply in_job_joined in Hj as (E & _ & _).
  rewrite E in Ht. now apply (coalesce2_title s Hq).
Qed.

Section Exclusion.

Variable any_order : forall A : Type, list A -> list A.

(** C5: the WHERE clause drops exactly the staging rows whose title and
    title-short are both NULL; every other staging row has joined rows in
    the SELECT; every row the fact populator adds comes from a staging row
    that is kept and has a title or a title-short; so the law holds after
    the populator when it held before, and after every full run. *)
Theorem populate_jobs_exclusion (d : db) :
  Forall
    (fun s =>
       (Staging.job_title s = None /\ Staging.job_title_short s = None
        -> job_qualifies s = false
           /\ ~ In s (filter job_qualifies (staging_jobs d)))
       /\ (~ (Staging.job_title s = None /\ Staging.job_title_short s = None)
           -> job_joined d s <> []
              /\ incl (job_joined d s) (jobs_select d)))
    (staging_jobs d)
  /\ (exists new,
        rows (jobs (populate_jobs d)) = rows (jobs d) ++ new
        /\ Forall
             (fun j =>
                has_title j
                /\ exists s,
                     In s (staging_jobs d)
                     /\ ~ (Staging.job_title s = None
                           /\ Staging.job_title_short s = None)
                     /\ In (Job.cols j) (job_joined d s))
             new)
  /\ (Forall has_title (rows (jobs d))
      -> Forall has_title (rows (jobs (populate_jobs d))))
  /\ Forall has_title (rows (jobs (run_transformation any_order d))).
Proof.
  assert (Hnew : exists new,
        rows (jobs (populate_jobs d)) = rows (jobs d) ++ new
        /\ Forall
             (fun j =>
                has_title j
                /\ exists s,
                     In s (staging_jobs d)
                     /\ ~ (Staging.job_title s = None
                           /\ Staging.job_title_short s = None)
                     /\ In (Job.cols j) (job_joined d s))
             new).
  { destruct (populate_jobs_new_rows d) as (new & Hr & Hn).
    exists new. split; [exact Hr|].
    eapply Forall_impl; [|exact Hn]. simpl.
    intros j (s & Hs & Hq & Hj). split.
    - now apply (job_joined_has_title d s).
    - exists s. split; [exact Hs|]. split; [|exact Hj].
      now apply job_qualifies_spec. }
  split; [|split; [exact Hnew|split]].
  - apply Forall_forall. intros s Hs. split.
    + intros Hboth.
      assert (Hq : job_qualifies s = false).
      { destruct (job_qualifies s) eqn:E; [|reflexivity].
        apply job_qualifies_spec in E. contradiction. }
      split; [exact Hq|]. intros Hin. apply filter_In in Hin as [_ Hin].
      congruence.
    + intros Hsome. apply job_qualifies_spec in Hsome.
      split; [apply job_joined_not_nil|].
      intros v Hv. apply in_jobs_select. now exists s.
  - intros Hold. destruct Hnew as (new & -> & Hn).
    apply Forall_app. split; [exact Hold|].
    eapply Forall_impl; [|exact Hn]. now intros j [H _].
  - unfold run_transformation.
    set (d1 := populate_dimensions any_order (delete_previous_info d)).
    assert (Hempty : rows (jobs d1) = []) by reflexivity.
    clearbody d1.
    rewrite populate_job_skills_with.
    change (jobs (with_job_skills ?t ?x)) with (jobs x).
    destruct (populate_jobs_new_rows d1) as (new & Hr & Hn).
    rewrite Hr, Hempty. cbn [app].
    eapply Forall_impl; [|exact Hn]. cbv beta.
    intros j (s & Hs & Hq & Hj). now apply (job_joined_has_title d1 s).
Qed.

End Exclusion.

(** C6: the bridge populator keeps the (job, skill) pairs of the bridge
    table free of repetition, whatever pairs the windows repeat: a pair that
    is already there is skipped, and every pair of the SELECT is there at
    the end. *)
Theorem populate_job_skills_unique (d : db) :
  NoDup (map pair_of (job_skills d)) ->
  NoDup (map pair_of (job_skills (populate_job_skills d)))
  /\ incl (map pair_of (job_skills d))
          (map pair_of (job_skills (populate_job_skills d)))
  /\ incl (bridge_select d)
          (map pair_of (job_skills (populate_job_skills d))).
Proof.
  intros Hnd. rewrite populate_job_skills_with.
  change (job_skills (with_job_skills ?t ?x)) with t.
  destruct (insert_job_skills_pairs (bridge_select d) (job_skills d))
    as (new & H1 & _ & _ & H4 & H5).
  rewrite H1. split; [now apply H5|]. split.
  - intros p Hp. apply in_or_app. now left.
  - intros p Hp. apply in_or_app. now apply H4.
Qed.

(** ** Batch completeness *)

(** An INSERT whose window has no repeated pair and no pair of the table
    inserts the whole window. *)
Lemma insert_job_skills_fresh (w : list (Z * Z)) :
  forall t n,
    NoDup w ->
    (forall p, In p w -> ~ In p (map pair_of t)) ->
    fold_left insert_job_skill w (t, n)
    = (t ++ map (fun p => JobSkill.mk (fst p) (snd p)) w, n + List.length w).
Proof.
  induction w as [|p w IH]; intros t n Hnd Hfresh; simpl.
  - now rewrite app_nil_r, Nat.add_0_r.
  - inversion Hnd as [|? ? Hp Hw]; subst.
    unfold insert_job_skill at 2. simpl.
    destruct (existsb (same_pair p) t) eqn:E.
    + apply existsb_same_pair in E. exfalso. apply (Hfresh p); [now left|easy].
    + rewrite IH; [|exact Hw|].
      * rewrite <- app_assoc. simpl. f_equal. lia.
      * intros q Hq Hin. rewrite map_app in Hin.
        apply in_app_or in Hin as [Hin|[Heq|[]]].
        -- apply (Hfresh q); [now right|easy].
        -- destruct p; simpl in Heq. unfold pair_of in Heq. simpl in Heq.
           now subst.
Qed.

Lemma insert_job_skills_count_le (w : list (Z * Z)) :
  forall t n, snd (fold_left insert_job_skill w (t, n)) <= n + List.length w.
Proof.
  induction w as [|p w IH]; intros t n; simpl; [lia|].
  unfold insert_job_skill at 2. cbn [fst snd].
  destruct (existsb (same_pair p) t).
  - specialize (IH t n). lia.
  - specialize (IH (t ++ [JobSkill.mk (fst p) (snd p)]) (S n)). lia.
Qed.

(** C3 as the code has it.  Fact populator: the total is the count of the
    staging rows the WHERE clause keeps; the windows, in order, are a prefix
    of the ordered SELECT that reaches the total; when the SELECT has as
    many rows as the total, the reported counts add up to the total and the
    rows inserted are the SELECT, each row once.  Bridge populator: the
    total is the size of the SELECT; the windows offer every row of it once
    and in order; a batch reports the rows it inserted, those that
    ON CONFLICT DO NOTHING did not discard, so the reported counts add up
    to the number of new pairs, at most the total, and to the total when
    the SELECT repeats no pair and the table has none of its pairs. *)
Theorem batch_completeness (d : db) :
  (jobs_total_rows d = List.length (filter job_qualifies (staging_jobs d))
   /\ jobs_total_rows d <= jobs_batches d * BATCH_SIZE
   /\ (exists new,
         rows (jobs (populate_jobs d)) = rows (jobs d) ++ new
         /\ map Job.cols new
            = firstn (jobs_batches d * BATCH_SIZE) (jobs_select d)
         /\ list_sum (snd (populate_jobs_reporting d)) = List.length new)
   /\ (List.length (jobs_select d) = jobs_total_rows d ->
       list_sum (snd (populate_jobs_reporting d)) = jobs_total_rows d
       /\ exists new,
            rows (jobs (populate_jobs d)) = rows (jobs d) ++ new
            /\ map Job.cols new = jobs_select d))
  /\ (bridge_total_rows d = List.length (bridge_select d)
      /\ (exists new,
            map pair_of (job_skills (populate_job_skills d))
            = map pair_of (job_skills d) ++ new
            /\ incl new (bridge_select d)
            /\ list_sum (snd (populate_job_skills_reporting d))
               = List.length new)
      /\ list_sum (snd (populate_job_skills_reporting d))
         <= bridge_total_rows d
      /\ (NoDup (bridge_select d) ->
          (forall p, In p (bridge_select d)
                     -> ~ In p (map pair_of (job_skills d))) ->
          list_sum (snd (populate_job_skills_reporting d))
          = bridge_total_rows d)).
Proof.
  assert (Hreach : jobs_total_rows d <= jobs_batches d * BATCH_SIZE).
  { pose proof (offsets_reach BATCH_SIZE (jobs_total_rows d) BATCH_SIZE_pos
                  (jobs_total_rows d) 0) as H.
    unfold jobs_batches. lia. }
  assert (Hsum : list_sum (snd (populate_jobs_reporting d))
                 = List.length
                     (firstn (jobs_batches d * BATCH_SIZE) (jobs_select d))).
  { rewrite populate_jobs_reporting_eq. cbn [snd].
    rewrite <- (map_map (fun o => limit_offset BATCH_SIZE o (jobs_select d))
                        (@List.length Job.values)).
    rewrite list_sum_map_length, windows_tile. reflexivity. }
  split.
  - split; [reflexivity|]. split; [exact Hreach|]. split.
    + destruct (populate_jobs_rows d) as (new & Hr & Hc).
      exists new. split; [exact Hr|]. split; [exact Hc|].
      now rewrite Hsum, <- Hc, length_map.
    + intros Hlen.
      assert (Hall : firstn (jobs_batches d * BATCH_SIZE) (jobs_select d)
                     = jobs_select d)
        by (apply firstn_all2; lia).
      split; [now rewrite Hsum, Hall|].
      destruct (populate_jobs_rows d) as (new & Hr & Hc).
      exists new. split; [exact Hr|]. now rewrite Hc.
  - destruct (populate_job_skills_reporting_eq d) as (counts & Hrep & Hcount).
    rewrite Hrep. cbn [snd]. rewrite Hcount.
    destruct (insert_job_skills_pairs (bridge_select d) (job_skills d))
      as (new & H1 & H2 & H3 & _ & H5).
    split; [now rewrite bridge_select_length|]. split; [|split].
    + exists new. rewrite populate_job_skills_with.
      change (job_skills (with_job_skills ?t ?x)) with t.
      split; [exact H1|]. split; [exact H3|exact H2].
    + rewrite <- bridge_select_length.
      apply (insert_job_skills_count_le (bridge_select d) (job_skills d) 0).
    + intros Hnd Hfresh. unfold insert_job_skills.
      rewrite insert_job_skills_fresh by assumption. cbn [snd plus].
      apply bridge_select_length.
Qed.

(** ** Insert-if-absent on a natural key *)

Section Keyed.

Context {R K : Type} (key : R -> K) (keqb : K -> K -> bool) (mk : Z -> K -> R).
Hypothesis keqb_eq : forall a b, keqb a b = true <-> a = b.
Hypothesis key_mk : forall i k, key (mk i k) = k.

Lemma existsb_key (k : K) (l : list R) :
  existsb (fun r => keqb (key r) k) l = true <-> In k (map key l).
Proof.
  rewrite existsb_exists, in_map_iff.
  split; intros (r & H1 & H2); exists r.
  - apply keqb_eq in H2. now split.
  - split; [exact H2|]. now apply keqb_eq.
Qed.

(** The keys after a sequence of inserts: the old keys, then the new ones
    in the order they were first proposed. *)
Lemma insert_keyed_keys (ks : list K) :
  forall t, exists new,
    map key (rows (fold_left (insert_keyed key keqb mk) ks t)) = map key (rows t) ++ new
    /\ incl new ks
    /\ (forall k, In k ks -> In k (map key (rows t)) \/ In k new)
    /\ (forall k, In k new -> ~ In k (map key (rows t)))
    /\ NoDup new.
Proof.
  induction ks as [|k ks IH]; intros t.
  - exists []. simpl. rewrite app_nil_r. repeat split; try easy. constructor.
  - simpl. unfold insert_keyed at 2, insert_do_nothing.
    destruct (existsb (fun r => keqb (key r) k) (rows t)) eqn:E.
    + destruct (IH (mkTable (rows t) (next_id t + 1)%Z))
        as (new & H1 & H2 & H3 & H4 & H5).
      exists new. simpl in *. repeat split; auto.
      * now apply incl_tl.
      * intros q [<-|Hq]; [left; now apply existsb_key|now apply H3].
    + destruct (IH (mkTable (rows t ++ [mk (next_id t) k]) (next_id t + 1)%Z))
        as (new & H1 & H2 & H3 & H4 & H5).
      simpl in H1, H3, H4. rewrite map_app in H1, H3, H4.
      simpl in H1, H3, H4. rewrite key_mk in H1, H3, H4.
      assert (Hk : ~ In k (map key (rows t))).
      { intros Hin. apply existsb_key in Hin. congruence. }
      exists (k :: new). repeat split.
      * rewrite H1, <- app_assoc. reflexivity.
      * intros q [<-|Hq]; [now left|right; now apply H2].
      * intros q [<-|Hq]; [right; now left|].
        destruct (H3 q Hq) as [H|H]; [|right; now right].
        apply in_app_or in H as [H|[<-|[]]]; [now left|right; now left].
      * intros q [<-|Hq]; [exact Hk|].
        intros Hin. apply (H4 q Hq). apply in_or_app. now left.
      * constructor; [|exact H5].
        intros Hin. apply (H4 k Hin). apply in_or_app. right. now left.
Qed.

Lemma insert_keyed_in (ks : list K) (t : table R) (k : K) :
  In k (map key (rows (fold_left (insert_keyed key keqb mk) ks t)))
  <-> In k (map key (rows t)) \/ In k ks.
Proof.
  destruct (insert_keyed_keys ks t) as (new & H1 & H2 & H3 & _ & _).
  rewrite H1, in_app_iff. split.
  - intros [H|H]; [now left|right; now apply H2].
  - intros [H|H]; [now left|]. destruct (H3 k H); [now left|now right].
Qed.

Lemma insert_keyed_NoDup (ks : list K) (t : table R) :
  NoDup (map key (rows t)) ->
  NoDup (map key (rows (fold_left (insert_keyed key keqb mk) ks t))).
Proof.
  intros Hnd.
  destruct (insert_keyed_keys ks t) as (new & H1 & _ & _ & H4 & H5).
  rewrite H1. apply NoDup_app; [exact Hnd|exact H5|].
  intros k Hk Hin. now apply (H4 k Hin).
Qed.

(** The keys after the inserts do not depend on the ids: two tables with
    the same keys have the same keys afterwards. *)
Lemma insert_keyed_keys_eq (ks : list K) :
  forall t1 t2,
    map key (rows t1) = map key (rows t2) ->
    map key (rows (fold_left (insert_keyed key keqb mk) ks t1)) = map key (rows (fold_left (insert_keyed key keqb mk) ks t2)).
Proof.
  induction ks as [|k ks IH]; intros t1 t2 H; simpl; [exact H|].
  apply IH. unfold insert_keyed, insert_do_nothing.
  destruct (existsb (fun r => keqb (key r) k) (rows t1)) eqn:E1,
           (existsb (fun r => keqb (key r) k) (rows t2)) eqn:E2; simpl.
  - exact H.
  - apply existsb_key in E1. rewrite H in E1. apply existsb_key in E1.
    congruence.
  - apply existsb_key in E2. rewrite <- H in E2. apply existsb_key in E2.
    congruence.
  - rewrite !map_app. simpl. now rewrite !key_mk, H.
Qed.

(** Every proposed row takes one value of the id generator. *)
Lemma insert_keyed_next_id (ks : list K) :
  forall t,
    next_id (fold_left (insert_keyed key keqb mk) ks t) = (next_id t + Z.of_nat (List.length ks))%Z.
Proof.
  induction ks as [|k ks IH]; intros t; simpl fold_left.
  - simpl. lia.
  - rewrite IH. unfold insert_keyed, insert_do_nothing.
    destruct (existsb _ _); simpl next_id; simpl List.length; lia.
Qed.

End Keyed.

(** The same inserts when the conflict test is the equality of the store:
    it holds between equal keys only, and not between all of them. *)
Section KeyedSound.

Context {R K : Type} (key : R -> K) (keqb : K -> K -> bool) (mk : Z -> K -> R).
Hypothesis keqb_sound : forall a b, keqb a b = true -> a = b.
Hypothesis key_mk : forall i k, key (mk i k) = k.

Lemma existsb_keys (k : K) (l : list R) :
  existsb (fun r => keqb (key r) k) l
  = existsb (fun x => keqb x k) (map key l).
Proof. induction l as [|r l IH]; simpl; [reflexivity|]. now rewrite IH. Qed.

Lemma insert_keyed_step (t : table R) (k : K) :
  (In k (map key (rows t))
   /\ existsb (fun x => keqb x k) (map key (rows t)) = true
   /\ rows (insert_keyed key keqb mk t k) = rows t)
  \/ (existsb (fun x => keqb x k) (map key (rows t)) = false
      /\ rows (insert_keyed key keqb mk t k) = rows t ++ [mk (next_id t) k]).
Proof.
  unfold insert_keyed, insert_do_nothing. rewrite existsb_keys.
  destruct (existsb (fun x => keqb x k) (map key (rows t))) eqn:E;
    cbn [rows].
  - left. split; [|now split].
    apply existsb_exists in E as (x & Hx & Hk).
    apply keqb_sound in Hk. now subst.
  - right. now split.
Qed.

Lemma insert_keyed_in_sound (ks : list K) :
  forall (t : table R) (k : K),
    In k (map key (rows (fold_left (insert_keyed key keqb mk) ks t)))
    <-> In k (map key (rows t)) \/ In k ks.
Proof.
  induction ks as [|q ks IH]; intros t k; cbn [fold_left].
  - cbn. tauto.
  - rewrite IH.
    destruct (insert_keyed_step t q) as [(Hq & _ & E)|(_ & E)]; rewrite E.
    + cbn [In]. split; [tauto|]. intros [H|[<-|H]]; tauto.
    + rewrite map_app, in_app_iff. cbn [map In]. rewrite key_mk. tauto.
Qed.

(** The keys after the inserts are decided by the keys before. *)
Lemma insert_keyed_keys_same (ks : list K) :
  forall t1 t2,
    map key (rows t1) = map key (rows t2) ->
    map key (rows (fold_left (insert_keyed key keqb mk) ks t1))
    = map key (rows (fold_left (insert_keyed key keqb mk) ks t2)).
Proof.
  induction ks as [|k ks IH]; intros t1 t2 H; cbn [fold_left]; [exact H|].
  apply IH.
  destruct (insert_keyed_step t1 k) as [(_ & X1 & E1)|(X1 & E1)],
           (insert_keyed_step t2 k) as [(_ & X2 & E2)|(X2 & E2)];
    rewrite E1, E2; rewrite H in X1; try congruence.
  rewrite !map_app. cbn [map]. now rewrite !key_mk, H.
Qed.

(** A view of the keys that tells the old keys and the proposed ones
    apart tells the keys apart afterwards. *)
Lemma insert_keyed_NoDup_view {C : Type} (g : K -> C) (ks : list K) :
  forall t,
    NoDup (map g (map key (rows t) ++ ks)) ->
    NoDup (map g (map key (rows (fold_left (insert_keyed key keqb mk) ks t)))).
Proof.
  induction ks as [|k ks IH]; intros t H; cbn [fold_left].
  - now rewrite app_nil_r in H.
  - apply IH.
    destruct (insert_keyed_step t k) as [(_ & _ & E)|(_ & E)]; rewrite E.
    + rewrite map_app in H |- *. cbn [map] in H.
      now apply NoDup_remove_1 in H.
    + rewrite (map_app key). cbn [map]. rewrite key_mk, <- app_assoc.
      exact H.
Qed.

(** The keys the conflict test can tell apart are never repeated. *)
Lemma insert_keyed_NoDup_where (complete : K -> bool) (ks : list K) :
  (forall k, complete k = true -> keqb k k = true) ->
  forall t,
    NoDup (filter complete (map key (rows t))) ->
    NoDup (filter complete
             (map key (rows (fold_left (insert_keyed key keqb mk) ks t)))).
Proof.
  intros Hc. induction ks as [|k ks IH]; intros t H; cbn [fold_left];
    [exact H|].
  apply IH.
  destruct (insert_keyed_step t k) as [(_ & _ & E)|(X & E)]; rewrite E;
    [exact H|].
  rewrite (map_app key), filter_app. cbn [map filter]. rewrite key_mk.
  destruct (complete k) eqn:Ek; [|now rewrite app_nil_r].
  apply NoDup_app; [exact H|repeat constructor; easy|].
  intros x Hx [E0|[]]. subst x. apply filter_In in Hx as [Hx _].
  assert (Hex : existsb (fun y => keqb y k) (map key (rows t)) = true).
  { apply existsb_exists. exists k. split; [exact Hx|now apply Hc]. }
  congruence.
Qed.

(** The keys the conflict test never matches are all inserted, in the
    order they are proposed. *)
Lemma insert_keyed_filter_free (free : K -> bool) (ks : list K) :
  (forall a b, keqb a b = true -> free b = false) ->
  forall t,
    filter free (map key (rows (fold_left (insert_keyed key keqb mk) ks t)))
    = filter free (map key (rows t)) ++ filter free ks.
Proof.
  intros Hf. induction ks as [|k ks IH]; intros t; cbn [fold_left filter].
  - now rewrite app_nil_r.
  - rewrite IH.
    destruct (insert_keyed_step t k) as [(_ & X & E)|(_ & E)]; rewrite E.
    + apply existsb_exists in X as (x & _ & Hx). now rewrite (Hf _ _ Hx).
    + rewrite (map_app key), filter_app. cbn [map filter]. rewrite key_mk.
      destruct (free k); [now rewrite <- app_assoc|now rewrite app_nil_r].
Qed.

End KeyedSound.

Lemma Permutation_filter_pred {A} (f : A -> bool) (l l' : list A) :
  Permutation l l' -> Permutation (filter f l) (filter f l').
Proof.
  induction 1 as [|x l l' _ IH|x y l|l l' l'' _ IH1 _ IH2]; cbn [filter].
  - constructor.
  - destruct (f x); [now constructor|exact IH].
  - destruct (f x), (f y); try apply Permutation_refl. apply perm_swap.
  - now apply perm_trans with (filter f l').
Qed.

(** ** Enumeration order *)

Lemma in_order_perm : forall (A : Type) (l : list A), Permutation (in_order A l) l.
Proof. intros A l. apply Permutation_refl. Qed.

Section Companies.

Variable any_order : forall A : Type, list A -> list A.
Hypothesis any_order_perm :
  forall (A : Type) (l : list A), Permutation (any_order A l) l.

Lemma in_select_distinct {A} (dec : forall x y : A, {x = y} + {x <> y})
    (l : list A) (x : A) :
  In x (select_distinct any_order dec l) <-> In x l.
Proof.
  unfold select_distinct. split; intros H.
  - apply (Permutation_in _ (any_order_perm A _)) in H.
    now apply nodup_In in H.
  - apply (Permutation_in _ (Permutation_sym (any_order_perm A _))).
    now apply nodup_In.
Qed.

Lemma select_distinct_NoDup {A} (dec : forall x y : A, {x = y} + {x <> y})
    (l : list A) :
  NoDup (select_distinct any_order dec l).
Proof.
  unfold select_distinct.
  apply (Permutation_NoDup (Permutation_sym (any_order_perm A _))).
  apply NoDup_nodup.
Qed.

(** The WHERE clause of [populate_companies] keeps the rows whose company
    name is not NULL and not blank. *)
Lemma company_where_spec (s : Staging.row) :
  Sql.holds (Sql.neq_str (Sql.trim (Staging.company_name s)) (Some "")) = true
  <-> exists name, Staging.company_name s = Some name
                   /\ Str.sql_trim name <> "".
Proof.
  destruct (Staging.company_name s) as [name|]; simpl.
  - destruct (String.eqb_spec (Str.sql_trim name) "") as [E|E]; simpl.
    + split; [discriminate|]. intros (n & H & Hn). inversion H; subst.
      contradiction.
    + split; [|reflexivity]. intros _. now exists name.
  - split; [discriminate|]. intros (n & H & _). discriminate.
Qed.

Lemma in_companies_select (stg : list Staging.row) (n : string) :
  In n (companies_select any_order stg)
  <-> exists s name,
        In s stg /\ Staging.company_name s = Some name
        /\ Str.sql_trim name <> "" /\ n = Str.sql_trim name.
Proof.
  unfold companies_select. rewrite in_select_distinct, in_map_iff. split.
  - intros (s & <- & Hs). apply filter_In in Hs as [Hs Hw].
    apply company_where_spec in Hw as (name & E & Hn).
    exists s, name. rewrite E. now repeat split.
  - intros (s & name & Hs & E & Hn & ->). exists s. split.
    + now rewrite E.
    + apply filter_In. split; [exact Hs|].
      apply company_where_spec. now exists name.
Qed.

(** C1 as the code has it, for the staging rows whose company name is not
    NULL: the name is trimmed; a name that is not blank is a company after
    the populator; a blank name is left out and gives no company, "Unknown"
    or other; and no name is there twice. *)
Theorem populate_companies_names (d : db) :
  let names d := map Company.company_name (rows (companies d)) in
  Forall
    (fun s =>
       forall name,
         Staging.company_name s = Some name ->
         (Str.sql_trim name <> ""
          -> In (Str.sql_trim name) (names (populate_companies any_order d)))
         /\ (Str.sql_trim name = ""
             -> Sql.holds
                  (Sql.neq_str (Sql.trim (Staging.company_name s)) (Some ""))
                = false))
    (staging_jobs d)
  /\ (Forall (fun s => Staging.company_name s <> None) (staging_jobs d) ->
      Forall
        (fun n =>
           In n (names d)
           \/ (n <> ""
               /\ exists s name,
                    In s (staging_jobs d)
                    /\ Staging.company_name s = Some name
                    /\ n = Str.sql_trim name))
        (names (populate_companies any_order d)))
  /\ (NoDup (names d) -> NoDup (names (populate_companies any_order d))).
Proof.
  intros names. unfold names, populate_companies. simpl companies.
  change insert_company
    with (insert_keyed Company.company_name String.eqb Company.mk).
  split; [|split].
  - apply Forall_forall. intros s Hs name E. split.
    + intros Hn.
      apply (insert_keyed_in Company.company_name String.eqb Company.mk
               String.eqb_eq (fun _ _ => eq_refl)).
      right. apply in_companies_select. now exists s, name.
    + intros Hn. rewrite E. simpl. now rewrite Hn.
  - intros _. apply Forall_forall. intros n Hn.
    apply (insert_keyed_in Company.company_name String.eqb Company.mk
               String.eqb_eq (fun _ _ => eq_refl)) in Hn.
    destruct Hn as [Hn|Hn]; [now left|right].
    apply in_companies_select in Hn as (s & name & Hs & E & Hne & ->).
    split; [exact Hne|]. now exists s, name.
  - apply (insert_keyed_NoDup Company.company_name String.eqb Company.mk
             String.eqb_eq (fun _ _ => eq_refl)).
Qed.

End Companies.

(** C1, at a concrete store: " Acme " becomes the company "Acme". *)
Lemma populate_companies_names_witness :
  In "Acme"
     (map Company.company_name
        (rows (companies
           (populate_companies in_order
              (fresh_db
                 [staging_row 1 (Some "Data Engineer") None (Some " Acme ")
                    None None None None None]))))).
Proof.
  pose proof
    (proj1 (populate_companies_names in_order in_order_perm
              (fresh_db
                 [staging_row 1 (Some "Data Engineer") None (Some " Acme ")
                    None None None None None]))) as H.
  apply Forall_inv in H. destruct (H " Acme " eq_refl) as [H1 _].
  apply H1. vm_compute. discriminate.
Defined.

(** C1 as stated fails: a staging table whose only row has a blank company
    name gives no company at all, so none named "Unknown". *)
Lemma populate_companies_blank_no_unknown :
  let d := fresh_db [staging_row 1 (Some "Data Engineer") None (Some "  ")
                       None None None None None] in
  rows (companies (populate_companies in_order d)) = []
  /\ ~ In "Unknown"
        (map Company.company_name
           (rows (companies (populate_companies in_order d)))).
Proof. split; [reflexivity|]. simpl. tauto. Qed.

(** The same happens to a NULL company name: TRIM(NULL) != '' is unknown,
    the WHERE clause drops the row, and the COALESCE of the SELECT list is
    never reached. *)
Lemma populate_companies_null_no_unknown :
  let d := fresh_db [staging_row 1 (Some "Data Engineer") None None
                       None None None None None] in
  rows (companies (populate_companies in_order d)) = [].
Proof. reflexivity. Qed.

(** ** The stages on concrete staging tables *)

(** C2, the failing input: a posting with a NULL title and the title-short
    "Data Engineer" becomes a job titled "Data Engineer"; its skill
    "python" is a skill row; the bridge join compares the stored title with
    the NULL staging title, matches nothing, and the job gets no bridge
    row. *)
Lemma job_with_coalesced_title_gets_no_skills :
  let d := run_transformation in_order
             (fresh_db
                [staging_row 1 None (Some "Data Engineer") (Some "Acme")
                   None None (Some 5%Z) (Some ["python"]) None]) in
  map (fun j => (Job.job_id j, Job.job_title (Job.cols j))) (rows (jobs d))
  = [(1%Z, Some "Data Engineer")]
  /\ map (fun s => (Skill.skill_id s, Skill.skill_name s)) (rows (skills d))
     = [(1%Z, "python")]
  /\ job_skills d = [].
Proof. vm_compute. repeat split. Qed.

(** The same posting with its title present gets its bridge row. *)
Lemma job_with_title_gets_skills :
  let d := run_transformation in_order
             (fresh_db
                [staging_row 1 (Some "Data Engineer") None (Some "Acme")
                   None None (Some 5%Z) (Some ["python"]) None]) in
  job_skills d = [JobSkill.mk 1 1].
Proof. vm_compute. reflexivity. Qed.

(** C3 as stated fails for the bridge populator: the skill list
    ["python"; "Python"] gives two rows of the SELECT for the same (job,
    skill) pair, the precomputed total is 2, and the only batch reports the
    one row it inserted. *)
Lemma bridge_reports_less_than_total :
  bridge_total_rows repeated_skill_db = 2
  /\ bridge_select repeated_skill_db = [(1%Z, 1%Z); (1%Z, 1%Z)]
  /\ snd (populate_job_skills_reporting repeated_skill_db) = [1]
  /\ list_sum (snd (populate_job_skills_reporting repeated_skill_db))
     <> bridge_total_rows repeated_skill_db.
Proof. vm_compute. repeat split. discriminate. Qed.

(** The fact populator on two postings whose location is NULL in one and
    the text "Unknown" in the other: both location rows have the country
    and the full location of both postings, each posting joins to both, and
    the only batch inserts four jobs where the total is 2. *)
Lemma jobs_join_fans_out_on_locations :
  let d := populate_dimensions in_order
             (delete_previous_info
                (fresh_db
                   [staging_row 1 (Some "Data Engineer") None (Some "Acme")
                      None (Some "X") None None None;
                    staging_row 2 (Some "Data Analyst") None (Some "Acme")
                      (Some "Unknown") (Some "X") None None None])) in
  jobs_total_rows d = 2
  /\ snd (populate_jobs_reporting d) = [4]
  /\ map (fun j => Job.job_title (Job.cols j)) (rows (jobs (populate_jobs d)))
     = [Some "Data Engineer"; Some "Data Engineer";
        Some "Data Analyst"; Some "Data Analyst"].
Proof. vm_compute. repeat split. Qed.

(** C6, at a concrete store: the bridge table has no repeated pair although
    the SELECT has one. *)
Lemma populate_job_skills_unique_witness :
  NoDup (map pair_of (job_skills (populate_job_skills repeated_skill_db))).
Proof.
  apply populate_job_skills_unique. vm_compute. constructor.
Defined.

(** ** The skill taxonomy builder *)

Lemma Permutation_3_inv {A} (a b c : A) (l : list A) :
  Permutation [a; b; c] l ->
  l = [a; b; c] \/ l = [a; c; b] \/ l = [b; a; c]
  \/ l = [b; c; a] \/ l = [c; a; b] \/ l = [c; b; a].
Proof.
  intros H. pose proof (Permutation_length H) as Hl.
  destruct l as [|x [|y [|z [|? ?]]]]; try discriminate. clear Hl.
  assert (Hx : In x [a; b; c])
    by (apply (Permutation_in _ (Permutation_sym H)); now left).
  destruct Hx as [<-|[<-|[<-|[]]]].
  - apply Permutation_cons_inv, Permutation_length_2_inv in H.
    destruct H as [H|H]; inversion H; subst; auto.
  - assert (H' : Permutation (b :: [a; c]) (b :: [y; z])).
    { rewrite <- H. apply perm_swap. }
    apply Permutation_cons_inv, Permutation_length_2_inv in H'.
    destruct H' as [H'|H']; inversion H'; subst; auto 6.
  - assert (H' : Permutation (c :: [a; b]) (c :: [y; z])).
    { rewrite <- H.
      apply perm_trans with (l' := [a; c; b]);
        [apply perm_swap|apply perm_skip, perm_swap]. }
    apply Permutation_cons_inv, Permutation_length_2_inv in H'.
    destruct H' as [H'|H']; inversion H'; subst; auto 7.
Qed.

Section SkillScenario.

Variable any_order : forall A : Type, list A -> list A.
Hypothesis any_order_perm :
  forall (A : Type) (l : list A), Permutation (any_order A l) l.

Lemma any_order_1 {A} (x : A) : any_order A [x] = [x].
Proof.
  apply Permutation_length_1_inv, Permutation_sym, any_order_perm.
Qed.

(** The scenario on its own: the staging table has one row, with
    typed-skills {"programming": ["Python", "SQL"]} and the flat list
    ["python", "sql", "aws"], and the two skill tables are empty, as the
    purge leaves them.  After the builder there is one category,
    "programming", and three skills: "python" and "sql" with its id, "aws"
    with a NULL category; in whatever order the store and the Python sets
    enumerate. *)
Lemma skill_taxonomy_single_row (d : db) (r : Staging.row) :
  staging_jobs d = [r] ->
  Staging.job_type_skills r
  = Some (JDict [("programming", SkillList [Some "Python"; Some "SQL"])]) ->
  Staging.job_skills r = Some ["python"; "sql"; "aws"] ->
  rows (skill_categories d) = [] ->
  rows (skills d) = [] ->
  let d' := populate_skill_categories_and_skills any_order d in
  let view := map (fun s => (Skill.skill_name s, Skill.category_id s))
                  (rows (skills d')) in
  exists cid,
    rows (skill_categories d') = [SkillCategory.mk cid "programming"]
    /\ In ("python", Some cid) view
    /\ In ("sql", Some cid) view
    /\ In ("aws", None) view
    /\ List.length view = 3.
Proof.
  intros Hstg Htyped Hflat Hcats Hskills d' view.
  subst view d'. unfold populate_skill_categories_and_skills.
  cbn [skills skill_categories with_skills with_skill_categories].
  unfold type_skills_select, flat_skills_select, select_distinct.
  rewrite Hstg. cbn [flat_map]. rewrite Htyped, Hflat, !app_nil_r.
  cbn [unnest].
  change (nodup jsonb_dec
            [JDict [("programming", SkillList [Some "Python"; Some "SQL"])]])
    with [JDict [("programming", SkillList [Some "Python"; Some "SQL"])]].
  change (nodup string_dec ["python"; "sql"; "aws"])
    with ["python"; "sql"; "aws"].
  rewrite any_order_1.
  change (fold_left extract_row
            [JDict [("programming", SkillList [Some "Python"; Some "SQL"])]]
            (mkExtracted [] []))
    with (mkExtracted ["programming"] [("programming", ["python"; "sql"])]).
  cbn [all_categories skills_by_category]. rewrite any_order_1.
  destruct (skill_categories d) as [crows cnext].
  destruct (skills d) as [srows snext].
  simpl in Hcats, Hskills. subst crows srows.
  exists cnext. cbn [fold_left fst snd].
  pose proof (any_order_perm string ["python"; "sql"]) as H2.
  apply Permutation_sym, Permutation_length_2_inv in H2.
  pose proof (any_order_perm string ["python"; "sql"; "aws"]) as H3.
  apply Permutation_sym, Permutation_3_inv in H3.
  destruct H2 as [-> | ->];
    destruct H3 as [-> | [-> | [-> | [-> | [-> | ->]]]]];
    vm_compute; repeat split; auto 6.
Qed.

End SkillScenario.

(** ** Running the transformation twice *)

Lemma insert_do_nothing_ext {R} (f g : R -> bool) (mkrow : Z -> R)
    (t : table R) :
  (forall r, f r = g r) ->
  insert_do_nothing f mkrow t = insert_do_nothing g mkrow t.
Proof.
  intros H. unfold insert_do_nothing.
  assert (E : existsb f (rows t) = existsb g (rows t)).
  { induction (rows t) as [|r l IH]; simpl; [reflexivity|].
    now rewrite H, IH. }
  now rewrite E.
Qed.

Lemma location_key_eqb_spec a b :
  location_key_eqb a b = true
  <-> a = b /\ location_key_complete a = true.
Proof.
  destruct a as [[[a1 a2] a3] a4], b as [[[b1 b2] b3] b4].
  unfold location_key_eqb, location_key_complete. cbn [fst snd].
  destruct a1 as [a1|], b1 as [b1|], a2 as [a2|], b2 as [b2|]; cbn;
    repeat match goal with
           | |- context [String.eqb ?x ?y] =>
               destruct (String.eqb_spec x y)
           end;
    cbn; subst;
    (split;
     [try discriminate; intros _; now split
     |intros [H H']; try discriminate H'; try reflexivity; congruence]).
Qed.

Lemma location_key_eqb_sound a b : location_key_eqb a b = true -> a = b.
Proof. intros H. now apply location_key_eqb_spec in H. Qed.

Lemma location_key_eqb_refl k :
  location_key_complete k = true -> location_key_eqb k k = true.
Proof. intros H. now apply location_key_eqb_spec. Qed.

Lemma location_key_mk i k : location_key (location_of_key i k) = k.
Proof. now destruct k as [[[a b] c] e]. Qed.

Lemma insert_location_keyed (t : table Location.row)
    (p : option string * option string) :
  insert_location t p
  = insert_keyed location_key location_key_eqb location_of_key t
      (proposed_location_key p).
Proof.
  unfold insert_location, insert_keyed. apply insert_do_nothing_ext.
  intros r. unfold same_location, location_key_eqb, proposed_location_key,
    location_key. cbn [fst snd Location.main_city
    Location.main_state_province Location.country Location.full_location].
  rewrite (String.eqb_sym (Location.country r)),
          (String.eqb_sym (Location.full_location r)).
  destruct (city _) as [c|], (Location.main_city r) as [c'|]; cbn;
    try reflexivity;
    try rewrite (String.eqb_sym c' c);
    destruct (state_province _) as [q|],
             (Location.main_state_province r) as [q'|]; cbn;
    try reflexivity;
    try rewrite (String.eqb_sym q' q); reflexivity.
Qed.

Lemma fold_insert_location (ps : list (option string * option string)) :
  forall t,
    fold_left insert_location ps t
    = fold_left (insert_keyed location_key location_key_eqb location_of_key)
        (map proposed_location_key ps) t.
Proof.
  induction ps as [|p ps IH]; intros t; simpl; [reflexivity|].
  now rewrite insert_location_keyed, IH.
Qed.

Section KeyedIds.

Context {R K : Type} (key : R -> K) (keqb : K -> K -> bool) (mk : Z -> K -> R).
Variable idf : R -> Z.
Hypothesis idf_mk : forall i k, idf (mk i k) = i.

Lemma insert_keyed_ids_fresh (t : table R) (k : K) :
  ids_fresh idf t -> ids_fresh idf (insert_keyed key keqb mk t k).
Proof.
  intros [Hlt Hnd]. unfold insert_keyed, insert_do_nothing.
  destruct (existsb _ _); unfold ids_fresh; simpl.
  - split; [|exact Hnd]. eapply Forall_impl; [|exact Hlt].
    intros r Hr. simpl in Hr. lia.
  - split.
    + apply Forall_app. split.
      * eapply Forall_impl; [|exact Hlt]. intros r Hr. simpl in Hr. lia.
      * constructor; [|constructor]. rewrite idf_mk. lia.
    + rewrite map_app. simpl. rewrite idf_mk.
      apply NoDup_app; [exact Hnd|repeat constructor; easy|].
      intros i Hi [<-|[]]. apply in_map_iff in Hi as (r & E & Hr).
      rewrite Forall_forall in Hlt. specialize (Hlt r Hr). lia.
Qed.

Lemma fold_insert_keyed_ids_fresh (ks : list K) :
  forall t,
    ids_fresh idf t ->
    ids_fresh idf (fold_left (insert_keyed key keqb mk) ks t).
Proof.
  induction ks as [|k ks IH]; intros t H; simpl; [exact H|].
  apply IH. now apply insert_keyed_ids_fresh.
Qed.

Lemma ids_fresh_empty (n : Z) : ids_fresh idf (mkTable [] n).
Proof. split; constructor. Qed.

End KeyedIds.

(** [category_map.get(cat)] is the id of a row named [cat], if there is
    one. *)
Lemma category_map_get_spec (cats : list SkillCategory.row) (cat : string) :
  match category_map_get cats cat with
  | Some i => exists r, In r cats /\ SkillCategory.category_id r = i
                        /\ SkillCategory.category_name r = cat
  | None => ~ In cat (map SkillCategory.category_name cats)
  end.
Proof.
  unfold category_map_get.
  induction cats as [|r cats IH] using rev_ind; simpl; [tauto|].
  rewrite fold_left_app. simpl.
  destruct (String.eqb_spec (SkillCategory.category_name r) cat) as [E|E].
  - exists r. split; [apply in_or_app; right; now left|now split].
  - destruct (fold_left _ cats None) as [i|].
    + destruct IH as (r' & H1 & H2 & H3). exists r'.
      split; [apply in_or_app; now left|now split].
    + rewrite map_app, in_app_iff. simpl. tauto.
Qed.

Lemma find_by_id (cats : list SkillCategory.row) (r : SkillCategory.row) :
  NoDup (map SkillCategory.category_id cats) -> In r cats ->
  find (fun c => (SkillCategory.category_id c
                  =? SkillCategory.category_id r)%Z) cats = Some r.
Proof.
  induction cats as [|c cats IH]; intros Hnd Hin; [contradiction|].
  simpl in Hnd. inversion Hnd as [|? ? Hc Hrest]; subst. simpl.
  destruct Hin as [->|Hin].
  - now rewrite Z.eqb_refl.
  - destruct (Z.eqb_spec (SkillCategory.category_id c)
                         (SkillCategory.category_id r)) as [E|E].
    + exfalso. apply Hc. rewrite E. now apply in_map.
    + now apply IH.
Qed.

(** A skill inserted under a category refers to it by name, whatever id the
    category has. *)
Lemma category_lookup (cats : list SkillCategory.row) (cat : string) :
  NoDup (map SkillCategory.category_id cats) ->
  category_name_of cats (category_map_get cats cat)
  = if in_dec string_dec cat (map SkillCategory.category_name cats)
    then Some cat else None.
Proof.
  intros Hnd. pose proof (category_map_get_spec cats cat) as H.
  destruct (category_map_get cats cat) as [i|].
  - destruct H as (r & Hr & <- & <-). simpl.
    rewrite (find_by_id cats r Hnd Hr). simpl.
    destruct (in_dec _ _ _) as [_|Hn]; [reflexivity|].
    exfalso. apply Hn. now apply in_map.
  - simpl. now destruct (in_dec _ _ _).
Qed.

Lemma existsb_skill_name (n : string) (l : list Skill.row) :
  existsb (fun r => String.eqb (Skill.skill_name r) n) l
  = existsb (fun x => String.eqb x n) (map Skill.skill_name l).
Proof.
  induction l as [|r l IH]; simpl; [reflexivity|]. now rewrite IH.
Qed.

Lemma skill_view_names cats1 cats2 (l1 l2 : list Skill.row) :
  map (skill_key cats1) l1 = map (skill_key cats2) l2 ->
  map Skill.skill_name l1 = map Skill.skill_name l2.
Proof.
  intros H. apply (f_equal (map fst)) in H.
  now rewrite !map_map in H.
Qed.

(** One INSERT into skills on two stores whose skills agree by name and
    category name. *)
Lemma insert_skill_view cats1 cats2 (c1 c2 : option Z)
    (t1 t2 : table Skill.row) (name : string) :
  map (skill_key cats1) (rows t1) = map (skill_key cats2) (rows t2) ->
  category_name_of cats1 c1 = category_name_of cats2 c2 ->
  map (skill_key cats1) (rows (insert_skill c1 t1 name))
  = map (skill_key cats2) (rows (insert_skill c2 t2 name)).
Proof.
  intros Hv Hc. unfold insert_skill, insert_do_nothing.
  rewrite !existsb_skill_name, (skill_view_names _ _ _ _ Hv).
  destruct (existsb _ _); simpl; [exact Hv|].
  rewrite !map_app, Hv. simpl. unfold skill_key at 2 4. simpl.
  now rewrite Hc.
Qed.

Lemma fold_insert_skill_view cats1 cats2 (c1 c2 : option Z)
    (names : list string) :
  category_name_of cats1 c1 = category_name_of cats2 c2 ->
  forall t1 t2,
    map (skill_key cats1) (rows t1) = map (skill_key cats2) (rows t2) ->
    map (skill_key cats1) (rows (fold_left (insert_skill c1) names t1))
    = map (skill_key cats2) (rows (fold_left (insert_skill c2) names t2)).
Proof.
  intros Hc. induction names as [|n names IH]; intros t1 t2 Hv; simpl;
    [exact Hv|].
  apply IH. now apply insert_skill_view.
Qed.

Lemma empty_table_fresh {R} (idf : R -> Z) (t : table R) :
  rows t = [] -> ids_fresh idf t.
Proof. intros H. unfold ids_fresh. rewrite H. split; constructor. Qed.

Section Twice.

Variable any_order : forall A : Type, list A -> list A.

(** The skill tables the builder leaves, told by name, depend on the
    staging table alone when they start empty. *)
Lemma skill_builder_view (e1 e2 : db) :
  staging_jobs e1 = staging_jobs e2 ->
  rows (skill_categories e1) = [] -> rows (skill_categories e2) = [] ->
  rows (skills e1) = [] -> rows (skills e2) = [] ->
  category_names (populate_skill_categories_and_skills any_order e1)
  = category_names (populate_skill_categories_and_skills any_order e2)
  /\ skill_view (populate_skill_categories_and_skills any_order e1)
     = skill_view (populate_skill_categories_and_skills any_order e2).
Proof.
  intros Hstg Hc1 Hc2 Hs1 Hs2.
  unfold category_names, skill_view, populate_skill_categories_and_skills.
  cbn [skills skill_categories with_skills with_skill_categories].
  rewrite Hstg.
  set (ex := fold_left extract_row
               (type_skills_select any_order (staging_jobs e2))
               (mkExtracted [] [])).
  set (cs := any_order string (all_categories ex)).
  change insert_category
    with (insert_keyed SkillCategory.category_name String.eqb
            SkillCategory.mk).
  set (cats1 := fold_left _ cs (skill_categories e1)).
  set (cats2 := fold_left _ cs (skill_categories e2)).
  assert (Hnames : map SkillCategory.category_name (rows cats1)
                   = map SkillCategory.category_name (rows cats2)).
  { apply (insert_keyed_keys_eq SkillCategory.category_name String.eqb
             SkillCategory.mk String.eqb_eq (fun _ _ => eq_refl)).
    now rewrite Hc1, Hc2. }
  assert (Hid1 : NoDup (map SkillCategory.category_id (rows cats1))).
  { apply (fold_insert_keyed_ids_fresh SkillCategory.category_name String.eqb
             SkillCategory.mk SkillCategory.category_id
             (fun _ _ => eq_refl)).
    now apply empty_table_fresh. }
  assert (Hid2 : NoDup (map SkillCategory.category_id (rows cats2))).
  { apply (fold_insert_keyed_ids_fresh SkillCategory.category_name String.eqb
             SkillCategory.mk SkillCategory.category_id
             (fun _ _ => eq_refl)).
    now apply empty_table_fresh. }
  assert (Hlook : forall cat,
             category_name_of (rows cats1) (category_map_get (rows cats1) cat)
             = category_name_of (rows cats2)
                 (category_map_get (rows cats2) cat)).
  { intros cat. now rewrite !category_lookup, Hnames by assumption. }
  split; [exact Hnames|].
  clearbody cats1 cats2 cs.
  assert (Hstart : map (skill_key (rows cats1)) (rows (skills e1))
                   = map (skill_key (rows cats2)) (rows (skills e2)))
    by now rewrite Hs1, Hs2.
  revert Hstart. generalize (skills e1) (skills e2).
  induction (skills_by_category ex) as [|item items IH]; intros t1 t2 Hv;
    cbn [fold_left].
  - revert t1 t2 Hv.
    induction (flat_skills_select any_order (staging_jobs e2))
      as [|row flat IHf]; intros t1 t2 Hv; cbn [fold_left]; [exact Hv|].
    apply IHf. now apply insert_skill_view.
  - apply IH. now apply fold_insert_skill_view.
Qed.

End Twice.

Section TwiceDimensions.

Variable any_order : forall A : Type, list A -> list A.

(** The dimension tables [populate_dimensions] leaves, told by their
    natural keys, depend on the staging table alone when they start
    empty. *)
Lemma populate_dimensions_view (e1 e2 : db) :
  staging_jobs e1 = staging_jobs e2 ->
  rows (companies e1) = [] -> rows (companies e2) = [] ->
  rows (locations e1) = [] -> rows (locations e2) = [] ->
  rows (platforms e1) = [] -> rows (platforms e2) = [] ->
  rows (schedule_types e1) = [] -> rows (schedule_types e2) = [] ->
  rows (skill_categories e1) = [] -> rows (skill_categories e2) = [] ->
  rows (skills e1) = [] -> rows (skills e2) = [] ->
  dimensions_view (populate_dimensions any_order e1)
  = dimensions_view (populate_dimensions any_order e2).
Proof.
  intros Hstg Hc1 Hc2 Hl1 Hl2 Hp1 Hp2 Hs1 Hs2 Hk1 Hk2 Hsk1 Hsk2.
  assert (Hco : company_names (populate_dimensions any_order e1)
                = company_names (populate_dimensions any_order e2)).
  { change (map Company.company_name
              (rows (fold_left
                       (insert_keyed Company.company_name String.eqb
                          Company.mk)
                       (companies_select any_order (staging_jobs e1))
                       (companies e1)))
            = map Company.company_name
                (rows (fold_left
                         (insert_keyed Company.company_name String.eqb
                            Company.mk)
                         (companies_select any_order (staging_jobs e2))
                         (companies e2)))).
    rewrite Hstg.
    apply (insert_keyed_keys_eq Company.company_name String.eqb Company.mk
             String.eqb_eq (fun _ _ => eq_refl)).
    now rewrite Hc1, Hc2. }
  assert (Hlo : location_keys (populate_dimensions any_order e1)
                = location_keys (populate_dimensions any_order e2)).
  { change (map location_key
              (rows (fold_left insert_location
                       (locations_select any_order (staging_jobs e1))
                       (locations e1)))
            = map location_key
                (rows (fold_left insert_location
                         (locations_select any_order (staging_jobs e2))
                         (locations e2)))).
    rewrite Hstg, !fold_insert_location.
    apply (insert_keyed_keys_same location_key location_key_eqb
             location_of_key location_key_eqb_sound location_key_mk).
    now rewrite Hl1, Hl2. }
  assert (Hpl : platform_names (populate_dimensions any_order e1)
                = platform_names (populate_dimensions any_order e2)).
  { change (map Platform.platform_name
              (rows (fold_left
                       (insert_keyed Platform.platform_name String.eqb
                          Platform.mk)
                       (platforms_select any_order (staging_jobs e1))
                       (platforms e1)))
            = map Platform.platform_name
                (rows (fold_left
                         (insert_keyed Platform.platform_name String.eqb
                            Platform.mk)
                         (platforms_select any_order (staging_jobs e2))
                         (platforms e2)))).
    rewrite Hstg.
    apply (insert_keyed_keys_eq Platform.platform_name String.eqb Platform.mk
             String.eqb_eq (fun _ _ => eq_refl)).
    now rewrite Hp1, Hp2. }
  assert (Hst : schedule_type_names (populate_dimensions any_order e1)
                = schedule_type_names (populate_dimensions any_order e2)).
  { change (map ScheduleType.schedule_type_name
              (rows (fold_left
                       (insert_keyed ScheduleType.schedule_type_name
                          String.eqb ScheduleType.mk)
                       (schedule_types_select any_order (staging_jobs e1))
                       (schedule_types e1)))
            = map ScheduleType.schedule_type_name
                (rows (fold_left
                         (insert_keyed ScheduleType.schedule_type_name
                            String.eqb ScheduleType.mk)
                         (schedule_types_select any_order (staging_jobs e2))
                         (schedule_types e2)))).
    rewrite Hstg.
    apply (insert_keyed_keys_eq ScheduleType.schedule_type_name String.eqb
             ScheduleType.mk String.eqb_eq (fun _ _ => eq_refl)).
    now rewrite Hs1, Hs2. }
  assert (Hsk : category_names (populate_dimensions any_order e1)
                = category_names (populate_dimensions any_order e2)
                /\ skill_view (populate_dimensions any_order e1)
                   = skill_view (populate_dimensions any_order e2)).
  { unfold populate_dimensions.
    set (d1 := populate_schedule_types any_order
                 (populate_platforms any_order
                    (populate_locations any_order
                       (populate_companies any_order e1)))).
    set (d2 := populate_schedule_types any_order
                 (populate_platforms any_order
                    (populate_locations any_order
                       (populate_companies any_order e2)))).
    assert (H1 : staging_jobs d1 = staging_jobs d2) by exact Hstg.
    assert (H2 : rows (skill_categories d1) = []) by exact Hk1.
    assert (H3 : rows (skill_categories d2) = []) by exact Hk2.
    assert (H4 : rows (skills d1) = []) by exact Hsk1.
    assert (H5 : rows (skills d2) = []) by exact Hsk2.
    clearbody d1 d2.
    exact (skill_builder_view any_order d1 d2 H1 H2 H3 H4 H5). }
  destruct Hsk as [Hcat Hview].
  unfold dimensions_view.
  now rewrite Hco, Hlo, Hpl, Hst, Hcat, Hview.
Qed.

End TwiceDimensions.

Lemma insert_skill_names_NoDup (c : option Z) (t : table Skill.row)
    (n : string) :
  NoDup (map Skill.skill_name (rows t)) ->
  NoDup (map Skill.skill_name (rows (insert_skill c t n))).
Proof.
  apply (insert_keyed_NoDup Skill.skill_name String.eqb
           (fun i k => Skill.mk i k c) String.eqb_eq (fun _ _ => eq_refl)
           [n] t).
Qed.

Section TwiceRun.

Variable any_order : forall A : Type, list A -> list A.

Lemma skill_builder_names_NoDup (e : db) :
  NoDup (map Skill.skill_name (rows (skills e))) ->
  NoDup (map Skill.skill_name
           (rows (skills (populate_skill_categories_and_skills any_order e)))).
Proof.
  unfold populate_skill_categories_and_skills.
  cbn [skills with_skills].
  generalize (skills e).
  generalize (category_map_get
                (rows (fold_left insert_category
                         (any_order string
                            (all_categories
                               (fold_left extract_row
                                  (type_skills_select any_order
                                     (staging_jobs e))
                                  (mkExtracted [] []))))
                         (skill_categories e)))).
  intros cmap.
  induction (skills_by_category _) as [|item items IH]; intros t Hnd;
    cbn [fold_left].
  - revert t Hnd.
    induction (flat_skills_select any_order (staging_jobs e))
      as [|row flat IHf]; intros t Hnd; cbn [fold_left]; [exact Hnd|].
    apply IHf. now apply insert_skill_names_NoDup.
  - apply IH. revert t Hnd.
    induction (any_order string (snd item)) as [|n names IHn];
      intros t Hnd; cbn [fold_left]; [exact Hnd|].
    apply IHn. now apply insert_skill_names_NoDup.
Qed.

(** After a purge and the dimension stage no natural key is there twice,
    the location 4-tuples with a NULL city or state/province apart. *)
Lemma populate_dimensions_NoDup (x : db) :
  let e := populate_dimensions any_order (delete_previous_info x) in
  NoDup (company_names e)
  /\ NoDup (filter location_key_complete (location_keys e))
  /\ NoDup (platform_names e) /\ NoDup (schedule_type_names e)
  /\ NoDup (category_names e) /\ NoDup (map fst (skill_view e)).
Proof.
  intros e. subst e. repeat split.
  - apply (insert_keyed_NoDup Company.company_name String.eqb Company.mk
             String.eqb_eq (fun _ _ => eq_refl)). constructor.
  - unfold location_keys.
    change (locations (populate_dimensions any_order (delete_previous_info x)))
      with (fold_left insert_location
              (locations_select any_order (staging_jobs x))
              (delete_all (locations x))).
    rewrite fold_insert_location.
    apply (insert_keyed_NoDup_where location_key location_key_eqb
             location_of_key location_key_eqb_sound location_key_mk
             location_key_complete _ location_key_eqb_refl).
    constructor.
  - apply (insert_keyed_NoDup Platform.platform_name String.eqb Platform.mk
             String.eqb_eq (fun _ _ => eq_refl)). constructor.
  - apply (insert_keyed_NoDup ScheduleType.schedule_type_name String.eqb
             ScheduleType.mk String.eqb_eq (fun _ _ => eq_refl)).
    constructor.
  - apply (insert_keyed_NoDup SkillCategory.category_name String.eqb
             SkillCategory.mk String.eqb_eq (fun _ _ => eq_refl)).
    constructor.
  - unfold skill_view. rewrite map_map. cbn [skill_key fst].
    unfold populate_dimensions.
    apply skill_builder_names_NoDup. constructor.
Qed.

Lemma run_dimensions_view (x : db) :
  dimensions_view (run_transformation any_order x)
  = dimensions_view (populate_dimensions any_order (delete_previous_info x)).
Proof.
  unfold run_transformation.
  generalize (populate_dimensions any_order (delete_previous_info x)).
  intros d1. now rewrite populate_job_skills_with, populate_jobs_with.
Qed.

(** *** The ids a run gives *)

Lemma insert_do_nothing_ids_from {R : Type} (idf : R -> Z)
    (f : R -> bool) (mkrow : Z -> R) (lo : Z) (t : table R) :
  (forall i, idf (mkrow i) = i) ->
  ids_from idf lo t -> ids_from idf lo (insert_do_nothing f mkrow t).
Proof.
  intros Hmk [Hlo Hall]. unfold insert_do_nothing, ids_from.
  destruct (existsb f (rows t)); cbn [rows next_id].
  - split; [lia|]. eapply Forall_impl; [|exact Hall]. cbv beta. intros r. lia.
  - split; [lia|]. apply Forall_app. split.
    + eapply Forall_impl; [|exact Hall]. cbv beta. intros r. lia.
    + constructor; [|constructor]. rewrite Hmk. lia.
Qed.

Lemma fold_ids_from {R A : Type} (idf : R -> Z) (lo : Z)
    (ins : table R -> A -> table R) (ks : list A) :
  (forall t k, ids_from idf lo t -> ids_from idf lo (ins t k)) ->
  forall t, ids_from idf lo t -> ids_from idf lo (fold_left ins ks t).
Proof.
  intros Hins. induction ks as [|k ks IH]; intros t H; cbn [fold_left];
    [exact H|].
  apply IH. now apply Hins.
Qed.

Lemma delete_all_ids_from {R : Type} (idf : R -> Z) (t : table R) :
  ids_from idf (next_id t) (delete_all t).
Proof. split; [apply Z.le_refl|constructor]. Qed.

Lemma insert_jobs_ids_from (lo : Z) (w : list Job.values) :
  forall t, ids_from Job.job_id lo t
            -> ids_from Job.job_id lo (insert_jobs w t).
Proof.
  unfold insert_jobs. apply fold_ids_from.
  intros t v [Hlo Hall]. unfold ids_from. cbn [rows next_id]. split; [lia|].
  apply Forall_app. split.
  - eapply Forall_impl; [|exact Hall]. cbv beta. intros r. lia.
  - constructor; [|constructor]. cbn. lia.
Qed.

(** Ids given from the generator's value on are not ids given before. *)
Lemma ids_from_new {R : Type} (idf : R -> Z) (lo : Z)
    (before after : table R) :
  ids_from idf lo before ->
  ids_from idf (next_id before) after ->
  ids_new idf before after.
Proof.
  intros [_ Hb] [_ Ha]. unfold ids_new.
  eapply Forall_impl; [|exact Ha]. cbv beta. intros r Hr Hin.
  apply in_map_iff in Hin as (r' & E & Hr').
  rewrite Forall_forall in Hb. specialize (Hb r' Hr'). lia.
Qed.

Lemma builder_ids_from (lo1 lo2 : Z) (e : db) :
  ids_from SkillCategory.category_id lo1 (skill_categories e) ->
  ids_from Skill.skill_id lo2 (skills e) ->
  ids_from SkillCategory.category_id lo1
    (skill_categories (populate_skill_categories_and_skills any_order e))
  /\ ids_from Skill.skill_id lo2
       (skills (populate_skill_categories_and_skills any_order e)).
Proof.
  intros Hc Hs. unfold populate_skill_categories_and_skills.
  cbn [skills skill_categories with_skills with_skill_categories].
  assert (Hskill : forall c t n,
            ids_from Skill.skill_id lo2 t ->
            ids_from Skill.skill_id lo2 (insert_skill c t n)).
  { intros c t n H. unfold insert_skill.
    apply insert_do_nothing_ids_from; [reflexivity|exact H]. }
  split.
  - apply fold_ids_from; [|exact Hc].
    intros t k H. unfold insert_category.
    apply insert_do_nothing_ids_from; [reflexivity|exact H].
  - apply fold_ids_from.
    + intros t row H. now apply Hskill.
    + apply fold_ids_from; [|exact Hs].
      intros t item H. apply fold_ids_from; [|exact H].
      intros t' n H'. now apply Hskill.
Qed.

(** Every table a run fills holds ids its generator gave during the run:
    not below the value the generator had before it. *)
Lemma run_ids_from (x : db) :
  let r := run_transformation any_order x in
  ids_from Company.company_id (next_id (companies x)) (companies r)
  /\ ids_from Location.location_id (next_id (locations x)) (locations r)
  /\ ids_from Platform.platform_id (next_id (platforms x)) (platforms r)
  /\ ids_from ScheduleType.schedule_type_id (next_id (schedule_types x))
       (schedule_types r)
  /\ ids_from SkillCategory.category_id (next_id (skill_categories x))
       (skill_categories r)
  /\ ids_from Skill.skill_id (next_id (skills x)) (skills r)
  /\ ids_from Job.job_id (next_id (jobs x)) (jobs r).
Proof.
  intros r. subst r. unfold run_transformation.
  set (e0 := delete_previous_info x).
  assert (H1 : ids_from Company.company_id (next_id (companies x))
                 (companies e0)) by apply delete_all_ids_from.
  assert (H2 : ids_from Location.location_id (next_id (locations x))
                 (locations e0)) by apply delete_all_ids_from.
  assert (H3 : ids_from Platform.platform_id (next_id (platforms x))
                 (platforms e0)) by apply delete_all_ids_from.
  assert (H4 : ids_from ScheduleType.schedule_type_id
                 (next_id (schedule_types x)) (schedule_types e0))
    by apply delete_all_ids_from.
  assert (H5 : ids_from SkillCategory.category_id
                 (next_id (skill_categories x)) (skill_categories e0))
    by apply delete_all_ids_from.
  assert (H6 : ids_from Skill.skill_id (next_id (skills x)) (skills e0))
    by apply delete_all_ids_from.
  assert (H7 : ids_from Job.job_id (next_id (jobs x)) (jobs e0))
    by apply delete_all_ids_from.
  clearbody e0.
  destruct (populate_dimensions_tables any_order e0) as (T1 & T2 & T3 & T4).
  assert (T5 : ids_from SkillCategory.category_id
                 (next_id (skill_categories x))
                 (skill_categories (populate_dimensions any_order e0))
               /\ ids_from Skill.skill_id (next_id (skills x))
                    (skills (populate_dimensions any_order e0))).
  { unfold populate_dimensions.
    set (e4 := populate_schedule_types any_order
                 (populate_platforms any_order
                    (populate_locations any_order
                       (populate_companies any_order e0)))).
    assert (G5 : ids_from SkillCategory.category_id
                   (next_id (skill_categories x)) (skill_categories e4))
      by exact H5.
    assert (G6 : ids_from Skill.skill_id (next_id (skills x)) (skills e4))
      by exact H6.
    clearbody e4. now apply builder_ids_from. }
  assert (T7 : jobs (populate_dimensions any_order e0) = jobs e0)
    by reflexivity.
  generalize dependent (populate_dimensions any_order e0).
  intros e T1 T2 T3 T4 [T5 T6] T7.
  rewrite populate_job_skills_with, populate_jobs_with.
  cbn [companies locations platforms schedule_types skill_categories skills
       jobs with_job_skills with_jobs].
  rewrite T1, T2, T3, T4, T7.
  split; [|split; [|split; [|split; [|split; [|split]]]]].
  - apply fold_ids_from; [|exact H1]. intros t k H. unfold insert_company.
    apply insert_do_nothing_ids_from; [reflexivity|exact H].
  - apply fold_ids_from; [|exact H2]. intros t k H. unfold insert_location.
    apply insert_do_nothing_ids_from; [reflexivity|exact H].
  - apply fold_ids_from; [|exact H3]. intros t k H. unfold insert_platform.
    apply insert_do_nothing_ids_from; [reflexivity|exact H].
  - apply fold_ids_from; [|exact H4]. intros t k H.
    unfold insert_schedule_type.
    apply insert_do_nothing_ids_from; [reflexivity|exact H].
  - exact T5.
  - exact T6.
  - now apply insert_jobs_ids_from.
Qed.

(** C7 as the code has it: a second run on the same staging table, with the
    same enumeration orders, leaves every dimension table with the natural
    keys it had after the first run, in the same row order (company names,
    location 4-tuples, platform names, schedule type names, category names,
    and skill names each with the name of its category).  No company,
    platform, schedule type, category or skill name is there twice, and no
    location 4-tuple without NULL; a 4-tuple with a NULL city or
    state/province is there as often as after the first run.  The tables
    do not hold the same rows: in the six dimension tables and in the fact
    table, no row of the second run has the id of a row of the first. *)
Theorem run_transformation_twice (d : db) :
  let r1 := run_transformation any_order d in
  let r2 := run_transformation any_order r1 in
  dimensions_view r2 = dimensions_view r1
  /\ (NoDup (company_names r1)
      /\ NoDup (filter location_key_complete (location_keys r1))
      /\ NoDup (platform_names r1)
      /\ NoDup (schedule_type_names r1)
      /\ NoDup (category_names r1)
      /\ NoDup (map fst (skill_view r1)))
  /\ (ids_new Company.company_id (companies r1) (companies r2)
      /\ ids_new Location.location_id (locations r1) (locations r2)
      /\ ids_new Platform.platform_id (platforms r1) (platforms r2)
      /\ ids_new ScheduleType.schedule_type_id (schedule_types r1)
           (schedule_types r2)
      /\ ids_new SkillCategory.category_id (skill_categories r1)
           (skill_categories r2)
      /\ ids_new Skill.skill_id (skills r1) (skills r2)
      /\ ids_new Job.job_id (jobs r1) (jobs r2)).
Proof.
  intros r1 r2. split; [|split].
  - subst r2 r1. rewrite (run_dimensions_view d).
    assert (Hstg : staging_jobs (run_transformation any_order d)
                   = staging_jobs d)
      by apply run_transformation_staging.
    generalize dependent (run_transformation any_order d). intros x Hstg.
    rewrite (run_dimensions_view x).
    apply populate_dimensions_view; try reflexivity. exact Hstg.
  - subst r2 r1.
    pose proof (populate_dimensions_NoDup d) as H. cbv zeta in H.
    pose proof (run_dimensions_view d) as E.
    generalize dependent (run_transformation any_order d). intros x E.
    generalize dependent
      (populate_dimensions any_order (delete_previous_info d)).
    intros e H E. unfold dimensions_view in E.
    inversion E as [[E1 E2 E3 E4 E5 E6]].
    unfold skill_view. rewrite E1, E2, E3, E4, E5.
    fold (skill_view x). rewrite E6. exact H.
  - destruct (run_ids_from d) as (A1 & A2 & A3 & A4 & A5 & A6 & A7).
    destruct (run_ids_from r1) as (B1 & B2 & B3 & B4 & B5 & B6 & B7).
    cbv zeta in *. fold r1 in A1, A2, A3, A4, A5, A6, A7.
    fold r2 in B1, B2, B3, B4, B5, B6, B7.
    clearbody r2. clearbody r1.
    repeat split; eapply ids_from_new; eassumption.
Qed.

End TwiceRun.

(** C7 as stated fails: the second run gives the company "Acme" a new
    surrogate id, so the companies table does not hold the same rows. *)
Lemma second_run_renumbers_rows :
  rows (companies (run_transformation in_order acme_db))
  = [Company.mk 1 "Acme"]
  /\ rows (companies
             (run_transformation in_order
                (run_transformation in_order acme_db)))
     = [Company.mk 2 "Acme"]
  /\ rows (companies
             (run_transformation in_order
                (run_transformation in_order acme_db)))
     <> rows (companies (run_transformation in_order acme_db)).
Proof. vm_compute. repeat split. discriminate. Qed.

(** A natural key can be there twice after one run: two staging rows
    without a location, one without a country and one with the country
    "Unknown", propose the same 4-tuple with a NULL city, and the second
    INSERT does not conflict with the first. *)
Lemma run_repeats_null_location :
  location_keys (run_transformation in_order unknown_db)
  = [(None, None, "Unknown", "Unknown"); (None, None, "Unknown", "Unknown")]
  /\ ~ NoDup (location_keys (run_transformation in_order unknown_db)).
Proof.
  assert (E : location_keys (run_transformation in_order unknown_db)
              = [(None, None, "Unknown", "Unknown");
                 (None, None, "Unknown", "Unknown")]) by (vm_compute; reflexivity).
  split; [exact E|]. rewrite E. intros H. inversion H as [|? ? Hin _].
  apply Hin. now left.
Qed.

(** ** How the fact populator resolves its foreign keys *)

Lemma left_join_matches {R} (on : R -> bool) (t : list R) (r0 : R) :
  In r0 t -> on r0 = true ->
  forall x, In x (left_join on t) ->
            exists r, x = Some r /\ In r t /\ on r = true.
Proof.
  intros Hin Hon x Hx. unfold left_join in Hx.
  destruct (filter on t) as [|m ms] eqn:E.
  - assert (H : In r0 (filter on t)) by (apply filter_In; now split).
    rewrite E in H. contradiction.
  - apply in_map_iff in Hx as (r & <- & Hr). rewrite <- E in Hr.
    apply filter_In in Hr as [H1 H2]. now exists r.
Qed.

Lemma in_job_joined_parts (d : db) (s : Staging.row) (v : Job.values) :
  In v (job_joined d s) ->
  exists c l p st,
    v = job_values s c l p st
    /\ In c (left_join
               (fun c =>
                  String.eqb
                    (Str.sql_trim
                       (Sql.coalesce (Staging.company_name s) "Unknown"))
                    (Company.company_name c))
               (rows (companies d)))
    /\ In l (left_join
               (fun l =>
                  String.eqb (Sql.coalesce (Staging.job_country s) "Unknown")
                             (Location.country l)
                  && String.eqb
                       (Sql.coalesce (Staging.job_location s) "Unknown")
                       (Location.full_location l))
               (rows (locations d)))
    /\ In p (left_join
               (fun p => Sql.holds
                  (Sql.eq_str (platform_clean (Staging.job_via s))
                              (Some (Platform.platform_name p))))
               (rows (platforms d)))
    /\ In st (left_join
                (fun st => Sql.holds
                   (Sql.eq_str (Sql.trim (Staging.job_schedule_type s))
                               (Some (ScheduleType.schedule_type_name st))))
                (rows (schedule_types d))).
Proof.
  unfold job_joined. intros H.
  apply in_flat_map in H as (c & Hc & H).
  apply in_flat_map in H as (l & Hl & H).
  apply in_flat_map in H as (p & Hp & H).
  apply in_map_iff in H as (st & <- & Hst).
  now exists c, l, p, st.
Qed.

Section ForeignKeys.

Variable any_order : forall A : Type, list A -> list A.
Hypothesis any_order_perm :
  forall (A : Type) (l : list A), Permutation (any_order A l) l.

(** After [populate_locations] every staging row has a location row with
    its country and its raw location, "Unknown" standing for NULL. *)
Lemma populate_locations_covers (d : db) (s : Staging.row) :
  In s (staging_jobs d) ->
  exists l,
    In l (rows (locations (populate_locations any_order d)))
    /\ Location.country l = Sql.coalesce (Staging.job_country s) "Unknown"
    /\ Location.full_location l
       = Sql.coalesce (Staging.job_location s) "Unknown".
Proof.
  intros Hs. unfold populate_locations. cbn [locations with_locations].
  rewrite fold_insert_location.
  assert (Hk : In (proposed_location_key
                     (Staging.job_location s, Staging.job_country s))
                  (map location_key
                     (rows (fold_left
                              (insert_keyed location_key location_key_eqb
                                 location_of_key)
                              (map proposed_location_key
                                 (locations_select any_order (staging_jobs d)))
                              (locations d))))).
  { apply (insert_keyed_in_sound location_key location_key_eqb
             location_of_key location_key_eqb_sound location_key_mk).
    right. apply in_map. unfold locations_select.
    apply (in_select_distinct any_order any_order_perm).
    apply in_map_iff. now exists s. }
  apply in_map_iff in Hk as (l & Hl & Hin).
  exists l. split; [exact Hin|].
  unfold location_key, proposed_location_key in Hl.
  cbn [fst snd] in Hl.
  rewrite extract_location_components_country in Hl.
  inversion Hl. now split.
Qed.

Lemma populate_companies_covers (d : db) (s : Staging.row) (name : string) :
  In s (staging_jobs d) ->
  Staging.company_name s = Some name -> Str.sql_trim name <> "" ->
  exists c,
    In c (rows (companies (populate_companies any_order d)))
    /\ Company.company_name c = Str.sql_trim name.
Proof.
  intros Hs E Hn. unfold populate_companies. cbn [companies with_companies].
  assert (Hk : In (Str.sql_trim name)
                  (map Company.company_name
                     (rows (fold_left
                              (insert_keyed Company.company_name String.eqb
                                 Company.mk)
                              (companies_select any_order (staging_jobs d))
                              (companies d))))).
  { apply (insert_keyed_in Company.company_name String.eqb Company.mk
             String.eqb_eq (fun _ _ => eq_refl)).
    right. apply (in_companies_select any_order any_order_perm).
    now exists s, name. }
  apply in_map_iff in Hk as (c & Hc & Hin). now exists c.
Qed.

Lemma populate_platforms_covers (d : db) (s : Staging.row) (v : string) :
  In s (staging_jobs d) ->
  Staging.job_via s = Some v -> Str.sql_trim v <> "" ->
  exists p,
    In p (rows (platforms (populate_platforms any_order d)))
    /\ Platform.platform_name p = Str.sql_trim (Str.regexp_replace_via v).
Proof.
  intros Hs E Hn. unfold populate_platforms. cbn [platforms with_platforms].
  assert (Hk : In (Str.sql_trim (Str.regexp_replace_via v))
                  (map Platform.platform_name
                     (rows (fold_left
                              (insert_keyed Platform.platform_name String.eqb
                                 Platform.mk)
                              (platforms_select any_order (staging_jobs d))
                              (platforms d))))).
  { apply (insert_keyed_in Platform.platform_name String.eqb Platform.mk
             String.eqb_eq (fun _ _ => eq_refl)).
    right. unfold platforms_select.
    apply (in_select_distinct any_order any_order_perm).
    apply in_flat_map. exists s. split; [exact Hs|].
    rewrite E. simpl.
    destruct (String.eqb_spec (Str.sql_trim v) "") as [E0|_];
      [contradiction|].
    simpl. now left. }
  apply in_map_iff in Hk as (p & Hp & Hin). now exists p.
Qed.

Lemma populate_schedule_types_covers (d : db) (s : Staging.row)
    (v : string) :
  In s (staging_jobs d) ->
  Staging.job_schedule_type s = Some v -> Str.sql_trim v <> "" ->
  exists st,
    In st (rows (schedule_types (populate_schedule_types any_order d)))
    /\ ScheduleType.schedule_type_name st = Str.sql_trim v.
Proof.
  intros Hs E Hn. unfold populate_schedule_types.
  cbn [schedule_types with_schedule_types].
  assert (Hk : In (Str.sql_trim v)
                  (map ScheduleType.schedule_type_name
                     (rows (fold_left
                              (insert_keyed ScheduleType.schedule_type_name
                                 String.eqb ScheduleType.mk)
                              (schedule_types_select any_order
                                 (staging_jobs d))
                              (schedule_types d))))).
  { apply (insert_keyed_in ScheduleType.schedule_type_name String.eqb
             ScheduleType.mk String.eqb_eq (fun _ _ => eq_refl)).
    right. unfold schedule_types_select.
    apply (in_select_distinct any_order any_order_perm).
    apply in_flat_map. exists s. split; [exact Hs|].
    rewrite E. simpl.
    destruct (String.eqb_spec (Str.sql_trim v) "") as [E0|_];
      [contradiction|].
    simpl. now left. }
  apply in_map_iff in Hk as (st & Hst & Hin). now exists st.
Qed.

(** The four dimension tables as the fact populator finds them in a full
    run: each staging row is covered by the dimension rows its join
    looks for. *)
Lemma dimensions_cover (x : db) (s : Staging.row) :
  let e := populate_dimensions any_order (delete_previous_info x) in
  In s (staging_jobs x) ->
  (exists l,
     In l (rows (locations e))
     /\ Location.country l = Sql.coalesce (Staging.job_country s) "Unknown"
     /\ Location.full_location l
        = Sql.coalesce (Staging.job_location s) "Unknown")
  /\ (forall name,
        Staging.company_name s = Some name -> Str.sql_trim name <> "" ->
        exists c, In c (rows (companies e))
                  /\ Company.company_name c = Str.sql_trim name)
  /\ (forall v,
        Staging.job_via s = Some v -> Str.sql_trim v <> "" ->
        exists p, In p (rows (platforms e))
                  /\ Platform.platform_name p
                     = Str.sql_trim (Str.regexp_replace_via v))
  /\ (forall v,
        Staging.job_schedule_type s = Some v -> Str.sql_trim v <> "" ->
        exists st, In st (rows (schedule_types e))
                   /\ ScheduleType.schedule_type_name st = Str.sql_trim v).
Proof.
  intros e Hs. subst e.
  set (e0 := delete_previous_info x).
  assert (H0 : In s (staging_jobs e0)) by exact Hs.
  clearbody e0.
  destruct (populate_dimensions_tables any_order e0) as (-> & -> & -> & ->).
  split; [|split; [|split]].
  - exact (populate_locations_covers e0 s H0).
  - intros name. exact (populate_companies_covers e0 s name H0).
  - intros v. exact (populate_platforms_covers e0 s v H0).
  - intros v. exact (populate_schedule_types_covers e0 s v H0).
Qed.

End ForeignKeys.

Section ForeignKeysRun.

Variable any_order : forall A : Type, list A -> list A.
Hypothesis any_order_perm :
  forall (A : Type) (l : list A), Permutation (any_order A l) l.

(** The job rows of a full run are joined rows of qualifying staging rows,
    joined against the dimension tables the run has just filled. *)
Lemma run_transformation_jobs (d : db) :
  Forall
    (fun j => exists s,
       In s (staging_jobs d) /\ job_qualifies s = true
       /\ In (Job.cols j)
             (job_joined
                (populate_dimensions any_order (delete_previous_info d)) s))
    (rows (jobs (run_transformation any_order d))).
Proof.
  unfold run_transformation.
  set (e := populate_dimensions any_order (delete_previous_info d)).
  assert (Hempty : rows (jobs e) = []) by reflexivity.
  assert (Hstg : staging_jobs e = staging_jobs d) by reflexivity.
  clearbody e.
  rewrite populate_job_skills_with.
  change (jobs (with_job_skills ?t ?x)) with (jobs x).
  destruct (populate_jobs_new_rows e) as (new & Hr & Hn).
  rewrite Hr, Hempty. cbn [app].
  eapply Forall_impl; [|exact Hn]. cbv beta.
  intros j (s & Hs & Hq & Hj). exists s. now rewrite <- Hstg.
Qed.

(** The dimension tables of a full run are those the fact populator
    joined against. *)
Lemma run_transformation_dimensions (d : db) :
  companies (run_transformation any_order d)
  = companies (populate_dimensions any_order (delete_previous_info d))
  /\ locations (run_transformation any_order d)
     = locations (populate_dimensions any_order (delete_previous_info d))
  /\ platforms (run_transformation any_order d)
     = platforms (populate_dimensions any_order (delete_previous_info d))
  /\ schedule_types (run_transformation any_order d)
     = schedule_types (populate_dimensions any_order (delete_previous_info d)).
Proof.
  unfold run_transformation.
  generalize (populate_dimensions any_order (delete_previous_info d)).
  intros e. rewrite populate_job_skills_with, populate_jobs_with.
  now repeat split.
Qed.

(** X1: After a full run every job row has a location: its [location_id] is
    never NULL and is the id of a location row that carries the country and
    the raw location of the staging row the job comes from, "Unknown"
    standing for a NULL. *)
Theorem run_transformation_job_location (d : db) :
  Forall
    (fun j => exists s l,
       In s (staging_jobs d)
       /\ Job.job_title (Job.cols j)
          = Sql.coalesce2 (Staging.job_title s) (Staging.job_title_short s)
       /\ In l (rows (locations (run_transformation any_order d)))
       /\ Job.location_id (Job.cols j) = Some (Location.location_id l)
       /\ Location.country l = Sql.coalesce (Staging.job_country s) "Unknown"
       /\ Location.full_location l
          = Sql.coalesce (Staging.job_location s) "Unknown")
    (rows (jobs (run_transformation any_order d))).
Proof.
  destruct (run_transformation_dimensions d) as (_ & -> & _ & _).
  eapply Forall_impl; [|apply run_transformation_jobs]. cbv beta.
  intros j (s & Hs & _ & Hj).
  destruct (dimensions_cover any_order any_order_perm d s Hs)
    as ((l0 & Hl0 & Hc0 & Hf0) & _).
  generalize dependent
    (populate_dimensions any_order (delete_previous_info d)).
  intros e Hj Hl0.
  apply in_job_joined_parts in Hj as (c & l & p & st & Hv & _ & Hl & _).
  apply (left_join_matches _ _ l0 Hl0) in Hl as (r & -> & Hr & Hon).
  - exists s, r. rewrite Hv. cbn.
    apply andb_prop in Hon as [H1 H2].
    apply String.eqb_eq in H1, H2.
    repeat split; auto.
  - rewrite Hc0, Hf0, !String.eqb_refl. reflexivity.
Qed.

(** X2: After a full run the company, platform and schedule type of a job row
    are resolved whenever the staging row names them: a company name that
    is not blank gives the id of the company with the trimmed name, a
    [job_via] that is not blank the id of the platform with the cleaned
    name, a schedule type that is not blank the id of the schedule type
    with the trimmed name. *)
Theorem run_transformation_job_references (d : db) :
  let r := run_transformation any_order d in
  Forall
    (fun j => exists s,
       In s (staging_jobs d)
       /\ Job.job_title (Job.cols j)
          = Sql.coalesce2 (Staging.job_title s) (Staging.job_title_short s)
       /\ (forall name,
             Staging.company_name s = Some name -> Str.sql_trim name <> "" ->
             exists c,
               In c (rows (companies r))
               /\ Company.company_name c = Str.sql_trim name
               /\ Job.company_id (Job.cols j) = Some (Company.company_id c))
       /\ (forall v,
             Staging.job_via s = Some v -> Str.sql_trim v <> "" ->
             exists p,
               In p (rows (platforms r))
               /\ Platform.platform_name p
                  = Str.sql_trim (Str.regexp_replace_via v)
               /\ Job.platform_id (Job.cols j)
                  = Some (Platform.platform_id p))
       /\ (forall v,
             Staging.job_schedule_type s = Some v -> Str.sql_trim v <> "" ->
             exists st,
               In st (rows (schedule_types r))
               /\ ScheduleType.schedule_type_name st = Str.sql_trim v
               /\ Job.schedule_type_id (Job.cols j)
                  = Some (ScheduleType.schedule_type_id st)))
    (rows (jobs (run_transformation any_order d))).
Proof.
  intros r. subst r.
  destruct (run_transformation_dimensions d) as (-> & _ & -> & ->).
  eapply Forall_impl; [|apply run_transformation_jobs]. cbv beta.
  intros j (s & Hs & _ & Hj).
  destruct (dimensions_cover any_order any_order_perm d s Hs)
    as (_ & Hco & Hpl & Hsc).
  generalize dependent
    (populate_dimensions any_order (delete_previous_info d)).
  intros e Hj Hco Hpl Hsc.
  apply in_job_joined_parts in Hj as (c & l & p & st & Hv & Hc & _ & Hp & Hst).
  exists s. rewrite Hv. cbn [Job.job_title Job.company_id Job.platform_id
                             Job.schedule_type_id].
  split; [exact Hs|]. split; [reflexivity|]. split; [|split].
  - intros name E Hn. destruct (Hco name E Hn) as (c0 & Hc0 & Hn0).
    apply (left_join_matches _ _ c0 Hc0) in Hc as (x & -> & Hx & Hon).
    + apply String.eqb_eq in Hon. rewrite E in Hon. simpl in Hon.
      exists x. now repeat split.
    + rewrite E. simpl. rewrite Hn0. apply String.eqb_refl.
  - intros v E Hn. destruct (Hpl v E Hn) as (p0 & Hp0 & Hn0).
    apply (left_join_matches _ _ p0 Hp0) in Hp as (x & -> & Hx & Hon).
    + rewrite E in Hon. simpl in Hon.
      match type of Hon with
      | (if ?b then _ else _) = _ => destruct b eqn:Eb; [|discriminate]
      end.
      apply String.eqb_eq in Eb. exists x. now repeat split.
    + rewrite E. simpl. now rewrite Hn0, String.eqb_refl.
  - intros v E Hn. destruct (Hsc v E Hn) as (t0 & Ht0 & Hn0).
    apply (left_join_matches _ _ t0 Ht0) in Hst as (x & -> & Hx & Hon).
    + rewrite E in Hon. simpl in Hon.
      match type of Hon with
      | (if ?b then _ else _) = _ => destruct b eqn:Eb; [|discriminate]
      end.
      apply String.eqb_eq in Eb. exists x. now repeat split.
    + rewrite E. simpl. now rewrite Hn0, String.eqb_refl.
Qed.

End ForeignKeysRun.

(** The location reference at a concrete store: the one posting of
    [acme_db] refers to the location ("Germany", "Berlin, Germany"). *)
Lemma run_transformation_job_location_witness :
  Forall
    (fun j => exists s l,
       In s (staging_jobs acme_db)
       /\ Job.job_title (Job.cols j)
          = Sql.coalesce2 (Staging.job_title s) (Staging.job_title_short s)
       /\ In l (rows (locations (run_transformation in_order acme_db)))
       /\ Job.location_id (Job.cols j) = Some (Location.location_id l)
       /\ Location.country l = Sql.coalesce (Staging.job_country s) "Unknown"
       /\ Location.full_location l
          = Sql.coalesce (Staging.job_location s) "Unknown")
    (rows (jobs (run_transformation in_order acme_db))).
Proof.
  exact (run_transformation_job_location in_order in_order_perm acme_db).
Defined.

(** The company reference at a concrete store: the one posting of
    [acme_db] refers to the company "Acme". *)
Lemma run_transformation_job_references_witness :
  Forall
    (fun j => exists s,
       In s (staging_jobs acme_db)
       /\ forall name,
            Staging.company_name s = Some name -> Str.sql_trim name <> "" ->
            exists c,
              In c (rows (companies (run_transformation in_order acme_db)))
              /\ Company.company_name c = Str.sql_trim name
              /\ Job.company_id (Job.cols j) = Some (Company.company_id c))
    (rows (jobs (run_transformation in_order acme_db))).
Proof.
  eapply Forall_impl;
    [|exact (run_transformation_job_references in_order in_order_perm
               acme_db)].
  cbv beta. intros j (s & Hs & _ & Hc & _). now exists s.
Defined.

(** ** Strings: what stripping and splitting guarantee *)

Lemma lstrip_by_head (f : ascii -> bool) (s : string) :
  match Str.lstrip_by f s with
  | EmptyString => True
  | String c _ => f c = false
  end.
Proof.
  induction s as [|c r IH]; simpl; [exact I|].
  destruct (f c) eqn:E; [exact IH|exact E].
Qed.

Lemma lstrip_by_fixed (f : ascii -> bool) (s : string) :
  match s with EmptyString => True | String c _ => f c = false end ->
  Str.lstrip_by f s = s.
Proof. destruct s as [|c r]; simpl; [easy|]. now intros ->. Qed.

Lemma rstrip_by_head (f : ascii -> bool) (c : ascii) (r : string) :
  f c = false ->
  exists r', Str.rstrip_by f (String c r) = String c r'.
Proof.
  intros E. simpl. destruct (Str.rstrip_by f r).
  - rewrite E. now exists EmptyString.
  - now eexists.
Qed.

Lemma rstrip_by_idem (f : ascii -> bool) (s : string) :
  Str.rstrip_by f (Str.rstrip_by f s) = Str.rstrip_by f s.
Proof.
  induction s as [|c r IH]; simpl; [reflexivity|].
  destruct (Str.rstrip_by f r) as [|c' r'] eqn:E.
  - destruct (f c) eqn:Ec; simpl; [reflexivity|]. now rewrite Ec.
  - simpl. simpl in IH. rewrite IH. reflexivity.
Qed.

Lemma strip_by_idem (f : ascii -> bool) (s : string) :
  Str.strip_by f (Str.strip_by f s) = Str.strip_by f s.
Proof.
  unfold Str.strip_by.
  pose proof (lstrip_by_head f s) as H.
  destruct (Str.lstrip_by f s) as [|c r]; [reflexivity|].
  destruct (rstrip_by_head f c r H) as (r' & E).
  rewrite E. rewrite (lstrip_by_fixed f (String c r')) by exact H.
  rewrite <- E. apply rstrip_by_idem.
Qed.

Lemma lstrip_by_chars (f : ascii -> bool) (s : string) (c : ascii) :
  In c (list_ascii_of_string (Str.lstrip_by f s)) ->
  In c (list_ascii_of_string s).
Proof.
  induction s as [|a r IH]; simpl; [easy|].
  destruct (f a); simpl; auto.
Qed.

Lemma rstrip_by_chars (f : ascii -> bool) (s : string) (c : ascii) :
  In c (list_ascii_of_string (Str.rstrip_by f s)) ->
  In c (list_ascii_of_string s).
Proof.
  induction s as [|a r IH]; simpl; [easy|].
  destruct (Str.rstrip_by f r) as [|b r'].
  - destruct (f a); simpl; tauto.
  - simpl. simpl in IH. tauto.
Qed.

Lemma strip_by_chars (f : ascii -> bool) (s : string) (c : ascii) :
  In c (list_ascii_of_string (Str.strip_by f s)) ->
  In c (list_ascii_of_string s).
Proof.
  unfold Str.strip_by. intros H.
  now apply lstrip_by_chars with f, rstrip_by_chars with f.
Qed.

(** No part of a split holds the separator. *)
Lemma split_on_no_sep (sep : ascii) (s p : string) :
  In p (Str.split_on sep s) -> ~ In sep (list_ascii_of_string p).
Proof.
  revert p. induction s as [|c r IH]; simpl; intros p Hp.
  - destruct Hp as [<-|[]]. simpl. tauto.
  - destruct (Ascii.eqb_spec c sep) as [->|Hne].
    + destruct Hp as [<-|Hp]; [simpl; tauto|now apply IH].
    + destruct (Str.split_on sep r) as [|q qs].
      * destruct Hp as [<-|[]]. simpl. intros [E|[]]. now apply Hne.
      * destruct Hp as [<-|Hp].
        -- simpl. intros [E|Hin]; [now apply Hne|].
           apply (IH q); [now left|exact Hin].
        -- apply IH. now right.
Qed.

(** ** The Location Normalizer: what a component can be *)

Lemma location_part_clean (s p : string) :
  In p (location_parts s) ->
  Str.py_strip p = p /\ ~ In ","%char (list_ascii_of_string p).
Proof.
  unfold location_parts. intros H.
  apply in_map_iff in H as (q & <- & Hq). split.
  - apply strip_by_idem.
  - intros Hin. apply strip_by_chars in Hin.
    now apply (split_on_no_sep _ _ _ Hq).
Qed.

Lemma or_none_nth (parts : list string) (i : nat) (x : string) :
  or_none (nth i parts "") = Some x -> x <> "" /\ In x parts.
Proof.
  unfold or_none. intros H.
  destruct (nth i parts "") as [|c r] eqn:E; [discriminate|].
  injection H as <-. split; [discriminate|].
  destruct (nth_in_or_default i parts "") as [Hin|Hd].
  - now rewrite E in Hin.
  - rewrite E in Hd. discriminate.
Qed.

(** X3: A city or a state/province the normalizer returns is never the empty
    string: it is a segment of the location that has text left after
    trimming, so it has no white space at either end and no comma. *)
Theorem extract_location_components_clean
    (location_string : pyval) (c : option string) (x : string) :
  let r := extract_location_components location_string c in
  city r = Some x \/ state_province r = Some x ->
  x <> ""
  /\ Str.py_strip x = x
  /\ ~ In ","%char (list_ascii_of_string x)
  /\ In x (location_parts (py_str location_string)).
Proof.
  intros r H.
  assert (Hx : x <> "" /\ In x (location_parts (py_str location_string))).
  { subst r. unfold extract_location_components in H.
    destruct (py_not location_string || pd_isna location_string);
      [simpl in H; destruct H; discriminate|].
    destruct (3 <=? _);
      [simpl in H; destruct H as [H|H]; now apply or_none_nth in H|].
    destruct (_ =? 2);
      [simpl in H; destruct H as [H|H]; now apply or_none_nth in H|].
    destruct (_ =? 1); simpl in H; destruct H as [H|H];
      try discriminate; now apply or_none_nth in H. }
  destruct Hx as [Hne Hin].
  destruct (location_part_clean _ _ Hin) as [H1 H2]. now repeat split.
Qed.

(** The city of " Austin , TX " is "Austin". *)
Lemma extract_location_components_clean_witness :
  "Austin" <> ""
  /\ Str.py_strip "Austin" = "Austin"
  /\ ~ In ","%char (list_ascii_of_string "Austin")
  /\ In "Austin" (location_parts " Austin , TX ").
Proof.
  apply (extract_location_components_clean (PyStr " Austin , TX ")
           (Some "United States") "Austin").
  left. reflexivity.
Defined.

(** ** The names a run leaves in the dimension tables *)

Section DimensionNames.

Variable any_order : forall A : Type, list A -> list A.
Hypothesis any_order_perm :
  forall (A : Type) (l : list A), Permutation (any_order A l) l.

Lemma in_platforms_select (stg : list Staging.row) (n : string) :
  In n (platforms_select any_order stg)
  <-> exists s v,
        In s stg /\ Staging.job_via s = Some v
        /\ Str.sql_trim v <> ""
        /\ n = Str.sql_trim (Str.regexp_replace_via v).
Proof.
  unfold platforms_select.
  rewrite (in_select_distinct any_order any_order_perm), in_flat_map. split.
  - intros (s & Hs & H). destruct (Staging.job_via s) as [v|] eqn:E;
      simpl in H; [|contradiction].
    destruct (String.eqb_spec (Str.sql_trim v) "") as [E0|E0];
      simpl in H; [contradiction|].
    destruct H as [<-|[]]. now exists s, v.
  - intros (s & v & Hs & E & Hn & ->). exists s. split; [exact Hs|].
    rewrite E. simpl.
    destruct (String.eqb_spec (Str.sql_trim v) "") as [E0|E0];
      [contradiction|]. simpl. now left.
Qed.

Lemma in_schedule_types_select (stg : list Staging.row) (n : string) :
  In n (schedule_types_select any_order stg)
  <-> exists s v,
        In s stg /\ Staging.job_schedule_type s = Some v
        /\ Str.sql_trim v <> "" /\ n = Str.sql_trim v.
Proof.
  unfold schedule_types_select.
  rewrite (in_select_distinct any_order any_order_perm), in_flat_map. split.
  - intros (s & Hs & H). destruct (Staging.job_schedule_type s) as [v|] eqn:E;
      simpl in H; [|contradiction].
    destruct (String.eqb_spec (Str.sql_trim v) "") as [E0|E0];
      simpl in H; [contradiction|].
    destruct H as [<-|[]]. now exists s, v.
  - intros (s & v & Hs & E & Hn & ->). exists s. split; [exact Hs|].
    rewrite E. simpl.
    destruct (String.eqb_spec (Str.sql_trim v) "") as [E0|E0];
      [contradiction|]. simpl. now left.
Qed.

(** The names of three dimension tables filled from empty: those their
    SELECT proposes. *)
Lemma populate_dimensions_names (e : db) :
  rows (companies e) = [] -> rows (platforms e) = [] ->
  rows (schedule_types e) = [] ->
  (forall n, In n (company_names (populate_dimensions any_order e))
             <-> In n (companies_select any_order (staging_jobs e)))
  /\ (forall n, In n (platform_names (populate_dimensions any_order e))
                <-> In n (platforms_select any_order (staging_jobs e)))
  /\ (forall n, In n (schedule_type_names (populate_dimensions any_order e))
                <-> In n (schedule_types_select any_order (staging_jobs e))).
Proof.
  intros Hc Hp Hs. split; [|split]; intros n.
  - change (company_names (populate_dimensions any_order e))
      with (map Company.company_name
              (rows (fold_left
                       (insert_keyed Company.company_name String.eqb
                          Company.mk)
                       (companies_select any_order (staging_jobs e))
                       (companies e)))).
    rewrite (insert_keyed_in Company.company_name String.eqb Company.mk
               String.eqb_eq (fun _ _ => eq_refl)).
    rewrite Hc. simpl. tauto.
  - change (platform_names (populate_dimensions any_order e))
      with (map Platform.platform_name
              (rows (fold_left
                       (insert_keyed Platform.platform_name String.eqb
                          Platform.mk)
                       (platforms_select any_order (staging_jobs e))
                       (platforms e)))).
    rewrite (insert_keyed_in Platform.platform_name String.eqb Platform.mk
               String.eqb_eq (fun _ _ => eq_refl)).
    rewrite Hp. simpl. tauto.
  - change (schedule_type_names (populate_dimensions any_order e))
      with (map ScheduleType.schedule_type_name
              (rows (fold_left
                       (insert_keyed ScheduleType.schedule_type_name
                          String.eqb ScheduleType.mk)
                       (schedule_types_select any_order (staging_jobs e))
                       (schedule_types e)))).
    rewrite (insert_keyed_in ScheduleType.schedule_type_name String.eqb
               ScheduleType.mk String.eqb_eq (fun _ _ => eq_refl)).
    rewrite Hs. simpl. tauto.
Qed.

(** X4: After a full run the companies are exactly the trimmed company names
    of the staging rows whose name is neither NULL nor blank, the schedule
    types exactly the trimmed schedule types that are neither NULL nor
    blank, and the platforms exactly the cleaned [job_via] values of the
    rows whose [job_via] is neither NULL nor blank; what the tables held
    before the run plays no part.  So a company or schedule type name is
    never empty, and every name is trimmed. *)
Theorem run_transformation_dimension_names (d : db) :
  let r := run_transformation any_order d in
  (forall n,
     In n (company_names r)
     <-> exists s name,
           In s (staging_jobs d) /\ Staging.company_name s = Some name
           /\ Str.sql_trim name <> "" /\ n = Str.sql_trim name)
  /\ (forall n,
        In n (schedule_type_names r)
        <-> exists s v,
              In s (staging_jobs d) /\ Staging.job_schedule_type s = Some v
              /\ Str.sql_trim v <> "" /\ n = Str.sql_trim v)
  /\ (forall n,
        In n (platform_names r)
        <-> exists s v,
              In s (staging_jobs d) /\ Staging.job_via s = Some v
              /\ Str.sql_trim v <> ""
              /\ n = Str.sql_trim (Str.regexp_replace_via v))
  /\ Forall (fun n => n <> "" /\ Str.sql_trim n = n)
            (company_names r ++ schedule_type_names r)
  /\ Forall (fun n => Str.sql_trim n = n) (platform_names r).
Proof.
  intros r. subst r.
  unfold company_names, schedule_type_names, platform_names.
  destruct (run_transformation_dimensions any_order d) as (-> & _ & -> & ->).
  set (e := delete_previous_info d).
  assert (Hc : rows (companies e) = []) by reflexivity.
  assert (Hp : rows (platforms e) = []) by reflexivity.
  assert (Hs : rows (schedule_types e) = []) by reflexivity.
  assert (Hstg : staging_jobs e = staging_jobs d) by reflexivity.
  clearbody e.
  destruct (populate_dimensions_names e Hc Hp Hs) as (H1 & H2 & H3).
  unfold company_names, schedule_type_names, platform_names in H1, H2, H3.
  rewrite Hstg in H1, H2, H3.
  generalize dependent (populate_dimensions any_order e). intros x H1 H2 H3.
  assert (G1 : forall n,
     In n (map Company.company_name (rows (companies x)))
     <-> exists s name,
           In s (staging_jobs d) /\ Staging.company_name s = Some name
           /\ Str.sql_trim name <> "" /\ n = Str.sql_trim name).
  { intros n. rewrite H1. apply (in_companies_select any_order any_order_perm). }
  assert (G2 : forall n,
     In n (map ScheduleType.schedule_type_name (rows (schedule_types x)))
     <-> exists s v,
           In s (staging_jobs d) /\ Staging.job_schedule_type s = Some v
           /\ Str.sql_trim v <> "" /\ n = Str.sql_trim v).
  { intros n. rewrite H3. apply in_schedule_types_select. }
  assert (G3 : forall n,
     In n (map Platform.platform_name (rows (platforms x)))
     <-> exists s v,
           In s (staging_jobs d) /\ Staging.job_via s = Some v
           /\ Str.sql_trim v <> ""
           /\ n = Str.sql_trim (Str.regexp_replace_via v)).
  { intros n. rewrite H2. apply in_platforms_select. }
  split; [exact G1|]. split; [exact G2|]. split; [exact G3|]. split.
  - apply Forall_forall. intros n Hn. apply in_app_or in Hn as [Hn|Hn].
    + apply G1 in Hn as (s & name & _ & _ & Hne & ->).
      split; [exact Hne|apply strip_by_idem].
    + apply G2 in Hn as (s & v & _ & _ & Hne & ->).
      split; [exact Hne|apply strip_by_idem].
  - apply Forall_forall. intros n Hn.
    apply G3 in Hn as (s & v & _ & _ & _ & ->). apply strip_by_idem.
Qed.

End DimensionNames.

(** The names of a run at a concrete store: the company of [acme_db] is
    "Acme". *)
Lemma run_transformation_dimension_names_witness :
  In "Acme" (company_names (run_transformation in_order acme_db)).
Proof.
  apply (proj1 (run_transformation_dimension_names in_order in_order_perm
                  acme_db)).
  eexists _, "Acme". split; [left; reflexivity|].
  split; [reflexivity|]. split; [discriminate|reflexivity].
Defined.

(** ** One job per qualifying staging row *)

Lemma filter_key_le1 {R K : Type} (key : R -> K) (on : R -> bool) (k0 : K)
    (t : list R) :
  NoDup (map key t) ->
  (forall r, In r t -> on r = true -> key r = k0) ->
  List.length (filter on t) <= 1.
Proof.
  induction t as [|r t IH]; intros Hnd Hon; simpl; [lia|].
  inversion Hnd as [|? ? Hr Ht]; subst.
  assert (IH' : List.length (filter on t) <= 1).
  { apply IH; [exact Ht|]. intros q Hq. apply Hon. now right. }
  destruct (on r) eqn:E; [|exact IH'].
  destruct (filter on t) as [|q qs] eqn:F; [simpl; lia|].
  exfalso. apply Hr.
  assert (Hq : In q (filter on t)) by (rewrite F; now left).
  apply filter_In in Hq as [Hq1 Hq2].
  rewrite (Hon r (or_introl eq_refl) E), <- (Hon q (or_intror Hq1) Hq2).
  now apply in_map.
Qed.

Lemma left_join_single {R K : Type} (key : R -> K) (on : R -> bool) (k0 : K)
    (t : list R) :
  NoDup (map key t) ->
  (forall r, In r t -> on r = true -> key r = k0) ->
  exists x, left_join on t = [x].
Proof.
  intros Hnd Hon. pose proof (filter_key_le1 key on k0 t Hnd Hon) as H.
  unfold left_join. destruct (filter on t) as [|m [|m' ms]].
  - now exists None.
  - now exists (Some m).
  - simpl in H. lia.
Qed.

Lemma NoDup_map_coarser {A B C : Type} (f : A -> B) (g : A -> C)
    (l : list A) :
  NoDup (map f l) ->
  (forall a b, In a l -> In b l -> g a = g b -> f a = f b) ->
  NoDup (map g l).
Proof.
  induction l as [|a l IH]; intros Hnd Hinj; simpl; [constructor|].
  inversion Hnd as [|? ? Ha Hl]; subst. constructor.
  - intros Hin. apply in_map_iff in Hin as (b & Hb & Hbl).
    apply Ha. rewrite (Hinj a b (or_introl eq_refl) (or_intror Hbl)
                         (eq_sym Hb)).
    now apply in_map.
  - apply IH; [exact Hl|]. intros x y Hx Hy. apply Hinj; now right.
Qed.

Lemma flat_map_singletons {A B : Type} (f : A -> list B) (l : list A) :
  (forall a, In a l -> exists b, f a = [b]) ->
  Forall2 (fun b a => In b (f a)) (flat_map f l) l.
Proof.
  induction l as [|a l IH]; intros H; simpl; [constructor|].
  destruct (H a (or_introl eq_refl)) as (b & E). rewrite E. simpl.
  constructor.
  - rewrite E. now left.
  - apply IH. intros x Hx. apply H. now right.
Qed.

(** With no natural key repeated in the four dimensions the fact
    populator joins a staging row to one row of each, or to NULL. *)
Lemma job_joined_single (d : db) (s : Staging.row) :
  NoDup (company_names d) ->
  NoDup (map location_join_key (rows (locations d))) ->
  NoDup (platform_names d) ->
  NoDup (schedule_type_names d) ->
  exists v, job_joined d s = [v].
Proof.
  intros Hc Hl Hp Hs. unfold job_joined.
  destruct (left_join_single Company.company_name
              (fun c =>
                 String.eqb
                   (Str.sql_trim
                      (Sql.coalesce (Staging.company_name s) "Unknown"))
                   (Company.company_name c))
              (Str.sql_trim (Sql.coalesce (Staging.company_name s) "Unknown"))
              (rows (companies d)) Hc) as (c & ->).
  { intros r _ H. apply String.eqb_eq in H. now symmetry. }
  destruct (left_join_single location_join_key
              (fun l =>
                 String.eqb (Sql.coalesce (Staging.job_country s) "Unknown")
                            (Location.country l)
                 && String.eqb
                      (Sql.coalesce (Staging.job_location s) "Unknown")
                      (Location.full_location l))
              (Sql.coalesce (Staging.job_country s) "Unknown",
               Sql.coalesce (Staging.job_location s) "Unknown")
              (rows (locations d)) Hl) as (l & ->).
  { intros r _ H. apply andb_prop in H as [H1 H2].
    apply String.eqb_eq in H1, H2. unfold location_join_key.
    now rewrite <- H1, <- H2. }
  destruct (left_join_single Platform.platform_name
              (fun p => Sql.holds
                 (Sql.eq_str (platform_clean (Staging.job_via s))
                             (Some (Platform.platform_name p))))
              (Sql.coalesce (platform_clean (Staging.job_via s)) "")
              (rows (platforms d)) Hp) as (p & ->).
  { intros r _ H. destruct (platform_clean (Staging.job_via s)) as [v|];
      simpl in H; [|discriminate].
    destruct (String.eqb_spec v (Platform.platform_name r));
      [now subst|discriminate]. }
  destruct (left_join_single ScheduleType.schedule_type_name
              (fun st => Sql.holds
                 (Sql.eq_str (Sql.trim (Staging.job_schedule_type s))
                             (Some (ScheduleType.schedule_type_name st))))
              (Sql.coalesce (Sql.trim (Staging.job_schedule_type s)) "")
              (rows (schedule_types d)) Hs) as (st & ->).
  { intros r _ H. destruct (Sql.trim (Staging.job_schedule_type s)) as [v|];
      simpl in H; [|discriminate].
    destruct (String.eqb_spec v (ScheduleType.schedule_type_name r));
      [now subst|discriminate]. }
  simpl. now eexists.
Qed.

Section OneJobPerRow.

Variable any_order : forall A : Type, list A -> list A.
Hypothesis any_order_perm :
  forall (A : Type) (l : list A), Permutation (any_order A l) l.

Lemma populate_locations_join_keys (e : db) :
  rows (locations e) = [] ->
  unknown_unambiguous (staging_jobs e) ->
  NoDup (map location_join_key
           (rows (locations (populate_locations any_order e)))).
Proof.
  intros Hempty Hun. unfold populate_locations.
  cbn [locations with_locations]. rewrite fold_insert_location.
  set (g := fun k : option string * option string * string * string =>
              (snd (fst k), snd k)).
  rewrite (map_ext location_join_key (fun l => g (location_key l)))
    by reflexivity.
  rewrite <- (map_map location_key g).
  apply (insert_keyed_NoDup_view location_key location_key_eqb
           location_of_key location_key_eqb_sound location_key_mk g).
  rewrite Hempty. cbn [map app]. rewrite map_map.
  apply (NoDup_map_coarser (fun p : option string * option string => p)).
  - rewrite map_id. unfold locations_select.
    apply (select_distinct_NoDup any_order any_order_perm).
  - intros p1 p2 H1 H2 E. unfold locations_select in H1, H2.
    apply (in_select_distinct any_order any_order_perm) in H1, H2.
    apply in_map_iff in H1 as (s1 & <- & Hs1).
    apply in_map_iff in H2 as (s2 & <- & Hs2).
    unfold g, proposed_location_key in E. cbn [fst snd] in E.
    rewrite !extract_location_components_country in E.
    inversion E as [[C1 C2]].
    destruct (Hun s1 s2 Hs1 Hs2 C1 C2) as [F1 F2]. now rewrite F1, F2.
Qed.

(** X5: When the staging table tells NULL from the text "Unknown" in its
    country and location columns, a full run writes one job row for each
    qualifying staging row, in the order of the staging ids, with the
    columns of that row: no staging row is lost or doubled by the joins. *)
Theorem run_transformation_one_job_per_row (d : db) :
  unknown_unambiguous (staging_jobs d) ->
  Forall2
    (fun j s => exists c l p st, Job.cols j = job_values s c l p st)
    (rows (jobs (run_transformation any_order d)))
    (order_by (fun a b => (Staging.id a <=? Staging.id b)%Z)
       (filter job_qualifies (staging_jobs d)))
  /\ List.length (rows (jobs (run_transformation any_order d)))
     = List.length (filter job_qualifies (staging_jobs d)).
Proof.
  intros Hun.
  assert (Hone : forall s,
    exists v,
      job_joined (populate_dimensions any_order (delete_previous_info d)) s
      = [v]).
  { intros s.
    destruct (populate_dimensions_NoDup any_order d)
      as (H1 & _ & H3 & H4 & _).
    apply job_joined_single; [exact H1| |exact H3|exact H4].
    set (e0 := delete_previous_info d).
    assert (Hempty : rows (locations e0) = []) by reflexivity.
    assert (Hstg : staging_jobs e0 = staging_jobs d) by reflexivity.
    clearbody e0. rewrite <- Hstg in Hun.
    destruct (populate_dimensions_tables any_order e0) as (_ & -> & _ & _).
    exact (populate_locations_join_keys e0 Hempty Hun). }
  unfold run_transformation.
  set (e := populate_dimensions any_order (delete_previous_info d)) in *.
  assert (Hempty : rows (jobs e) = []) by reflexivity.
  assert (Hstg : staging_jobs e = staging_jobs d) by reflexivity.
  clearbody e.
  rewrite populate_job_skills_with.
  change (jobs (with_job_skills ?t ?x)) with (jobs x).
  destruct (populate_jobs_rows e) as (new & Hr & Hc).
  rewrite Hr, Hempty. cbn [app].
  pose proof (flat_map_singletons (job_joined e)
                (order_by (fun a b => (Staging.id a <=? Staging.id b)%Z)
                   (filter job_qualifies (staging_jobs e)))
                (fun s _ => Hone s)) as HF.
  fold (jobs_select e) in HF.
  assert (Hlen : List.length (jobs_select e) = jobs_total_rows e).
  { rewrite (Forall2_length HF), order_by_length. reflexivity. }
  assert (Hall : firstn (jobs_batches e * BATCH_SIZE) (jobs_select e)
                 = jobs_select e).
  { apply firstn_all2.
    pose proof (offsets_reach BATCH_SIZE (jobs_total_rows e) BATCH_SIZE_pos
                  (jobs_total_rows e) 0) as H.
    unfold jobs_batches. lia. }
  rewrite Hall in Hc. rewrite <- Hstg. split.
  - rewrite <- Hc in HF. clear - HF.
    remember (order_by _ _) as l eqn:El. clear El.
    revert l HF. induction new as [|j new IH]; intros l HF;
      inversion HF; subst; constructor.
    + match goal with H : In _ (job_joined _ _) |- _ =>
        apply in_job_joined_parts in H as (c & lo & p & st & Hv & _)
      end.
      now exists c, lo, p, st.
    + now apply IH.
  - rewrite <- (length_map Job.cols), Hc, Hlen. reflexivity.
Qed.

End OneJobPerRow.

(** The one posting of [acme_db] gives one job row. *)
Lemma run_transformation_one_job_per_row_witness :
  List.length (rows (jobs (run_transformation in_order acme_db))) = 1.
Proof.
  apply (proj2 (run_transformation_one_job_per_row in_order in_order_perm
                  acme_db
                  (fun s1 s2 H1 H2 _ _ =>
                     match H1, H2 with
                     | or_introl E1, or_introl E2 =>
                         conj (f_equal Staging.job_country
                                 (eq_trans (eq_sym E1) E2))
                              (f_equal Staging.job_location
                                 (eq_trans (eq_sym E1) E2))
                     | or_intror F, _ => match F with end
                     | _, or_intror F => match F with end
                     end))).
Defined.

(** ** What the bridge table refers to *)

Lemma in_bridge_joined (d : db) (p : Z * Z) :
  In p (bridge_joined d)
  <-> exists j stg s_name s_map,
        In j (rows (jobs d)) /\ In stg (staging_jobs d)
        /\ bridge_on j stg = true
        /\ In s_name (unnest (Staging.job_skills stg))
        /\ In s_map (rows (skills d)) /\ skill_on s_name s_map = true
        /\ p = (Job.job_id j, Skill.skill_id s_map).
Proof.
  unfold bridge_joined. rewrite in_flat_map. split.
  - intros (j & Hj & H).
    apply in_flat_map in H as (stg & Hstg & H).
    apply in_flat_map in H as (s_name & Hn & H).
    apply in_map_iff in H as (s_map & <- & Hm).
    apply filter_In in Hstg as [Hstg Hon].
    apply filter_In in Hm as [Hm Hsk].
    now exists j, stg, s_name, s_map.
  - intros (j & stg & s_name & s_map & Hj & Hstg & Hon & Hn & Hm & Hsk & ->).
    exists j. split; [exact Hj|].
    apply in_flat_map. exists stg. split; [now apply filter_In|].
    apply in_flat_map. exists s_name. split; [exact Hn|].
    apply in_map_iff. exists s_map. split; [reflexivity|].
    now apply filter_In.
Qed.

(** The pairs of the bridge table after [populate_job_skills]: those it
    had, and those of the joins. *)
Lemma populate_job_skills_pairs (d : db) (p : Z * Z) :
  In p (map pair_of (job_skills (populate_job_skills d)))
  <-> In p (map pair_of (job_skills d)) \/ In p (bridge_joined d).
Proof.
  rewrite populate_job_skills_with.
  change (job_skills (with_job_skills ?t ?x)) with t.
  destruct (insert_job_skills_pairs (bridge_select d) (job_skills d))
    as (new & H1 & _ & H3 & H4 & _).
  rewrite H1, in_app_iff.
  assert (Hsel : forall q, In q (bridge_select d) <-> In q (bridge_joined d)).
  { intros q. unfold bridge_select. split; intros H.
    - now apply (Permutation_in _ (order_by_perm _ _)) in H.
    - now apply (Permutation_in _ (Permutation_sym (order_by_perm _ _))). }
  split.
  - intros [H|H]; [now left|right]. apply Hsel. now apply H3.
  - intros [H|H]; [now left|]. apply Hsel in H. now apply H4.
Qed.

Section BridgeRows.

Variable any_order : forall A : Type, list A -> list A.

(** X6: After a full run the bridge table holds exactly the pairs of the
    joins, each once: a pair is there when, and only when, its job id is
    that of a job row whose title and posted date equal those of a staging
    row, and its skill id that of a skill row whose name equals, lower-cased,
    a trimmed and lower-cased element of the skill list of that staging
    row.  So no bridge row refers to a job or a skill that is not there. *)
Theorem run_transformation_bridge_rows (d : db) :
  let r := run_transformation any_order d in
  (forall p,
     In p (map pair_of (job_skills r))
     <-> exists j stg s_name s_map,
           In j (rows (jobs r)) /\ In stg (staging_jobs d)
           /\ bridge_on j stg = true
           /\ In s_name (unnest (Staging.job_skills stg))
           /\ In s_map (rows (skills r)) /\ skill_on s_name s_map = true
           /\ p = (Job.job_id j, Skill.skill_id s_map))
  /\ NoDup (map pair_of (job_skills r))
  /\ Forall
       (fun b =>
          In (JobSkill.job_id b) (map Job.job_id (rows (jobs r)))
          /\ In (JobSkill.skill_id b) (map Skill.skill_id (rows (skills r))))
       (job_skills r).
Proof.
  intros r. subst r. unfold run_transformation.
  set (e := populate_dimensions any_order (delete_previous_info d)).
  assert (Hempty : job_skills e = []) by reflexivity.
  assert (Hstg : staging_jobs e = staging_jobs d) by reflexivity.
  clearbody e.
  set (f := populate_jobs e).
  assert (Hf : job_skills f = [] /\ staging_jobs f = staging_jobs d).
  { subst f. rewrite populate_jobs_with. now split. }
  destruct Hf as [Hf1 Hf2]. clearbody f. clear e Hempty Hstg.
  assert (Hiff : forall p,
     In p (map pair_of (job_skills (populate_job_skills f)))
     <-> exists j stg s_name s_map,
           In j (rows (jobs (populate_job_skills f)))
           /\ In stg (staging_jobs d)
           /\ bridge_on j stg = true
           /\ In s_name (unnest (Staging.job_skills stg))
           /\ In s_map (rows (skills (populate_job_skills f)))
           /\ skill_on s_name s_map = true
           /\ p = (Job.job_id j, Skill.skill_id s_map)).
  { intros p. rewrite populate_job_skills_pairs, Hf1, <- Hf2.
    rewrite in_bridge_joined. rewrite populate_job_skills_with.
    cbn [jobs skills with_job_skills map In]. tauto. }
  split; [exact Hiff|]. split.
  - rewrite populate_job_skills_with.
    change (job_skills (with_job_skills ?t ?x)) with t.
    destruct (insert_job_skills_pairs (bridge_select f) (job_skills f))
      as (new & H1 & _ & _ & _ & H5).
    rewrite H1. apply H5. rewrite Hf1. constructor.
  - apply Forall_forall. intros b Hb.
    apply (in_map pair_of) in Hb. apply Hiff in Hb
      as (j & stg & s_name & s_map & Hj & _ & _ & _ & Hm & _ & E).
    unfold pair_of in E. inversion E as [[E1 E2]]. split.
    + rewrite E1. now apply (in_map Job.job_id).
    + rewrite E2. now apply (in_map Skill.skill_id).
Qed.

End BridgeRows.

(** ** The title the fact populator stores *)

Lemma flat_map_length_ge {A B : Type} (f : A -> list B) (l : list A) :
  (forall a, f a <> []) -> List.length l <= List.length (flat_map f l).
Proof.
  intros H. induction l as [|a l IH]; simpl; [lia|].
  rewrite length_app. specialize (H a).
  destruct (f a); [contradiction|]. simpl. lia.
Qed.

(** The SELECT of the fact populator has a row at least for every staging
    row the count query counts. *)
Lemma jobs_select_length (d : db) :
  jobs_total_rows d <= List.length (jobs_select d).
Proof.
  unfold jobs_total_rows, jobs_select.
  rewrite <- (order_by_length (fun a b => (Staging.id a <=? Staging.id b)%Z)
                (filter job_qualifies (staging_jobs d))).
  apply flat_map_length_ge. apply job_joined_not_nil.
Qed.

(** C9: the fact populator inserts the first rows of its SELECT, as many as
    the staging rows that qualify at least, and every qualifying staging
    row has a job among them when the SELECT has no more rows than the
    count.  A row it inserts stores the staging row's raw title when that
    is not NULL and its title-short otherwise, so its job_title is never
    NULL.  The bridge stage that follows adds the pairs of the jobs whose
    stored, coalesced title equals the raw title of a staging row with the
    same posted date, none of them NULL; so a job whose staging row has
    no raw title is not re-matched to that row. *)
Theorem populate_jobs_coalesced_title (d : db) :
  exists new,
    rows (jobs (populate_jobs d)) = rows (jobs d) ++ new
    /\ map Job.cols new
       = firstn (jobs_batches d * BATCH_SIZE) (jobs_select d)
    /\ jobs_total_rows d <= List.length new
    /\ (List.length (jobs_select d) = jobs_total_rows d ->
        forall s,
          In s (staging_jobs d) -> job_qualifies s = true ->
          exists j, In j new /\ In (Job.cols j) (job_joined d s))
    /\ Forall
         (fun j => exists s,
            In s (staging_jobs d)
            /\ Job.job_title (Job.cols j)
               = match Staging.job_title s with
                 | Some t => Some t
                 | None => Staging.job_title_short s
                 end
            /\ Job.job_title (Job.cols j) <> None
            /\ (Staging.job_title s = None -> bridge_on j s = false))
         new
    /\ (forall p,
          In p (map pair_of
                  (job_skills (populate_job_skills (populate_jobs d))))
          <-> In p (map pair_of (job_skills d))
              \/ exists j stg s_name s_map,
                   In j (rows (jobs d) ++ new)
                   /\ In stg (staging_jobs d)
                   /\ (exists t, Job.job_title (Job.cols j) = Some t
                                 /\ Staging.job_title stg = Some t)
                   /\ (exists q, Job.job_posted_date (Job.cols j) = Some q
                                 /\ Staging.job_posted_date stg = Some q)
                   /\ In s_name (unnest (Staging.job_skills stg))
                   /\ In s_map (rows (skills d))
                   /\ skill_on s_name s_map = true
                   /\ p = (Job.job_id j, Skill.skill_id s_map)).
Proof.
  destruct (populate_jobs_rows d) as (new & Hr & Hc).
  exists new. split; [exact Hr|]. split; [exact Hc|].
  assert (Hreach : jobs_total_rows d <= jobs_batches d * BATCH_SIZE).
  { pose proof (offsets_reach BATCH_SIZE (jobs_total_rows d) BATCH_SIZE_pos
                  (jobs_total_rows d) 0) as H.
    unfold jobs_batches. lia. }
  split; [|split; [|split]].
  - rewrite <- (length_map Job.cols), Hc, length_firstn.
    pose proof (jobs_select_length d). lia.
  - intros Hlen s Hs Hq.
    rewrite firstn_all2 in Hc by lia.
    pose proof (job_joined_not_nil d s) as Hne.
    destruct (job_joined d s) as [|v vs] eqn:E; [contradiction|].
    assert (Hv : In v (jobs_select d)).
    { apply in_jobs_select. exists s. rewrite E. repeat split; auto.
      now left. }
    rewrite <- Hc in Hv. apply in_map_iff in Hv as (j & Hj & Hin).
    exists j. split; [exact Hin|]. rewrite Hj. now left.
  - apply Forall_forall. intros j Hj.
    assert (Hv : In (Job.cols j) (jobs_select d)).
    { apply (in_firstn (jobs_batches d * BATCH_SIZE)). rewrite <- Hc.
      now apply in_map. }
    apply in_jobs_select in Hv as (s & Hs & Hq & Hjoin).
    apply in_job_joined in Hjoin as (Ht & _ & _).
    exists s. split; [exact Hs|]. split; [exact Ht|].
    split; [rewrite Ht; now apply coalesce2_title|].
    intros Hnull. destruct (bridge_on j s) eqn:Hon; [|reflexivity].
    apply bridge_on_spec in Hon as ((t & _ & Hraw) & _). congruence.
  - intros p. rewrite populate_job_skills_pairs, in_bridge_joined.
    rewrite populate_jobs_with.
    cbn [jobs skills staging_jobs job_skills with_jobs].
    rewrite populate_jobs_with in Hr. cbn [jobs with_jobs] in Hr.
    rewrite Hr. split.
    + intros [H|(j & stg & n & m & Hj & Hs & Hon & Hn & Hm & Hsk & E)];
        [now left|right].
      apply bridge_on_spec in Hon as [Ht Hq].
      now exists j, stg, n, m.
    + intros [H|(j & stg & n & m & Hj & Hs & Ht & Hq & Hn & Hm & Hsk & E)];
        [now left|right].
      exists j, stg, n, m. repeat split; try assumption.
      apply bridge_on_spec. now split.
Qed.

(** ** The Skill Taxonomy Builder: what it extracts and inserts *)

Lemma set_add_in (x y : string) (s : list string) :
  In y (set_add x s) <-> In y s \/ y = x.
Proof.
  unfold set_add. destruct (in_dec string_dec x s) as [H|H].
  - split; [now left|]. intros [Hy| ->]; assumption.
  - rewrite in_app_iff. simpl. intuition.
Qed.

Lemma add_skills_in (skills : list (option string)) :
  forall (set : list string) (n : string),
    In n (add_skills skills set)
    <-> In n set
        \/ exists sk, In (Some sk) skills /\ sk <> ""
                      /\ n = Str.py_strip (Str.py_lower sk).
Proof.
  unfold add_skills.
  induction skills as [|o skills IH]; intros set n; simpl.
  - split; [now left|]. intros [H|(sk & [] & _)]. exact H.
  - rewrite IH. destruct o as [sk|].
    + destruct sk as [|c r]; simpl.
      * split.
        -- intros [H|(sk & H1 & H2)]; [now left|right].
           exists sk. split; [now right|exact H2].
        -- intros [H|(sk & [H1|H1] & H2 & H3)]; [now left| |].
           ++ inversion H1; subst. now contradiction H2.
           ++ right. now exists sk.
      * rewrite set_add_in. split.
        -- intros [[H|H]|(sk & H1 & H2)].
           ++ now left.
           ++ right. exists (String c r). split; [now left|].
              split; [discriminate|exact H].
           ++ right. exists sk. split; [now right|exact H2].
        -- intros [H|(sk & [H1|H1] & H2 & H3)].
           ++ left. now left.
           ++ inversion H1; subst. left. now right.
           ++ right. now exists sk.
    + split.
      * intros [H|(sk & H1 & H2)]; [now left|right].
        exists sk. split; [now right|exact H2].
      * intros [H|(sk & [H1|H1] & H2)]; [now left|discriminate|].
        right. now exists sk.
Qed.

Lemma dict_mem_in {V} (k : string) (d : list (string * V)) :
  dict_mem k d = true <-> exists v, In (k, v) d.
Proof.
  induction d as [|[k' v'] d IH]; simpl.
  - split; [discriminate|]. now intros (v & []).
  - rewrite orb_true_iff, IH, String.eqb_eq. split.
    + intros [->|(v & Hv)]; [exists v'; now left|exists v; now right].
    + intros (v & [H|H]); [inversion H; now left|right; now exists v].
Qed.

Lemma dict_update_in {V} (k : string) (f : V -> V) (d : list (string * V))
    (c : string) (v : V) :
  In (c, v) (dict_update k f d)
  -> In (c, v) d \/ (c = k /\ exists v0, In (k, v0) d /\ v = f v0).
Proof.
  induction d as [|[k' v'] d IH]; simpl; [tauto|].
  destruct (String.eqb_spec k k') as [->|Hne]; simpl.
  - intros [H|H]; [|left; now right].
    inversion H; subst. right. split; [reflexivity|].
    exists v'. split; [now left|reflexivity].
  - intros [H|H]; [left; now left|].
    destruct (IH H) as [H'|(-> & v0 & H1 & H2)]; [left; now right|].
    right. split; [reflexivity|]. exists v0. split; [now right|exact H2].
Qed.

Lemma dict_update_keeps {V} (k : string) (f : V -> V) (d : list (string * V))
    (c : string) (v : V) :
  In (c, v) d ->
  In (c, v) (dict_update k f d) \/ (c = k /\ In (k, f v) (dict_update k f d)).
Proof.
  induction d as [|[k' v'] d IH]; simpl; [tauto|].
  destruct (String.eqb_spec k k') as [->|Hne]; simpl.
  - intros [H|H]; [|left; now right].
    inversion H; subst. right. split; [reflexivity|now left].
  - intros [H|H]; [left; now left|].
    destruct (IH H) as [H'|(-> & H')]; [left; now right|].
    right. split; [reflexivity|now right].
Qed.

Lemma dict_update_hit {V} (k : string) (f : V -> V) (d : list (string * V)) :
  dict_mem k d = true -> exists v0, In (k, f v0) (dict_update k f d).
Proof.
  induction d as [|[k' v'] d IH]; simpl; [discriminate|].
  destruct (String.eqb_spec k k') as [->|Hne]; simpl.
  - intros _. exists v'. now left.
  - intros H. destruct (IH H) as (v0 & Hv). exists v0. now right.
Qed.

(** One item of a typed-skills dict: the category is recorded, and the
    skills of a list are added under it. *)
Lemma extract_item_spec (acc : extracted) (cat : string) (v : skills_value) :
  (forall c,
     In c (all_categories (extract_item acc (cat, v)))
     <-> In c (all_categories acc) \/ c = cat)
  /\ (forall c,
        dict_mem c (skills_by_category (extract_item acc (cat, v))) = true
        <-> dict_mem c (skills_by_category acc) = true \/ c = cat)
  /\ (forall c n,
        has_skill (skills_by_category (extract_item acc (cat, v))) c n
        <-> has_skill (skills_by_category acc) c n
            \/ (c = cat
                /\ exists sks sk,
                     v = SkillList sks /\ In (Some sk) sks /\ sk <> ""
                     /\ n = Str.py_strip (Str.py_lower sk))).
Proof.
  assert (Hdef_mem : forall c,
    dict_mem c (dict_setdefault cat (skills_by_category acc)) = true
    <-> dict_mem c (skills_by_category acc) = true \/ c = cat).
  { intros c. unfold dict_setdefault.
    destruct (dict_mem cat (skills_by_category acc)) eqn:E.
    - split; [now left|]. now intros [H| ->].
    - rewrite !dict_mem_in. split.
      + intros (l & Hl). apply in_app_or in Hl as [Hl|[Hl|[]]].
        * left. now exists l.
        * inversion Hl. now right.
      + intros [(l & Hl)| ->].
        * exists l. apply in_or_app. now left.
        * exists []. apply in_or_app. right. now left. }
  assert (Hdef_has : forall c n,
    has_skill (dict_setdefault cat (skills_by_category acc)) c n
    <-> has_skill (skills_by_category acc) c n).
  { intros c n. unfold dict_setdefault, has_skill.
    destruct (dict_mem cat (skills_by_category acc)); [tauto|].
    split.
    - intros (l & Hl & Hn). apply in_app_or in Hl as [Hl|[Hl|[]]].
      + now exists l.
      + inversion Hl; subst. contradiction.
    - intros (l & Hl & Hn). exists l. split; [|exact Hn].
      apply in_or_app. now left. }
  unfold extract_item. cbn [fst snd].
  destruct v as [sks|]; cbn [all_categories skills_by_category].
  - split; [intros c; apply set_add_in|]. split.
    + intros c. rewrite <- Hdef_mem, !dict_mem_in. split.
      * intros (l & Hl). apply dict_update_in in Hl
          as [Hl|(-> & l0 & Hl & _)]; eauto.
      * intros (l & Hl). apply (dict_update_keeps cat (add_skills sks)) in Hl
          as [Hl|(-> & Hl)]; eauto.
    + intros c n. rewrite <- Hdef_has. split.
      * intros (l & Hl & Hn). apply dict_update_in in Hl
          as [Hl|(-> & l0 & Hl & ->)].
        -- left. now exists l.
        -- apply add_skills_in in Hn as [Hn|(sk & H1 & H2 & H3)].
           ++ left. now exists l0.
           ++ right. split; [reflexivity|]. now exists sks, sk.
      * intros [(l & Hl & Hn)|(-> & sks' & sk & E & H1 & H2 & H3)].
        -- apply (dict_update_keeps cat (add_skills sks)) in Hl
             as [Hl|(-> & Hl)].
           ++ now exists l.
           ++ exists (add_skills sks l). split; [exact Hl|].
              apply add_skills_in. now left.
        -- inversion E; subst sks'.
           assert (Hm : dict_mem cat
                          (dict_setdefault cat (skills_by_category acc))
                        = true) by (apply Hdef_mem; now right).
           apply (dict_update_hit cat (add_skills sks)) in Hm as (l & Hl).
           exists (add_skills sks l). split; [exact Hl|].
           apply add_skills_in. right. now exists sk.
  - split; [intros c; apply set_add_in|]. split; [exact Hdef_mem|].
    intros c n. rewrite Hdef_has. split; [now left|].
    intros [H|(_ & sks & sk & E & _)]; [exact H|discriminate].
Qed.

Lemma extract_items_spec (items : list (string * skills_value)) :
  forall acc,
    (forall c,
       In c (all_categories (fold_left extract_item items acc))
       <-> In c (all_categories acc) \/ exists v, In (c, v) items)
    /\ (forall c,
          dict_mem c (skills_by_category (fold_left extract_item items acc))
          = true
          <-> dict_mem c (skills_by_category acc) = true
              \/ exists v, In (c, v) items)
    /\ (forall c n,
          has_skill (skills_by_category (fold_left extract_item items acc))
            c n
          <-> has_skill (skills_by_category acc) c n
              \/ exists sks sk,
                   In (c, SkillList sks) items /\ In (Some sk) sks
                   /\ sk <> "" /\ n = Str.py_strip (Str.py_lower sk)).
Proof.
  induction items as [|[cat v] items IH]; intros acc; cbn [fold_left].
  - split; [|split].
    + intros c. split; [now left|]. now intros [H|(v & [])].
    + intros c. split; [now left|]. now intros [H|(v & [])].
    + intros c n. split; [now left|].
      now intros [H|(sks & sk & [] & _)].
  - destruct (IH (extract_item acc (cat, v))) as (I1 & I2 & I3).
    destruct (extract_item_spec acc cat v) as (E1 & E2 & E3).
    split; [|split].
    + intros c. rewrite I1, E1. split.
      * intros [[H| ->]|(w & Hw)].
        -- now left.
        -- right. exists v. now left.
        -- right. exists w. now right.
      * intros [H|(w & [Hw|Hw])].
        -- left. now left.
        -- inversion Hw. left. now right.
        -- right. now exists w.
    + intros c. rewrite I2, E2. split.
      * intros [[H| ->]|(w & Hw)].
        -- now left.
        -- right. exists v. now left.
        -- right. exists w. now right.
      * intros [H|(w & [Hw|Hw])].
        -- left. now left.
        -- inversion Hw. left. now right.
        -- right. now exists w.
    + intros c n. rewrite I3, E3. split.
      * intros [[H|(-> & sks & sk & -> & H)]|(sks & sk & H1 & H)].
        -- now left.
        -- right. exists sks, sk. split; [now left|exact H].
        -- right. exists sks, sk. split; [now right|exact H].
      * intros [H|(sks & sk & [H1|H1] & H)].
        -- left. now left.
        -- inversion H1; subst. left. right. split; [reflexivity|].
           now exists sks, sk.
        -- right. now exists sks, sk.
Qed.

Lemma extract_row_dict (acc : extracted)
    (items : list (string * skills_value)) :
  extract_row acc (JDict items) = fold_left extract_item items acc.
Proof. now destruct items. Qed.

Lemma extract_rows_spec (rs : list jsonb) :
  forall acc,
    (forall c,
       In c (all_categories (fold_left extract_row rs acc))
       <-> In c (all_categories acc)
           \/ exists items v, In (JDict items) rs /\ In (c, v) items)
    /\ (forall c,
          dict_mem c (skills_by_category (fold_left extract_row rs acc))
          = true
          <-> dict_mem c (skills_by_category acc) = true
              \/ exists items v, In (JDict items) rs /\ In (c, v) items)
    /\ (forall c n,
          has_skill (skills_by_category (fold_left extract_row rs acc)) c n
          <-> has_skill (skills_by_category acc) c n
              \/ exists items sks sk,
                   In (JDict items) rs /\ In (c, SkillList sks) items
                   /\ In (Some sk) sks /\ sk <> ""
                   /\ n = Str.py_strip (Str.py_lower sk)).
Proof.
  induction rs as [|r rs IH]; intros acc; cbn [fold_left].
  - split; [|split].
    + intros c. split; [now left|]. now intros [H|(i & v & [] & _)].
    + intros c. split; [now left|]. now intros [H|(i & v & [] & _)].
    + intros c n. split; [now left|].
      now intros [H|(i & sks & sk & [] & _)].
  - destruct (IH (extract_row acc r)) as (I1 & I2 & I3).
    destruct r as [items|].
    + rewrite extract_row_dict in *.
      destruct (extract_items_spec items acc) as (E1 & E2 & E3).
      split; [|split].
      * intros c. rewrite I1, E1. split.
        -- intros [[H|(v & Hv)]|(i & v & Hi & Hv)].
           ++ now left.
           ++ right. exists items, v. split; [now left|exact Hv].
           ++ right. exists i, v. split; [now right|exact Hv].
        -- intros [H|(i & v & [Hi|Hi] & Hv)].
           ++ left. now left.
           ++ inversion Hi; subst. left. right. now exists v.
           ++ right. now exists i, v.
      * intros c. rewrite I2, E2. split.
        -- intros [[H|(v & Hv)]|(i & v & Hi & Hv)].
           ++ now left.
           ++ right. exists items, v. split; [now left|exact Hv].
           ++ right. exists i, v. split; [now right|exact Hv].
        -- intros [H|(i & v & [Hi|Hi] & Hv)].
           ++ left. now left.
           ++ inversion Hi; subst. left. right. now exists v.
           ++ right. now exists i, v.
      * intros c n. rewrite I3, E3. split.
        -- intros [[H|(sks & sk & H)]|(i & sks & sk & Hi & H)].
           ++ now left.
           ++ right. exists items, sks, sk. split; [now left|exact H].
           ++ right. exists i, sks, sk. split; [now right|exact H].
        -- intros [H|(i & sks & sk & [Hi|Hi] & H)].
           ++ left. now left.
           ++ inversion Hi; subst. left. right. now exists sks, sk.
           ++ right. now exists i, sks, sk.
    + cbn [extract_row] in *. split; [|split].
      * intros c. rewrite I1. split.
        -- intros [H|(i & v & Hi & Hv)]; [now left|right].
           exists i, v. split; [now right|exact Hv].
        -- intros [H|(i & v & [Hi|Hi] & Hv)];
             [now left|discriminate|right; now exists i, v].
      * intros c. rewrite I2. split.
        -- intros [H|(i & v & Hi & Hv)]; [now left|right].
           exists i, v. split; [now right|exact Hv].
        -- intros [H|(i & v & [Hi|Hi] & Hv)];
             [now left|discriminate|right; now exists i, v].
      * intros c n. rewrite I3. split.
        -- intros [H|(i & sks & sk & Hi & H)]; [now left|right].
           exists i, sks, sk. split; [now right|exact H].
        -- intros [H|(i & sks & sk & [Hi|Hi] & H)];
             [now left|discriminate|right; now exists i, sks, sk].
Qed.

Section SkillBuilder.

Variable any_order : forall A : Type, list A -> list A.
Hypothesis any_order_perm :
  forall (A : Type) (l : list A), Permutation (any_order A l) l.

Lemma in_type_skills_select (stg : list Staging.row) (j : jsonb) :
  In j (type_skills_select any_order stg)
  <-> exists s, In s stg /\ Staging.job_type_skills s = Some j.
Proof.
  unfold type_skills_select.
  rewrite (in_select_distinct any_order any_order_perm), in_flat_map.
  split.
  - intros (s & Hs & H). exists s. split; [exact Hs|].
    destruct (Staging.job_type_skills s) as [x|]; [|contradiction].
    destruct H as [->|[]]. reflexivity.
  - intros (s & Hs & E). exists s. split; [exact Hs|]. rewrite E. now left.
Qed.

Lemma in_flat_skills_select (stg : list Staging.row) (x : string) :
  In x (flat_skills_select any_order stg)
  <-> exists s l, In s stg /\ Staging.job_skills s = Some l /\ In x l.
Proof.
  unfold flat_skills_select.
  rewrite (in_select_distinct any_order any_order_perm), in_flat_map.
  split.
  - intros (s & Hs & H). destruct (Staging.job_skills s) as [l|] eqn:E;
      [|contradiction]. now exists s, l.
  - intros (s & l & Hs & E & H). exists s. split; [exact Hs|].
    now rewrite E.
Qed.

(** What the extraction loop has collected when it ends. *)
Lemma extracted_spec (stg : list Staging.row) :
  let ex := fold_left extract_row (type_skills_select any_order stg)
              (mkExtracted [] []) in
  (forall c, In c (all_categories ex) <-> typed_category stg c)
  /\ (forall c, dict_mem c (skills_by_category ex) = true
                <-> typed_category stg c)
  /\ (forall c n, has_skill (skills_by_category ex) c n
                  <-> typed_skill stg c n).
Proof.
  intros ex. subst ex.
  destruct (extract_rows_spec (type_skills_select any_order stg)
              (mkExtracted [] [])) as (E1 & E2 & E3).
  split; [|split].
  - intros c. rewrite E1. cbn [all_categories In]. split.
    + intros [[]|(items & v & Hi & Hv)].
      apply in_type_skills_select in Hi as (s & Hs & E).
      now exists s, items, v.
    + intros (s & items & v & Hs & E & Hv). right. exists items, v.
      split; [|exact Hv]. apply in_type_skills_select. now exists s.
  - intros c. rewrite E2. cbn [skills_by_category dict_mem]. split.
    + intros [H|(items & v & Hi & Hv)]; [discriminate|].
      apply in_type_skills_select in Hi as (s & Hs & E).
      now exists s, items, v.
    + intros (s & items & v & Hs & E & Hv). right. exists items, v.
      split; [|exact Hv]. apply in_type_skills_select. now exists s.
  - intros c n. rewrite E3. split.
    + intros [(l & [] & _)|(items & sks & sk & Hi & H)].
      apply in_type_skills_select in Hi as (s & Hs & E).
      now exists s, items, sks, sk.
    + intros (s & items & sks & sk & Hs & E & H). right.
      exists items, sks, sk. split; [|exact H].
      apply in_type_skills_select. now exists s.
Qed.

Lemma in_any_order {A} (l : list A) (x : A) :
  In x (any_order A l) <-> In x l.
Proof.
  split; intros H.
  - now apply (Permutation_in _ (any_order_perm A l)).
  - now apply (Permutation_in _ (Permutation_sym (any_order_perm A l))).
Qed.

End SkillBuilder.

Lemma insert_skill_names (c : option Z) (names : list string)
    (t : table Skill.row) (n : string) :
  In n (map Skill.skill_name (rows (fold_left (insert_skill c) names t)))
  <-> In n (map Skill.skill_name (rows t)) \/ In n names.
Proof.
  apply (insert_keyed_in Skill.skill_name String.eqb
           (fun i k => Skill.mk i k c) String.eqb_eq (fun _ _ => eq_refl)).
Qed.

Lemma insert_skill_step (c : option Z) (t : table Skill.row) (n : string) :
  (In n (map Skill.skill_name (rows t))
   /\ rows (insert_skill c t n) = rows t)
  \/ (~ In n (map Skill.skill_name (rows t))
      /\ rows (insert_skill c t n) = rows t ++ [Skill.mk (next_id t) n c]).
Proof.
  unfold insert_skill, insert_do_nothing.
  destruct (existsb _ (rows t)) eqn:E; cbn [rows].
  - left. split; [|reflexivity].
    apply existsb_exists in E as (r & Hr & Heq).
    apply String.eqb_eq in Heq. subst n. now apply in_map.
  - right. split; [|reflexivity].
    intros Hin. apply in_map_iff in Hin as (r & Hr1 & Hr2).
    assert (Hex : existsb (fun r => String.eqb (Skill.skill_name r) n)
                    (rows t) = true).
    { apply existsb_exists. exists r. split; [exact Hr2|].
      now apply String.eqb_eq. }
    congruence.
Qed.

(** The rows a sequence of INSERTs into skills adds: each carries the
    category of the INSERT and a name that was proposed and was not there. *)
Lemma insert_skill_new (c : option Z) (names : list string) :
  forall t, exists new,
    rows (fold_left (insert_skill c) names t) = rows t ++ new
    /\ Forall
         (fun sk => Skill.category_id sk = c
                    /\ In (Skill.skill_name sk) names
                    /\ ~ In (Skill.skill_name sk)
                          (map Skill.skill_name (rows t)))
         new.
Proof.
  induction names as [|n names IH]; intros t; cbn [fold_left].
  - exists []. now rewrite app_nil_r.
  - destruct (IH (insert_skill c t n)) as (new & Hr & Hn).
    destruct (insert_skill_step c t n) as [[Hin E]|[Hnin E]];
      rewrite E in Hr, Hn.
    + exists new. split; [exact Hr|].
      eapply Forall_impl; [|exact Hn]. cbv beta.
      intros sk (H1 & H2 & H3). split; [exact H1|]. split; [now right|].
      exact H3.
    + exists (Skill.mk (next_id t) n c :: new). split.
      * rewrite Hr, <- app_assoc. reflexivity.
      * constructor.
        -- cbn. split; [reflexivity|]. split; [now left|exact Hnin].
        -- eapply Forall_impl; [|exact Hn]. cbv beta.
           intros sk (H1 & H2 & H3). split; [exact H1|].
           split; [now right|]. intros Hin. apply H3.
           rewrite map_app. apply in_or_app. now left.
Qed.

(** The categorized phase: the loop over the items of the dict. *)
Lemma categorized_new (order : list string -> list string)
    (cmap : string -> option Z) (by_cat : list (string * list string)) :
  (forall l x, In x (order l) <-> In x l) ->
  forall t,
    let t' :=
      fold_left
        (fun t item =>
           fold_left (insert_skill (cmap (fst item))) (order (snd item)) t)
        by_cat t in
    (exists new,
       rows t' = rows t ++ new
       /\ Forall
            (fun sk => exists cat,
               Skill.category_id sk = cmap cat
               /\ has_skill by_cat cat (Skill.skill_name sk)
               /\ ~ In (Skill.skill_name sk) (map Skill.skill_name (rows t)))
            new)
    /\ (forall n,
          In n (map Skill.skill_name (rows t'))
          <-> In n (map Skill.skill_name (rows t))
              \/ exists cat, has_skill by_cat cat n).
Proof.
  intros Hord.
  induction by_cat as [|[cat l] by_cat IH]; intros t; cbn [fold_left].
  - split.
    + exists []. now rewrite app_nil_r.
    + intros n. split; [now left|].
      now intros [H|(c & x & [] & _)].
  - cbn [fst snd].
    destruct (IH (fold_left (insert_skill (cmap cat)) (order l) t))
      as ((new2 & Hr2 & Hn2) & Hnames).
    destruct (insert_skill_new (cmap cat) (order l) t) as (new1 & Hr1 & Hn1).
    split.
    + exists (new1 ++ new2). split.
      * cbv zeta in Hr2. rewrite Hr2, Hr1, <- app_assoc. reflexivity.
      * apply Forall_app. split.
        -- eapply Forall_impl; [|exact Hn1]. cbv beta.
           intros sk (H1 & H2 & H3). exists cat. split; [exact H1|].
           split; [|exact H3]. exists l. split; [now left|].
           now apply Hord.
        -- eapply Forall_impl; [|exact Hn2]. cbv beta.
           intros sk (c & H1 & (x & Hx & Hin) & H3). exists c.
           split; [exact H1|]. split; [exists x; split; [now right|exact Hin]|].
           intros Hin'. apply H3. rewrite Hr1, map_app.
           apply in_or_app. now left.
    + intros n. cbv zeta in Hnames. rewrite Hnames, insert_skill_names.
      split.
      * intros [[H|H]|(c & x & Hx & Hin)].
        -- now left.
        -- right. exists cat, l. split; [now left|now apply Hord].
        -- right. exists c, x. split; [now right|exact Hin].
      * intros [H|(c & x & [Hx|Hx] & Hin)].
        -- left. now left.
        -- inversion Hx; subst. left. right. now apply Hord.
        -- right. exists c, x. now split.
Qed.

Lemma fold_insert_uncategorized (f : string -> string) (flat : list string) :
  forall t,
    fold_left (fun t row => insert_skill None t (f row)) flat t
    = fold_left (insert_skill None) (map f flat) t.
Proof.
  induction flat as [|x flat IH]; intros t; simpl; [reflexivity|]. apply IH.
Qed.

Section SkillBuilderRows.

Variable any_order : forall A : Type, list A -> list A.
Hypothesis any_order_perm :
  forall (A : Type) (l : list A), Permutation (any_order A l) l.

Lemma typed_skill_category (stg : list Staging.row) (c n : string) :
  typed_skill stg c n -> typed_category stg c.
Proof.
  intros (s & items & sks & sk & Hs & E & Hi & _).
  now exists s, items, (SkillList sks).
Qed.

Lemma builder_category_names (d : db) (c : string) :
  In c (category_names (populate_skill_categories_and_skills any_order d))
  <-> In c (category_names d) \/ typed_category (staging_jobs d) c.
Proof.
  unfold category_names, populate_skill_categories_and_skills.
  cbn [skill_categories with_skills with_skill_categories].
  change insert_category
    with (insert_keyed SkillCategory.category_name String.eqb
            SkillCategory.mk).
  rewrite (insert_keyed_in SkillCategory.category_name String.eqb
             SkillCategory.mk String.eqb_eq (fun _ _ => eq_refl)).
  rewrite (in_any_order any_order any_order_perm).
  destruct (extracted_spec any_order any_order_perm (staging_jobs d))
    as (E1 & _ & _).
  cbv zeta in E1. now rewrite E1.
Qed.

(** The rows the builder adds to the skills table. *)
Lemma builder_skill_rows (d : db) :
  let r := populate_skill_categories_and_skills any_order d in
  (forall n,
     In n (map Skill.skill_name (rows (skills r)))
     <-> In n (map Skill.skill_name (rows (skills d)))
         \/ (exists c, typed_skill (staging_jobs d) c n)
         \/ flat_skill (staging_jobs d) n)
  /\ exists new,
       rows (skills r) = rows (skills d) ++ new
       /\ Forall
            (fun sk =>
               ~ In (Skill.skill_name sk)
                    (map Skill.skill_name (rows (skills d)))
               /\ category_justified (staging_jobs d)
                    (rows (skill_categories r)) sk)
            new.
Proof.
  intros r.
  assert (Hcat : forall c,
            typed_category (staging_jobs d) c ->
            In c (map SkillCategory.category_name (rows (skill_categories r))))
    by (intros c Hc; apply builder_category_names; now right).
  subst r. revert Hcat.
  unfold populate_skill_categories_and_skills.
  cbn [skills skill_categories with_skills with_skill_categories].
  destruct (extracted_spec any_order any_order_perm (staging_jobs d))
    as (_ & _ & E3).
  cbv zeta in E3. revert E3.
  generalize (fold_left extract_row
                (type_skills_select any_order (staging_jobs d))
                (mkExtracted [] [])).
  intros ex E3.
  generalize (fold_left insert_category (any_order string (all_categories ex))
                (skill_categories d)).
  intros cats Hcat.
  destruct (categorized_new (any_order string)
              (category_map_get (rows cats)) (skills_by_category ex)
              (in_any_order any_order any_order_perm) (skills d))
    as ((new1 & Hr1 & Hn1) & Hnames1).
  cbv zeta in Hr1, Hnames1. revert Hr1 Hnames1.
  generalize (fold_left
                (fun t item =>
                   fold_left
                     (insert_skill (category_map_get (rows cats) (fst item)))
                     (any_order string (snd item)) t)
                (skills_by_category ex) (skills d)).
  intros categorized Hr1 Hnames1.
  rewrite fold_insert_uncategorized.
  destruct (insert_skill_new None
              (map (fun row => Str.py_strip (Str.py_lower row))
                 (flat_skills_select any_order (staging_jobs d)))
              categorized) as (new2 & Hr2 & Hn2).
  assert (Hflat : forall n,
            In n (map (fun row => Str.py_strip (Str.py_lower row))
                    (flat_skills_select any_order (staging_jobs d)))
            <-> flat_skill (staging_jobs d) n).
  { intros n. rewrite in_map_iff. split.
    - intros (x & <- & Hx).
      apply (in_flat_skills_select any_order any_order_perm) in Hx
        as (s & l & Hs & E & Hl).
      now exists s, l, x.
    - intros (s & l & x & Hs & E & Hl & ->). exists x.
      split; [reflexivity|].
      apply (in_flat_skills_select any_order any_order_perm).
      now exists s, l. }
  split.
  - intros n. rewrite insert_skill_names, Hnames1, Hflat.
    split.
    + intros [[H|(c & H)]|H]; [now left| |now right; right].
      right. left. exists c. now apply E3.
    + intros [H|[(c & H)|H]]; [left; now left| |now right].
      left. right. exists c. now apply E3.
  - exists (new1 ++ new2). split.
    + rewrite Hr2, Hr1, <- app_assoc. reflexivity.
    + apply Forall_app. split.
      * eapply Forall_impl; [|exact Hn1]. cbv beta.
        intros sk (cat & H1 & H2 & H3). split; [exact H3|].
        apply E3 in H2. unfold category_justified. rewrite H1.
        pose proof (category_map_get_spec (rows cats) cat) as Hget.
        destruct (category_map_get (rows cats) cat) as [i|].
        -- destruct Hget as (c & Hc & Hid & Hname). exists c.
           split; [exact Hc|]. split; [exact Hid|]. now rewrite Hname.
        -- exfalso. apply Hget. apply Hcat.
           now apply typed_skill_category with (Skill.skill_name sk).
      * eapply Forall_impl; [|exact Hn2]. cbv beta.
        intros sk (H1 & H2 & H3). split.
        -- intros Hin. apply H3. apply Hnames1. now left.
        -- unfold category_justified. rewrite H1. split.
           ++ now apply Hflat.
           ++ intros c Hc. apply H3. apply Hnames1. right. exists c.
              now apply E3.
Qed.

End SkillBuilderRows.

Lemma insert_category_prefix (t : table SkillCategory.row) (c : string) :
  exists new, rows (insert_category t c) = rows t ++ new.
Proof.
  unfold insert_category, insert_do_nothing.
  destruct (existsb _ _); cbn [rows].
  - exists []. now rewrite app_nil_r.
  - now eexists.
Qed.

Section SkillBuilderTheorems.

Variable any_order : forall A : Type, list A -> list A.
Hypothesis any_order_perm :
  forall (A : Type) (l : list A), Permutation (any_order A l) l.

(** X7: The skill taxonomy builder only adds: the category and skill rows that
    were there stay, in place, in front of the new ones; a new skill row
    has a name that was not there.  Afterwards the category names are the
    old ones and the keys of the typed-skills dicts of the staging rows,
    and the skill names are the old ones, the lower-cased and stripped
    non-empty skills of the typed-skills lists, and the lower-cased and
    stripped elements of the flat skill lists. *)
Theorem skill_builder_adds (d : db) :
  let r := populate_skill_categories_and_skills any_order d in
  (exists new, rows (skill_categories r) = rows (skill_categories d) ++ new)
  /\ (exists new,
        rows (skills r) = rows (skills d) ++ new
        /\ Forall
             (fun sk => ~ In (Skill.skill_name sk)
                           (map Skill.skill_name (rows (skills d))))
             new)
  /\ (forall c,
        In c (category_names r)
        <-> In c (category_names d) \/ typed_category (staging_jobs d) c)
  /\ (forall n,
        In n (map Skill.skill_name (rows (skills r)))
        <-> In n (map Skill.skill_name (rows (skills d)))
            \/ (exists c, typed_skill (staging_jobs d) c n)
            \/ flat_skill (staging_jobs d) n).
Proof.
  intros r. subst r.
  destruct (builder_skill_rows any_order any_order_perm d)
    as (Hnames & new & Hr & Hn).
  split; [|split; [|split]].
  - unfold populate_skill_categories_and_skills.
    cbn [skill_categories with_skills with_skill_categories].
    generalize (any_order string
                  (all_categories
                     (fold_left extract_row
                        (type_skills_select any_order (staging_jobs d))
                        (mkExtracted [] [])))).
    intros cs. generalize (skill_categories d).
    induction cs as [|c cs IH]; intros t; cbn [fold_left].
    + exists []. now rewrite app_nil_r.
    + destruct (IH (insert_category t c)) as (new' & Hr').
      destruct (insert_category_prefix t c) as (new1 & E).
      rewrite E, <- app_assoc in Hr'. eexists. exact Hr'.
  - exists new. split; [exact Hr|].
    eapply Forall_impl; [|exact Hn]. now intros sk [H _].
  - intros c. apply (builder_category_names any_order any_order_perm).
  - exact Hnames.
Qed.

(** X8: After a full run the category names are exactly the keys of the
    typed-skills dicts of the staging rows, and the skill names exactly the
    lower-cased and stripped skills of the typed-skills lists and of the
    flat lists.  A skill row with a category refers to a category row that
    is there, under whose name some staging row lists the skill; a skill
    row without a category is a skill of the flat lists that no staging
    row lists under a category: categorized skills are never left
    without a category. *)
Theorem run_transformation_skill_rows (d : db) :
  let r := run_transformation any_order d in
  (forall c, In c (category_names r) <-> typed_category (staging_jobs d) c)
  /\ (forall n,
        In n (map Skill.skill_name (rows (skills r)))
        <-> (exists c, typed_skill (staging_jobs d) c n)
            \/ flat_skill (staging_jobs d) n)
  /\ Forall (category_justified (staging_jobs d) (rows (skill_categories r)))
            (rows (skills r)).
Proof.
  intros r. subst r.
  assert (E : skill_categories (run_transformation any_order d)
              = skill_categories
                  (populate_dimensions any_order (delete_previous_info d))
              /\ skills (run_transformation any_order d)
                 = skills
                     (populate_dimensions any_order (delete_previous_info d))).
  { unfold run_transformation.
    generalize (populate_dimensions any_order (delete_previous_info d)).
    intros e. rewrite populate_job_skills_with, populate_jobs_with.
    now split. }
  destruct E as [E1 E2]. unfold category_names. rewrite E1, E2.
  unfold populate_dimensions.
  set (e := populate_schedule_types any_order
              (populate_platforms any_order
                 (populate_locations any_order
                    (populate_companies any_order
                       (delete_previous_info d))))).
  assert (Hc : rows (skill_categories e) = []) by reflexivity.
  assert (Hs : rows (skills e) = []) by reflexivity.
  assert (Hstg : staging_jobs e = staging_jobs d) by reflexivity.
  clearbody e.
  destruct (builder_skill_rows any_order any_order_perm e)
    as (Hnames & new & Hr & Hn).
  pose proof (builder_category_names any_order any_order_perm e) as Hcats.
  unfold category_names in Hcats.
  rewrite Hs in Hr, Hnames. rewrite Hc in Hcats. rewrite Hstg in *.
  cbn [app map In] in Hr, Hnames, Hcats.
  split; [|split].
  - intros c. rewrite Hcats. tauto.
  - intros n. rewrite Hnames. tauto.
  - rewrite Hr. eapply Forall_impl; [|exact Hn]. now intros sk [_ H].
Qed.

End SkillBuilderTheorems.

(** The builder at the store of the skill scenario: "python" is a skill
    afterwards. *)
Lemma skill_builder_adds_witness :
  In "python"
     (map Skill.skill_name
        (rows (skills
           (populate_skill_categories_and_skills in_order
              (fresh_db [scenario_row]))))).
Proof.
  apply (proj2 (proj2 (proj2
           (skill_builder_adds in_order in_order_perm
              (fresh_db [scenario_row]))))).
  right. right. exists scenario_row, ["python"; "sql"; "aws"], "python".
  split; [now left|]. split; [reflexivity|]. split; [now left|reflexivity].
Defined.

(** A full run on the store of the skill scenario: "programming" is a
    category afterwards. *)
Lemma run_transformation_skill_rows_witness :
  In "programming"
     (category_names (run_transformation in_order (fresh_db [scenario_row]))).
Proof.
  apply (proj1 (run_transformation_skill_rows in_order in_order_perm
                  (fresh_db [scenario_row]))).
  exists scenario_row,
    [("programming", SkillList [Some "Python"; Some "SQL"])],
    (SkillList [Some "Python"; Some "SQL"]).
  split; [now left|]. split; [reflexivity|now left].
Defined.

(** ** The skill scenario in a snapshot with other rows *)

Section SkillScenarioAmongRows.

Variable any_order : forall A : Type, list A -> list A.
Hypothesis any_order_perm :
  forall (A : Type) (l : list A), Permutation (any_order A l) l.

Lemma builder_scenario (e : db) (r : Staging.row) :
  In r (staging_jobs e) ->
  Staging.job_type_skills r
  = Some (JDict [("programming", SkillList [Some "Python"; Some "SQL"])]) ->
  Staging.job_skills r = Some ["python"; "sql"; "aws"] ->
  rows (skill_categories e) = [] ->
  rows (skills e) = [] ->
  scenario_outcome (staging_jobs e)
    (populate_skill_categories_and_skills any_order e).
Proof.
  intros Hr Htyped Hflat Hcats Hskills.
  destruct (builder_skill_rows any_order any_order_perm e)
    as (Hnames & new & Hrows & Hnew).
  cbv zeta in Hnames, Hrows, Hnew.
  rewrite Hskills in Hrows, Hnames. cbn [app map In] in Hrows, Hnames.
  rewrite <- Hrows in Hnew.
  assert (Hjust : forall sk,
            In sk (rows (skills
                           (populate_skill_categories_and_skills any_order e)))
            -> category_justified (staging_jobs e)
                 (rows (skill_categories
                          (populate_skill_categories_and_skills any_order e)))
                 sk).
  { intros sk Hsk. rewrite Forall_forall in Hnew. now apply Hnew. }
  assert (Hprog : forall n,
            In n ["python"; "sql"] ->
            typed_skill (staging_jobs e) "programming" n).
  { intros n [<-|[<-|[]]].
    - exists r, [("programming", SkillList [Some "Python"; Some "SQL"])],
        [Some "Python"; Some "SQL"], "Python".
      split; [exact Hr|]. split; [exact Htyped|]. split; [now left|].
      split; [now left|]. split; [discriminate|reflexivity].
    - exists r, [("programming", SkillList [Some "Python"; Some "SQL"])],
        [Some "Python"; Some "SQL"], "SQL".
      split; [exact Hr|]. split; [exact Htyped|]. split; [now left|].
      split; [right; now left|]. split; [discriminate|reflexivity]. }
  pose proof (builder_category_names any_order any_order_perm e) as Hcatnames.
  unfold category_names in Hcatnames.
  pose proof (skill_builder_names_NoDup any_order e) as Hnd.
  rewrite Hskills in Hnd. specialize (Hnd (NoDup_nil _)).
  set (b := populate_skill_categories_and_skills any_order e) in *.
  clearbody b.
  split; [|split; [|split]].
  - assert (H : In "programming"
                  (map SkillCategory.category_name (rows (skill_categories b)))).
    { apply Hcatnames. right. apply typed_skill_category with "python".
      apply Hprog. now left. }
    apply in_map_iff in H as (c & Hc & Hin). now exists c.
  - exact Hnd.
  - intros n Hn. pose proof (Hprog n Hn) as Ht.
    assert (H : In n (map Skill.skill_name (rows (skills b)))).
    { apply Hnames. right. left. now exists "programming". }
    apply in_map_iff in H as (sk & Hname & Hin).
    pose proof (Hjust sk Hin) as Hj. unfold category_justified in Hj.
    rewrite Hname in Hj.
    destruct (Skill.category_id sk) as [i|] eqn:Ei.
    + destruct Hj as (c & Hc & Hid & Htc). exists sk, c.
      split; [exact Hin|]. split; [exact Hname|]. split; [exact Hc|].
      split; [now rewrite Hid|]. split; [exact Htc|].
      intros Honly. now apply Honly.
    + destruct Hj as [_ Hno]. exfalso. now apply (Hno "programming").
  - assert (H : In "aws" (map Skill.skill_name (rows (skills b)))).
    { apply Hnames. right. right.
      exists r, ["python"; "sql"; "aws"], "aws".
      split; [exact Hr|]. split; [exact Hflat|].
      split; [right; right; now left|reflexivity]. }
    apply in_map_iff in H as (sk & Hname & Hin). exists sk.
    split; [exact Hin|]. split; [exact Hname|].
    pose proof (Hjust sk Hin) as Hj. unfold category_justified in Hj.
    rewrite Hname in Hj.
    destruct (Skill.category_id sk) as [i|].
    + destruct Hj as (c & _ & _ & Htc). split; [discriminate|].
      intros Hno. exfalso. now apply (Hno (SkillCategory.category_name c)).
    + destruct Hj as [_ Hno]. split; [intros _; exact Hno|reflexivity].
Qed.

Lemma scenario_outcome_ext (stg : list Staging.row) (d1 d2 : db) :
  skills d1 = skills d2 -> skill_categories d1 = skill_categories d2 ->
  scenario_outcome stg d1 -> scenario_outcome stg d2.
Proof.
  unfold scenario_outcome. intros E1 E2 H. rewrite <- E1, <- E2. exact H.
Qed.

(** C8 as the code has it: the staging snapshot contains a row with
    typed-skills {"programming": ["Python", "SQL"]} and the flat skill list
    ["python", "sql", "aws"], among any other rows.  After a full run, and
    after the builder alone on a store whose two skill tables are empty (as
    the purge leaves them), there is a category "programming" and no skill
    name is there twice; the skill rows "python" and "sql" carry the id of a
    category row under whose name a staging row lists them, which is
    "programming" when no staging row lists them under another category;
    and the skill row "aws" carries a NULL category exactly when no staging
    row lists it under a category.  This holds in whatever order the store
    and the Python sets enumerate. *)
Theorem skill_taxonomy_scenario (d : db) (r : Staging.row) :
  In r (staging_jobs d) ->
  Staging.job_type_skills r
  = Some (JDict [("programming", SkillList [Some "Python"; Some "SQL"])]) ->
  Staging.job_skills r = Some ["python"; "sql"; "aws"] ->
  scenario_outcome (staging_jobs d) (run_transformation any_order d)
  /\ (rows (skill_categories d) = [] -> rows (skills d) = [] ->
      scenario_outcome (staging_jobs d)
        (populate_skill_categories_and_skills any_order d)).
Proof.
  intros Hr Htyped Hflat. split.
  - assert (E : skill_categories (run_transformation any_order d)
                = skill_categories
                    (populate_dimensions any_order (delete_previous_info d))
                /\ skills (run_transformation any_order d)
                   = skills
                       (populate_dimensions any_order
                          (delete_previous_info d))).
    { unfold run_transformation.
      generalize (populate_dimensions any_order (delete_previous_info d)).
      intros e. rewrite populate_job_skills_with, populate_jobs_with.
      now split. }
    destruct E as [E1 E2].
    apply (scenario_outcome_ext (staging_jobs d)
             (populate_dimensions any_order (delete_previous_info d))
             (run_transformation any_order d) (eq_sym E2) (eq_sym E1)).
    clear E1 E2. unfold populate_dimensions.
    set (e := populate_schedule_types any_order
                (populate_platforms any_order
                   (populate_locations any_order
                      (populate_companies any_order
                         (delete_previous_info d))))).
    assert (Hc : rows (skill_categories e) = []) by reflexivity.
    assert (Hs : rows (skills e) = []) by reflexivity.
    assert (Hstg : staging_jobs e = staging_jobs d) by reflexivity.
    clearbody e. rewrite <- Hstg in Hr |- *.
    now apply builder_scenario with r.
  - intros Hc Hs. now apply builder_scenario with r.
Qed.

End SkillScenarioAmongRows.

(** C8, at the store of the scenario alone: the outcome after a full run. *)
Lemma skill_taxonomy_scenario_witness :
  scenario_outcome [scenario_row]
    (run_transformation in_order (fresh_db [scenario_row])).
Proof.
  apply (proj1 (skill_taxonomy_scenario in_order in_order_perm
                  (fresh_db [scenario_row]) scenario_row
                  (or_introl eq_refl) eq_refl eq_refl)).
Defined.

(** C8 as stated fails: in a snapshot that holds the row of the scenario
    and a second row with typed-skills {"cloud": ["AWS"]}, the builder
    gives the skill row "aws" the id of the category "cloud", not NULL;
    the flat-list pass finds the name already there and inserts nothing. *)
Lemma skill_taxonomy_aws_categorized :
  In scenario_row (staging_jobs scenario_cloud_db)
  /\ Staging.job_type_skills scenario_row
     = Some (JDict [("programming", SkillList [Some "Python"; Some "SQL"])])
  /\ Staging.job_skills scenario_row = Some ["python"; "sql"; "aws"]
  /\ rows (skill_categories
             (populate_skill_categories_and_skills in_order scenario_cloud_db))
     = [SkillCategory.mk 1 "programming"; SkillCategory.mk 2 "cloud"]
  /\ map (fun s => (Skill.skill_name s, Skill.category_id s))
         (rows (skills
                  (populate_skill_categories_and_skills in_order
                     scenario_cloud_db)))
     = [("python", Some 1%Z); ("sql", Some 1%Z); ("aws", Some 2%Z)]
  /\ map (fun s => (Skill.skill_name s, Skill.category_id s))
         (rows (skills (run_transformation in_order scenario_cloud_db)))
     = [("python", Some 1%Z); ("sql", Some 1%Z); ("aws", Some 2%Z)].
Proof.
  split; [now left|]. split; [reflexivity|]. split; [reflexivity|].
  split; [reflexivity|]. split; reflexivity.
Qed.

(** The builder alone, on a skills table that already has "python" without
    a category: the INSERT of the categorized pass conflicts on the name and
    does nothing, and the row stays without a category. *)
Lemma skill_taxonomy_keeps_old_row :
  map (fun s => (Skill.skill_name s, Skill.category_id s))
      (rows (skills
               (populate_skill_categories_and_skills in_order
                  scenario_old_skill_db)))
  = [("python", None); ("sql", Some 1%Z); ("aws", None)].
Proof. reflexivity. Qed.

(** ** The schedule of the batch loop *)

(** The offsets of the loop in closed form. *)
Lemma offsets_closed (limit total_rows : nat) :
  0 < limit ->
  forall fuel offset,
    total_rows - offset <= fuel ->
    offsets fuel limit total_rows offset
    = map (fun k => offset + k * limit)
        (seq 0 ((total_rows - offset + limit - 1) / limit)).
Proof.
  intros Hl. induction fuel as [|fuel IH]; intros offset H.
  - simpl. replace (total_rows - offset + limit - 1) with (limit - 1) by lia.
    rewrite Nat.div_small by lia. reflexivity.
  - simpl. destruct (Nat.ltb_spec offset total_rows) as [Hlt|Hge].
    + rewrite IH by lia.
      assert (E : (total_rows - offset + limit - 1) / limit
                  = S ((total_rows - (offset + limit) + limit - 1) / limit)).
      { destruct (Nat.le_gt_cases limit (total_rows - offset)) as [Hbig|Hsm].
        - replace (total_rows - offset + limit - 1)
            with ((total_rows - (offset + limit) + limit - 1) + 1 * limit)
            by lia.
          rewrite Nat.div_add by lia. lia.
        - replace (total_rows - (offset + limit) + limit - 1)
            with (limit - 1) by lia.
          rewrite (Nat.div_small (limit - 1)) by lia.
          replace (total_rows - offset + limit - 1)
            with ((total_rows - offset - 1) + 1 * limit) by lia.
          rewrite Nat.div_add by lia.
          rewrite Nat.div_small by lia. reflexivity. }
      rewrite E. cbn [seq map]. f_equal; [lia|].
      rewrite <- seq_shift, map_map. apply map_ext. intros k. simpl. lia.
    + replace (total_rows - offset + limit - 1) with (limit - 1) by lia.
      rewrite Nat.div_small by lia. reflexivity.
Qed.

(** The number of batches a loop runs for [total_rows] rows in windows of
    [limit] rows. *)
Lemma batches_count (limit total_rows : nat) :
  0 < limit ->
  offsets total_rows limit total_rows 0
  = map (fun k => k * limit) (seq 0 ((total_rows + limit - 1) / limit)).
Proof.
  intros Hl. rewrite (offsets_closed limit total_rows Hl) by lia.
  rewrite Nat.sub_0_r. apply map_ext. intros k. reflexivity.
Qed.

(** X9: The two batch loops run one batch at each multiple of their window
    size below the total computed up front, in increasing order, and stop:
    the fact populator at 0, BATCH_SIZE, 2 BATCH_SIZE, ..., the bridge
    populator at 0, 10 BATCH_SIZE, 20 BATCH_SIZE, ...; the number of
    batches, and of progress reports, is the total divided by the window
    size, rounded up. *)
Theorem batch_loops_schedule (d : db) :
  let n := (jobs_total_rows d + BATCH_SIZE - 1) / BATCH_SIZE in
  let m := (bridge_total_rows d + BATCH_SIZE * 10 - 1) / (BATCH_SIZE * 10) in
  populate_jobs_reporting d
  = fold_left (run_batch jobs_batch)
      (map (fun k => k * BATCH_SIZE) (seq 0 n)) (d, [])
  /\ populate_job_skills_reporting d
     = fold_left (run_batch job_skills_batch)
         (map (fun k => k * (BATCH_SIZE * 10)) (seq 0 m)) (d, [])
  /\ List.length (snd (populate_jobs_reporting d)) = n
  /\ List.length (snd (populate_job_skills_reporting d)) = m.
Proof.
  intros n m.
  assert (Hlen : forall batch offs acc,
            List.length (snd (fold_left (run_batch batch) offs acc))
            = List.length (snd acc) + List.length offs).
  { intros batch offs. induction offs as [|o offs IH]; intros acc; simpl;
      [lia|].
    rewrite IH. unfold run_batch. destruct (batch o (fst acc)) as [d' k].
    cbn [snd]. rewrite length_app. simpl. lia. }
  assert (E1 : populate_jobs_reporting d
               = fold_left (run_batch jobs_batch)
                   (map (fun k => k * BATCH_SIZE) (seq 0 n)) (d, [])).
  { unfold populate_jobs_reporting. rewrite batch_loop_fold.
    now rewrite (batches_count BATCH_SIZE (jobs_total_rows d)
                   BATCH_SIZE_pos). }
  assert (E2 : populate_job_skills_reporting d
               = fold_left (run_batch job_skills_batch)
                   (map (fun k => k * (BATCH_SIZE * 10)) (seq 0 m)) (d, [])).
  { unfold populate_job_skills_reporting. rewrite batch_loop_fold.
    now rewrite (batches_count (BATCH_SIZE * 10) (bridge_total_rows d)
                   BATCH_SIZE_10_pos). }
  split; [exact E1|]. split; [exact E2|]. split.
  - rewrite E1, Hlen, length_map, length_seq. reflexivity.
  - rewrite E2, Hlen, length_map, length_seq. reflexivity.
Qed.

(** ** Ingestion: the chunks of [load_to_staging] *)

Lemma offsets_lt (limit total_rows : nat) :
  forall fuel offset o,
    In o (offsets fuel limit total_rows offset) -> o < total_rows.
Proof.
  induction fuel as [|fuel IH]; intros offset o H; simpl in H; [easy|].
  destruct (Nat.ltb_spec offset total_rows) as [Hlt|Hge]; [|easy].
  destruct H as [<-|H]; [exact Hlt|]. now apply IH in H.
Qed.

Lemma load_chunks_fold {Row : Type} (df_copy : list Row) (n : nat)
    (starts : list nat) :
  forall acc,
    fold_left (DataIngestion.load_chunk df_copy n) starts acc
    = (fst acc
       ++ List.concat (map (fun i => limit_offset n i df_copy) starts),
       snd acc
       ++ map (fun i => List.length (limit_offset n i df_copy)) starts).
Proof.
  induction starts as [|i starts IH]; intros [stg rep]; cbn [fold_left].
  - cbn. now rewrite !app_nil_r.
  - rewrite IH. unfold DataIngestion.load_chunk, DataIngestion.iloc,
      limit_offset. cbn [fst snd map List.concat].
    replace (i + n - i) with n by lia.
    now rewrite <- !app_assoc.
Qed.

Section LoadToStaging.

Context {Raw Row : Type}.
Variable prepare : Raw -> Row.

(** X10: [load_to_staging] in closed form.  A zero batch size raises before
    anything is loaded; a negative one loads nothing and raises nothing;
    a positive one appends the converted rows of the frame to the staging
    table, all of them, once and in order, in chunks that are never empty
    and never longer than the batch size, as many as the length of the
    frame divided by the batch size, rounded up, and the numbers given to
    the progress bar add up to the length of the frame. *)
Theorem load_to_staging_chunks (df : list Raw) (batch_size : Z)
    (staging_jobs : list Row) :
  let n := Z.to_nat batch_size in
  (batch_size = 0%Z ->
   DataIngestion.load_to_staging prepare df batch_size staging_jobs = None)
  /\ ((batch_size < 0)%Z ->
      DataIngestion.load_to_staging prepare df batch_size staging_jobs
      = Some (staging_jobs, []))
  /\ ((0 < batch_size)%Z ->
      exists reported,
        DataIngestion.load_to_staging prepare df batch_size staging_jobs
        = Some (staging_jobs ++ map prepare df, reported)
        /\ list_sum reported = List.length df
        /\ List.length reported = (List.length df + n - 1) / n
        /\ Forall (fun k => 0 < k <= n) reported).
Proof.
  intros n. unfold DataIngestion.load_to_staging, DataIngestion.py_range.
  split; [|split].
  - intros ->. reflexivity.
  - intros H. destruct (Z.eqb_spec batch_size 0); [lia|].
    destruct (Z.ltb_spec batch_size 0); [reflexivity|lia].
  - intros H. destruct (Z.eqb_spec batch_size 0); [lia|].
    destruct (Z.ltb_spec batch_size 0); [lia|].
    fold n. assert (Hn : 0 < n) by (unfold n; lia).
    rewrite load_chunks_fold. cbn [fst snd app].
    set (df_copy := map prepare df).
    set (total := List.length df_copy).
    assert (Htotal : total = List.length df)
      by (unfold total, df_copy; apply length_map).
    eexists. split; [|split; [|split]].
    + f_equal. f_equal. f_equal.
      rewrite windows_tile. cbn [skipn].
      apply firstn_all2.
      pose proof (offsets_reach n total Hn total 0) as Hr. fold total. lia.
    + rewrite <- (map_map (fun i => limit_offset n i df_copy)
                          (@List.length Row)).
      rewrite list_sum_map_length, windows_tile. cbn [skipn].
      rewrite firstn_all2; [exact Htotal|].
      pose proof (offsets_reach n total Hn total 0) as Hr. fold total. lia.
    + rewrite length_map, (batches_count n total Hn), length_map, length_seq.
      now rewrite Htotal.
    + apply Forall_forall. intros k Hk.
      apply in_map_iff in Hk as (i & <- & Hi).
      apply offsets_lt in Hi. unfold limit_offset.
      rewrite length_firstn, length_skipn. fold total. lia.
Qed.

End LoadToStaging.

(** Five rows in chunks of two: three chunks, of 2, 2 and 1 rows. *)
Lemma load_to_staging_chunks_witness :
  exists reported,
    DataIngestion.load_to_staging (fun x : nat => x) [1; 2; 3; 4; 5] 2 [0]
    = Some ([0] ++ map (fun x : nat => x) [1; 2; 3; 4; 5], reported)
    /\ list_sum reported = 5
    /\ List.length reported = (5 + Z.to_nat 2 - 1) / Z.to_nat 2
    /\ Forall (fun k => 0 < k <= Z.to_nat 2) reported.
Proof.
  apply (proj2 (proj2 (load_to_staging_chunks (fun x : nat => x)
                         [1; 2; 3; 4; 5] 2 [0]))).
  reflexivity.
Defined.

(** ** Ingestion: the conversion of the boolean columns *)

Lemma lower_char_idem (c : ascii) :
  Str.lower_char (Str.lower_char c) = Str.lower_char c.
Proof.
  destruct c as [[] [] [] [] [] [] [] []]; vm_compute; reflexivity.
Qed.

Lemma py_lower_idem (s : string) :
  Str.py_lower (Str.py_lower s) = Str.py_lower s.
Proof.
  unfold Str.py_lower. induction s as [|c r IH]; simpl; [reflexivity|].
  now rewrite lower_char_idem, IH.
Qed.

(** X11: The conversion of a boolean column gives True, False or None; it
    does not look at the case of text; it leaves a bool as it is; and
    applied to its own result it changes nothing, so converting an already
    converted column is harmless. *)
Theorem to_bool_stable (x : DataIngestion.cell) :
  (DataIngestion.to_bool x = DataIngestion.CBool true
   \/ DataIngestion.to_bool x = DataIngestion.CBool false
   \/ DataIngestion.to_bool x = DataIngestion.CNone)
  /\ DataIngestion.to_bool (DataIngestion.to_bool x) = DataIngestion.to_bool x
  /\ (forall b, DataIngestion.to_bool (DataIngestion.CBool b)
                = DataIngestion.CBool b)
  /\ (forall s, DataIngestion.to_bool (DataIngestion.CStr (Str.py_lower s))
                = DataIngestion.to_bool (DataIngestion.CStr s))
  /\ DataIngestion.to_bool DataIngestion.CNaN = DataIngestion.CNone.
Proof.
  split; [|split; [|split; [|split]]].
  - unfold DataIngestion.to_bool.
    destruct (String.eqb _ "true"); [now left|].
    destruct (String.eqb _ "false"); [right; now left|right; now right].
  - unfold DataIngestion.to_bool at 2 3.
    destruct (String.eqb _ "true"); [reflexivity|].
    destruct (String.eqb _ "false"); reflexivity.
  - now intros [|].
  - intros s. unfold DataIngestion.to_bool. cbn [DataIngestion.str].
    now rewrite py_lower_idem.
  - reflexivity.
Qed.

(** ** Database: the engine *)

Lemma chars_append (a b : string) :
  list_ascii_of_string (a ++ b)
  = list_ascii_of_string a ++ list_ascii_of_string b.
Proof. induction a as [|c a IH]; simpl; [reflexivity|]. now rewrite IH. Qed.

Lemma string_app_assoc (a b c : string) :
  ((a ++ b) ++ c)%string = (a ++ (b ++ c))%string.
Proof. induction a as [|x a IH]; simpl; [reflexivity|]. now rewrite IH. Qed.

Lemma split_on_absent (sep : ascii) (s : string) :
  ~ In sep (list_ascii_of_string s) -> Str.split_on sep s = [s].
Proof.
  induction s as [|c r IH]; simpl; intros H; [reflexivity|].
  destruct (Ascii.eqb_spec c sep) as [->|Hne]; [exfalso; apply H; now left|].
  rewrite IH; [reflexivity|]. intros Hin. apply H. now right.
Qed.

Lemma split_on_first (sep : ascii) (a b : string) :
  ~ In sep (list_ascii_of_string a) ->
  Str.split_on sep (a ++ String sep b) = a :: Str.split_on sep b.
Proof.
  induction a as [|c a IH]; simpl; intros H.
  - now rewrite Ascii.eqb_refl.
  - destruct (Ascii.eqb_spec c sep) as [->|Hne];
      [exfalso; apply H; now left|].
    rewrite IH; [reflexivity|]. intros Hin. apply H. now right.
Qed.

Lemma first_occurrence (sep : ascii) (s : string) :
  In sep (list_ascii_of_string s) ->
  exists a b, s = (a ++ String sep b)%string
              /\ ~ In sep (list_ascii_of_string a).
Proof.
  induction s as [|c r IH]; simpl; [easy|].
  destruct (Ascii.eqb_spec c sep) as [->|Hne].
  - intros _. exists EmptyString, r. split; [reflexivity|]. simpl. tauto.
  - intros [E|H]; [contradiction|].
    destruct (IH H) as (a & b & -> & Ha).
    exists (String c a), b. split; [reflexivity|].
    simpl. intros [E|Hin]; [contradiction|now apply Ha].
Qed.

(** [url.split('@')[1]] exists exactly when the URL has an '@'. *)
Lemma logged_host_none (url : string) :
  DatabaseConfig.logged_host url = None
  <-> ~ DatabaseConfig.has_char "@"%char url.
Proof.
  unfold DatabaseConfig.logged_host, DatabaseConfig.has_char. split.
  - intros H Hin. apply first_occurrence in Hin as (a & b & -> & Ha).
    rewrite (split_on_first _ _ _ Ha) in H. cbn [nth_error] in H.
    pose proof (split_on_not_nil "@"%char b) as Hne.
    destruct (Str.split_on "@"%char b); [contradiction|discriminate].
  - intros H. now rewrite (split_on_absent _ _ H).
Qed.

Lemma logged_host_first (a b : string) :
  ~ DatabaseConfig.has_char "@"%char a ->
  ~ DatabaseConfig.has_char "@"%char b ->
  forall rest,
    DatabaseConfig.logged_host (a ++ String "@"%char (b ++ rest))
    = match rest with
      | EmptyString => Some b
      | String c _ =>
          if Ascii.eqb c "@"%char then Some b
          else DatabaseConfig.logged_host
                 (a ++ String "@"%char (b ++ rest))
      end.
Proof.
  intros Ha Hb rest. destruct rest as [|c r].
  - unfold DatabaseConfig.logged_host.
    rewrite (split_on_first _ _ _ Ha). cbn [nth_error].
    change (b ++ "")%string with (b ++ EmptyString)%string.
    assert (E : (b ++ EmptyString)%string = b).
    { clear. induction b as [|x b IH]; simpl; [reflexivity|].
      now rewrite IH. }
    rewrite E. now rewrite (split_on_absent _ _ Hb).
  - destruct (Ascii.eqb_spec c "@"%char) as [->|Hne]; [|reflexivity].
    unfold DatabaseConfig.logged_host.
    rewrite (split_on_first _ _ _ Ha). cbn [nth_error].
    now rewrite (split_on_first _ _ _ Hb).
Qed.

Section GetEngine.

Context {Engine : Type}.
Variable create_engine : string -> option Engine.

(** X12: [get_engine] on a configuration without an engine raises IndexError,
    before the engine is created and before anything is logged, exactly
    when the URL has no '@'.  When it returns an engine the engine is
    kept in the configuration and the URL is unchanged, and the next call
    returns the same engine without creating or logging anything.  When
    it raises, the configuration is as it was. *)
Theorem get_engine_cached :
  (forall url,
     DatabaseConfig.get_engine create_engine
       (DatabaseConfig.mkConfig url None)
     = (DatabaseConfig.Raise DatabaseConfig.IndexError,
        DatabaseConfig.mkConfig url None, [])
     <-> ~ DatabaseConfig.has_char "@"%char url)
  /\ (forall self e self' log,
        DatabaseConfig.get_engine create_engine self
        = (DatabaseConfig.Return e, self', log) ->
        DatabaseConfig.engine self' = Some e
        /\ DatabaseConfig.database_url self'
           = DatabaseConfig.database_url self
        /\ DatabaseConfig.get_engine create_engine self'
           = (DatabaseConfig.Return e, self', []))
  /\ (forall self x self' log,
        DatabaseConfig.get_engine create_engine self
        = (DatabaseConfig.Raise x, self', log) ->
        self' = self /\ DatabaseConfig.engine self = None).
Proof.
  split; [|split].
  - intros url. unfold DatabaseConfig.get_engine.
    cbn [DatabaseConfig.engine DatabaseConfig.database_url].
    rewrite <- logged_host_none.
    destruct (DatabaseConfig.logged_host url) as [host|].
    + destruct (create_engine url); split; intros H; discriminate.
    + split; reflexivity.
  - intros self e self' log H. unfold DatabaseConfig.get_engine in H.
    destruct (DatabaseConfig.engine self) as [e0|] eqn:E.
    + inversion H; subst. split; [exact E|]. split; [reflexivity|].
      unfold DatabaseConfig.get_engine. now rewrite E.
    + destruct (DatabaseConfig.logged_host _); [|discriminate].
      destruct (create_engine _) as [e1|]; [|discriminate].
      inversion H; subst. now repeat split.
  - intros self x self' log H. unfold DatabaseConfig.get_engine in H.
    destruct (DatabaseConfig.engine self) as [e0|] eqn:E; [discriminate|].
    destruct (DatabaseConfig.logged_host _).
    + destruct (create_engine _); [discriminate|].
      inversion H; subst. now split.
    + inversion H; subst. now split.
Qed.

End GetEngine.

(** A URL with its '@': the engine is created once and kept. *)
Lemma get_engine_cached_witness :
  let create_engine := fun url : string => Some url in
  let self :=
    @DatabaseConfig.mkConfig string "postgresql://u:p@h:5432/db" None in
  let self' :=
    @DatabaseConfig.mkConfig string "postgresql://u:p@h:5432/db"
      (Some "postgresql://u:p@h:5432/db") in
  DatabaseConfig.get_engine create_engine self'
  = (DatabaseConfig.Return "postgresql://u:p@h:5432/db", self', []).
Proof.
  intros create_engine self self'.
  apply (proj1 (proj2 (get_engine_cached create_engine)) self
           "postgresql://u:p@h:5432/db" self'
           ["Creating database engine for h:5432/db"]).
  reflexivity.
Defined.

(** X13: The line [get_engine] logs for a URL built from the environment.
    When no part has an '@' the line names host, port and database.  When
    the password has one '@' the line names the part of the password
    after it instead. *)
Theorem build_database_url_logged_host
    (user password host port database : option string) :
  let str := DatabaseConfig.getenv_str in
  let no_at s := ~ DatabaseConfig.has_char "@"%char s in
  (no_at (str user) -> no_at (str password) -> no_at (str host) ->
   no_at (str port) -> no_at (str database) ->
   DatabaseConfig.logged_host
     (DatabaseConfig._build_database_url user password host port database)
   = Some (str host ++ ":" ++ str port ++ "/" ++ str database)%string)
  /\ (forall p1 p2,
        password = Some (p1 ++ "@" ++ p2)%string ->
        no_at (str user) -> no_at p1 -> no_at p2 ->
        DatabaseConfig.logged_host
          (DatabaseConfig._build_database_url user password host port
             database)
        = Some p2).
Proof.
  intros str no_at.
  assert (Hpre : forall u p,
            no_at u -> no_at p ->
            no_at ("postgresql://" ++ u ++ ":" ++ p)%string).
  { intros u p Hu Hp H. unfold no_at, DatabaseConfig.has_char in *.
    rewrite !chars_append in H. cbn in H.
    repeat (destruct H as [H|H]; [discriminate|]).
    apply in_app_or in H as [H|H]; [now apply Hu|].
    cbn in H. destruct H as [H|H]; [discriminate|]. now apply Hp. }
  assert (Hassoc : forall u p rest,
            ("postgresql://" ++ u ++ ":" ++ p ++ "@" ++ rest)%string
            = (("postgresql://" ++ u ++ ":" ++ p) ++ String "@"%char rest)
              %string).
  { intros u p rest. rewrite !string_app_assoc. reflexivity. }
  split.
  - intros Hu Hp Hh Hpo Hd. unfold DatabaseConfig._build_database_url.
    fold str. rewrite Hassoc.
    unfold DatabaseConfig.logged_host.
    rewrite (split_on_first _ _ _ (Hpre _ _ Hu Hp)). cbn [nth_error].
    rewrite split_on_absent; [reflexivity|].
    intros H. rewrite !chars_append in H.
    apply in_app_or in H as [H|H]; [now apply Hh|].
    cbn in H. destruct H as [H|H]; [discriminate|].
    apply in_app_or in H as [H|H]; [now apply Hpo|].
    cbn in H. destruct H as [H|H]; [discriminate|]. now apply Hd.
  - intros p1 p2 -> Hu H1 H2. unfold DatabaseConfig._build_database_url.
    fold str. cbn [DatabaseConfig.getenv_str str].
    change (str (Some (p1 ++ "@" ++ p2)%string)) with (p1 ++ "@" ++ p2)%string.
    set (rest := (str host ++ ":" ++ str port ++ "/" ++ str database)%string).
    assert (E : ("postgresql://" ++ str user ++ ":" ++ (p1 ++ "@" ++ p2)
                 ++ "@" ++ rest)%string
                = (("postgresql://" ++ str user ++ ":" ++ p1)
                   ++ String "@"%char (p2 ++ String "@"%char rest))%string).
    { rewrite !string_app_assoc. reflexivity. }
    rewrite E.
    rewrite (logged_host_first _ _ (Hpre _ _ Hu H1) H2).
    now rewrite Ascii.eqb_refl.
Qed.

(** The URL of the tests logs its host; a password with an '@' logs the
    end of the password. *)
Lemma build_database_url_logged_host_witness :
  DatabaseConfig.logged_host
    (DatabaseConfig._build_database_url (Some "user") (Some "pwd")
       (Some "host") (Some "5433") (Some "db"))
  = Some "host:5433/db"
  /\ DatabaseConfig.logged_host
       (DatabaseConfig._build_database_url (Some "user") (Some "p@ss")
          (Some "host") (Some "5433") (Some "db"))
     = Some "ss".
Proof.
  split.
  - apply (proj1 (build_database_url_logged_host (Some "user") (Some "pwd")
                    (Some "host") (Some "5433") (Some "db")));
      cbn; intuition discriminate.
  - apply (proj2 (build_database_url_logged_host (Some "user") (Some "p@ss")
                    (Some "host") (Some "5433") (Some "db")) "p" "ss");
      [reflexivity| | |]; cbn; intuition discriminate.
Defined.

(** ** Database: the statements of a SQL file *)

Section ExecuteSqlFile.

Context {Engine : Type}.
Variable create_engine : string -> option Engine.
Variable raises : string -> bool.

(** The statements of a file, had none of them raised. *)
Lemma run_statements_spec (pieces : list string) :
  let all := filter (fun st => negb (Str.is_empty st))
               (map Str.py_strip pieces) in
  (exists rest,
     all = fst (DatabaseConfig.run_statements raises pieces) ++ rest)
  /\ (snd (DatabaseConfig.run_statements raises pieces) = true ->
      fst (DatabaseConfig.run_statements raises pieces) = all
      /\ Forall (fun st => raises st = false) all)
  /\ Forall (fun st => exists piece, In piece pieces
                                     /\ st = Str.py_strip piece
                                     /\ st <> "")
       (fst (DatabaseConfig.run_statements raises pieces)).
Proof.
  induction pieces as [|piece rest IH]; cbn [DatabaseConfig.run_statements].
  - cbn. split; [now exists []|]. split; [now split|constructor].
  - cbn [map filter]. destruct IH as ((tl & Htl) & Hok & Hall).
    destruct (Str.is_empty (Str.py_strip piece)) eqn:E; cbn [negb].
    + split; [now exists tl|]. split; [exact Hok|].
      eapply Forall_impl; [|exact Hall]. cbv beta.
      intros st (q & Hq & H). exists q. split; [now right|exact H].
    + assert (Hne : Str.py_strip piece <> "")
        by (intros H0; rewrite H0 in E; discriminate).
      destruct (raises (Str.py_strip piece)) eqn:R.
      * cbn [fst snd]. split; [eexists; reflexivity|].
        split; [discriminate|].
        constructor; [|constructor]. exists piece. split; [now left|now split].
      * destruct (DatabaseConfig.run_statements raises rest) as [sent ok].
        cbn [fst snd] in *. split.
        -- exists tl. now rewrite Htl.
        -- split.
           ++ intros Hk. destruct (Hok Hk) as [H1 H2]. split.
              ** now rewrite H1.
              ** constructor; [exact R|exact H2].
           ++ constructor.
              ** exists piece. split; [now left|now split].
              ** eapply Forall_impl; [|exact Hall]. cbv beta.
                 intros st (q & Hq & H). exists q.
                 split; [now right|exact H].
Qed.

(** The loop stops at the first statement that raises: no statement sent
    before the last one raised, and when the loop ends with an exception
    the last statement sent is the one that raised. *)
Lemma run_statements_stops (pieces : list string) :
  Forall (fun st => raises st = false)
    (removelast (fst (DatabaseConfig.run_statements raises pieces)))
  /\ (snd (DatabaseConfig.run_statements raises pieces) = false ->
      fst (DatabaseConfig.run_statements raises pieces) <> []
      /\ raises (last (fst (DatabaseConfig.run_statements raises pieces)) "")
         = true).
Proof.
  induction pieces as [|piece rest IH]; cbn [DatabaseConfig.run_statements].
  - cbn. split; [constructor|discriminate].
  - destruct (Str.is_empty (Str.py_strip piece)); [exact IH|].
    destruct (raises (Str.py_strip piece)) eqn:R.
    + cbn. split; [constructor|]. intros _. split; [discriminate|exact R].
    + destruct (DatabaseConfig.run_statements raises rest) as [sent ok].
      cbn [fst snd] in *. destruct IH as [I1 I2]. split.
      * destruct sent as [|st sent]; [constructor|].
        change (removelast (Str.py_strip piece :: st :: sent))
          with (Str.py_strip piece :: removelast (st :: sent)).
        constructor; [exact R|exact I1].
      * intros Hk. destruct (I2 Hk) as [Hne Hlast].
        split; [discriminate|].
        destruct sent as [|st sent]; [contradiction|exact Hlast].
Qed.

(** X14: What [execute_sql_file] sends to the store.  A statement sent
    is never empty, has no white space at either end and no semicolon.
    Nothing is sent when the file cannot be read, the engine cannot be had
    or the connection cannot be opened.  Otherwise the statements sent are
    the pieces of the file between semicolons, stripped, the blank ones
    left out, in the order of the file, up to and with the first one that
    raises: no statement before the last one sent raised, and when some
    statement of the file was not sent, the last one sent raised.  The
    function returns True exactly when the file was read, the connection
    opened, no statement of the file raises and the commit succeeded; then
    every statement was sent, and the transaction is committed in that
    case and in no other. *)
Theorem execute_sql_file_statements (sql_commands : option string)
    (connect_ok commit_ok : bool) (self : DatabaseConfig.config) :
  let r := fst (DatabaseConfig.execute_sql_file create_engine raises
                  sql_commands connect_ok commit_ok self) in
  let statements sql :=
    filter (fun st => negb (Str.is_empty st))
      (map Str.py_strip (Str.split_on ";"%char sql)) in
  let opened :=
    connect_ok = true
    /\ exists e self' log,
         DatabaseConfig.get_engine create_engine self
         = (DatabaseConfig.Return e, self', log) in
  Forall (fun st => st <> "" /\ Str.py_strip st = st
                    /\ ~ DatabaseConfig.has_char ";"%char st)
         (DatabaseConfig.sent r)
  /\ (sql_commands = None \/ ~ opened -> DatabaseConfig.sent r = [])
  /\ (forall sql,
        sql_commands = Some sql -> opened ->
        exists rest,
          statements sql = DatabaseConfig.sent r ++ rest
          /\ Forall (fun st => raises st = false)
               (removelast (DatabaseConfig.sent r))
          /\ (rest <> [] ->
              DatabaseConfig.sent r <> []
              /\ raises (last (DatabaseConfig.sent r) "") = true))
  /\ (DatabaseConfig.returned r = true
      <-> exists sql,
            sql_commands = Some sql /\ opened /\ commit_ok = true
            /\ Forall (fun st => raises st = false) (statements sql))
  /\ (DatabaseConfig.returned r = true ->
      exists sql, sql_commands = Some sql
                  /\ DatabaseConfig.sent r = statements sql)
  /\ DatabaseConfig.committed r = DatabaseConfig.returned r.
Proof.
  intros r statements opened. subst r opened.
  unfold DatabaseConfig.execute_sql_file.
  destruct sql_commands as [sql|]; cbn [fst].
  2: { cbn. split; [constructor|]. split; [reflexivity|].
       split; [discriminate|]. split; [|split; [discriminate|reflexivity]].
       split; [discriminate|]. intros (s & E & _). discriminate. }
  destruct (DatabaseConfig.get_engine create_engine self)
    as [[[e|x] self'] log]; cbn [fst].
  2: { cbn. split; [constructor|]. split; [reflexivity|]. split.
       - intros s _ (_ & e & c & l & E). discriminate.
       - split; [|split; [discriminate|reflexivity]].
         split; [discriminate|].
         intros (s & _ & (_ & e & c & l & E) & _). discriminate. }
  destruct connect_ok.
  2: { cbn. split; [constructor|]. split; [reflexivity|]. split.
       - intros s _ (E & _). discriminate.
       - split; [|split; [discriminate|reflexivity]].
         split; [discriminate|].
         intros (s & _ & (E & _) & _). discriminate. }
  destruct (run_statements_spec (Str.split_on ";"%char sql))
    as ((rest & Hrest) & Hok & Hall).
  destruct (run_statements_stops (Str.split_on ";"%char sql)) as [Hpre Hlast].
  destruct (DatabaseConfig.run_statements raises (Str.split_on ";"%char sql))
    as [sent ok].
  cbn [fst snd DatabaseConfig.sent DatabaseConfig.returned
       DatabaseConfig.committed] in *.
  assert (Hopened : true = true
                    /\ exists (e0 : Engine) (c : DatabaseConfig.config)
                               (l : list string),
                         (DatabaseConfig.Return e, self', log)
                         = (DatabaseConfig.Return e0, c, l))
    by (split; [reflexivity|]; now exists e, self', log).
  assert (Hiff : ok = true
                 <-> Forall (fun st => raises st = false) (statements sql)).
  { split.
    - intros Hk. now apply Hok.
    - intros Hnone. destruct ok; [reflexivity|].
      destruct (Hlast eq_refl) as [Hne Hr].
      rewrite Forall_forall in Hnone.
      assert (Hin : In (last sent "") (statements sql)).
      { unfold statements. rewrite Hrest. apply in_or_app. left.
        destruct sent as [|st sent']; [contradiction|].
        rewrite (app_removelast_last "" (l := st :: sent')) at 2
          by discriminate.
        apply in_or_app. right. now left. }
      rewrite (Hnone _ Hin) in Hr. discriminate. }
  split; [|split; [|split; [|split; [|split]]]].
  - eapply Forall_impl; [|exact Hall]. cbv beta.
    intros st (piece & Hp & -> & Hne). split; [exact Hne|].
    split; [apply strip_by_idem|].
    intros Hin. apply strip_by_chars in Hin.
    now apply (split_on_no_sep _ _ _ Hp).
  - intros [E|Hn]; [discriminate|]. contradiction.
  - intros s E _. inversion E; subst s. exists rest.
    split; [exact Hrest|]. split; [exact Hpre|].
    intros Hne. apply Hlast. destruct ok; [|reflexivity].
    destruct (Hok eq_refl) as [E1 _]. unfold statements in Hrest.
    rewrite <- E1 in Hrest at 1.
    rewrite <- (app_nil_r sent) in Hrest at 1.
    apply app_inv_head in Hrest. now subst rest.
  - rewrite andb_true_iff, Hiff. split.
    + intros [H1 H2]. exists sql. now repeat split.
    + intros (s & E & _ & Hc & Hf). inversion E; subst s. now split.
  - intros H. apply andb_prop in H as [H1 _]. subst ok.
    exists sql. split; [reflexivity|]. now apply Hok.
  - reflexivity.
Qed.

End ExecuteSqlFile.

(** ** Validation: the counts of [validate_skills_structure] *)

Lemma check_lists_counts (vs : list DataValidator.value) :
  forall r,
    let r' := fold_left DataValidator.check_list vs r in
    List.length (DataValidator.sample_values r)
    = Nat.min 3 (DataValidator.valid_lists r) ->
    Forall (fun s => List.length s <= 3) (DataValidator.sample_values r) ->
    DataValidator.total_non_null r' = DataValidator.total_non_null r
    /\ DataValidator.valid_lists r' + DataValidator.invalid r'
       = DataValidator.valid_lists r + DataValidator.invalid r
         + List.length vs
    /\ List.length (DataValidator.sample_values r')
       = Nat.min 3 (DataValidator.valid_lists r')
    /\ Forall (fun s => List.length s <= 3) (DataValidator.sample_values r')
    /\ DataValidator.valid_lists r'
       = DataValidator.valid_lists r
         + List.length
             (filter (fun v => match v with
                               | DataValidator.VList _ => true
                               | _ => false
                               end) vs).
Proof.
  induction vs as [|v vs IH]; intros r; cbn [fold_left].
  - intros H1 H2. cbn. repeat split; auto; lia.
  - intros H1 H2.
    assert (Hstep :
      List.length (DataValidator.sample_values (DataValidator.check_list r v))
      = Nat.min 3 (DataValidator.valid_lists (DataValidator.check_list r v))
      /\ Forall (fun s => List.length s <= 3)
           (DataValidator.sample_values (DataValidator.check_list r v))).
    { destruct v; unfold DataValidator.check_list;
        cbn [DataValidator.sample_values DataValidator.valid_lists];
        try (split; assumption).
      destruct (Nat.ltb_spec (List.length (DataValidator.sample_values r)) 3).
      - split.
        + rewrite length_app. cbn [List.length]. lia.
        + apply Forall_app. split; [exact H2|].
          constructor; [|constructor]. rewrite length_firstn. lia.
      - split; [lia|exact H2]. }
    destruct Hstep as [S1 S2].
    destruct (IH (DataValidator.check_list r v) S1 S2)
      as (I1 & I2 & I3 & I4 & I5).
    cbv zeta. split; [rewrite I1; now destruct v|].
    split; [rewrite I2; destruct v; cbn; lia|].
    split; [exact I3|]. split; [exact I4|].
    rewrite I5. destruct v; cbn; lia.
Qed.

Lemma set_add_NoDup (x : string) (s : list string) :
  NoDup s -> NoDup (set_add x s).
Proof.
  intros H. unfold set_add. destruct (in_dec string_dec x s); [exact H|].
  apply NoDup_app; [exact H|repeat constructor; easy|].
  intros y Hy [<-|[]]. contradiction.
Qed.

Lemma update_keys (keys : list string) :
  forall s,
    NoDup s ->
    NoDup (fold_left (fun s k => set_add k s) keys s)
    /\ forall k, In k (fold_left (fun s k => set_add k s) keys s)
                 <-> In k s \/ In k keys.
Proof.
  induction keys as [|x keys IH]; intros s H; cbn [fold_left].
  - split; [exact H|]. intros k. cbn. tauto.
  - destruct (IH (set_add x s) (set_add_NoDup x s H)) as [I1 I2].
    split; [exact I1|]. intros k. rewrite I2, set_add_in. cbn. intuition.
Qed.

Lemma check_dicts_counts (vs : list DataValidator.value) :
  forall r,
    let r' := fold_left DataValidator.check_dict vs r in
    NoDup (DataValidator.sample_categories r) ->
    DataValidator.dict_total_non_null r' = DataValidator.dict_total_non_null r
    /\ DataValidator.valid_dicts r' + DataValidator.dict_invalid r'
       = DataValidator.valid_dicts r + DataValidator.dict_invalid r
         + List.length vs
    /\ NoDup (DataValidator.sample_categories r')
    /\ forall k,
         In k (DataValidator.sample_categories r')
         <-> In k (DataValidator.sample_categories r)
             \/ exists keys, In (DataValidator.VDict keys) vs /\ In k keys.
Proof.
  induction vs as [|v vs IH]; intros r; cbn [fold_left].
  - intros H. cbn. repeat split; auto; try lia.
    intros [H0|(keys & [] & _)]. exact H0.
  - intros H.
    assert (Hstep :
      NoDup (DataValidator.sample_categories (DataValidator.check_dict r v))
      /\ forall k,
           In k (DataValidator.sample_categories
                   (DataValidator.check_dict r v))
           <-> In k (DataValidator.sample_categories r)
               \/ exists keys, v = DataValidator.VDict keys /\ In k keys).
    { destruct v; cbn;
        try (split; [exact H|]; intros k; split; [now left|];
             intros [H0|(keys & E & _)]; [exact H0|discriminate]).
      destruct (update_keys keys (DataValidator.sample_categories r) H)
        as [U1 U2].
      split; [exact U1|]. intros k. rewrite U2. split.
      - intros [H0|H0]; [now left|right]. now exists keys.
      - intros [H0|(keys' & E & H0)]; [now left|right].
        now inversion E; subst. }
    destruct Hstep as [S1 S2].
    destruct (IH (DataValidator.check_dict r v) S1) as (I1 & I2 & I3 & I4).
    cbv zeta. split; [rewrite I1; now destruct v|].
    split; [rewrite I2; destruct v; cbn; lia|].
    split; [exact I3|]. intros k. rewrite I4, S2. split.
    + intros [[H0|(keys & -> & H0)]|(keys & H1 & H0)].
      * now left.
      * right. exists keys. split; [now left|exact H0].
      * right. exists keys. split; [now right|exact H0].
    + intros [H0|(keys & [H1|H1] & H0)].
      * left. now left.
      * left. right. now exists keys.
      * right. now exists keys.
Qed.

(** X15: [validate_skills_structure] counts every non-missing cell of a column
    but looks at the first 10 of [job_skills] and the first 100 of
    [job_type_skills] only: the valid and the invalid ones add up to the
    smaller of that bound and the number of non-missing cells, not to the
    number of non-missing cells.  At most three samples are kept, one for
    each of the first valid lists, each of at most three skills; the sample
    categories are the keys of the dicts looked at, each once. *)
Theorem validate_skills_structure_counts
    (job_skills job_type_skills : option (list DataValidator.value)) :
  let r := DataValidator.validate_skills_structure job_skills
             job_type_skills in
  let non_null col :=
    match col with
    | Some c => filter DataValidator.notna c
    | None => []
    end in
  DataValidator.total_non_null (fst r) = List.length (non_null job_skills)
  /\ DataValidator.valid_lists (fst r) + DataValidator.invalid (fst r)
     = Nat.min 10 (DataValidator.total_non_null (fst r))
  /\ List.length (DataValidator.sample_values (fst r))
     = Nat.min 3 (DataValidator.valid_lists (fst r))
  /\ Forall (fun s => List.length s <= 3)
       (DataValidator.sample_values (fst r))
  /\ DataValidator.dict_total_non_null (snd r)
     = List.length (non_null job_type_skills)
  /\ DataValidator.valid_dicts (snd r) + DataValidator.dict_invalid (snd r)
     = Nat.min 100 (DataValidator.dict_total_non_null (snd r))
  /\ NoDup (DataValidator.sample_categories (snd r))
  /\ (forall k,
        In k (DataValidator.sample_categories (snd r))
        <-> exists keys,
              In (DataValidator.VDict keys)
                 (firstn 100 (non_null job_type_skills))
              /\ In k keys).
Proof.
  intros r non_null. subst r.
  unfold DataValidator.validate_skills_structure. cbn [fst snd].
  assert (Hl :
    let a := match job_skills with
             | Some col =>
                 fold_left DataValidator.check_list
                   (firstn 10 (filter DataValidator.notna col))
                   (DataValidator.mkJobSkills
                      (List.length (filter DataValidator.notna col)) 0 0 [])
             | None => DataValidator.mkJobSkills 0 0 0 []
             end in
    DataValidator.total_non_null a = List.length (non_null job_skills)
    /\ DataValidator.valid_lists a + DataValidator.invalid a
       = Nat.min 10 (DataValidator.total_non_null a)
    /\ List.length (DataValidator.sample_values a)
       = Nat.min 3 (DataValidator.valid_lists a)
    /\ Forall (fun s => List.length s <= 3) (DataValidator.sample_values a)).
  { destruct job_skills as [col|]; cbv zeta.
    - destruct (check_lists_counts
                  (firstn 10 (filter DataValidator.notna col))
                  (DataValidator.mkJobSkills
                     (List.length (filter DataValidator.notna col)) 0 0 []))
        as (H1 & H2 & H3 & H4 & _); [reflexivity|constructor|].
      cbv zeta in H1, H2, H3, H4.
      cbn [DataValidator.total_non_null DataValidator.valid_lists
           DataValidator.invalid Nat.add] in H1, H2.
      rewrite H1. split; [reflexivity|]. split; [|split; assumption].
      rewrite H2, length_firstn. reflexivity.
    - cbn. repeat split; constructor. }
  assert (Hd :
    let b := match job_type_skills with
             | Some col =>
                 fold_left DataValidator.check_dict
                   (firstn 100 (filter DataValidator.notna col))
                   (DataValidator.mkJobTypeSkills
                      (List.length (filter DataValidator.notna col)) 0 0 [])
             | None => DataValidator.mkJobTypeSkills 0 0 0 []
             end in
    DataValidator.dict_total_non_null b
    = List.length (non_null job_type_skills)
    /\ DataValidator.valid_dicts b + DataValidator.dict_invalid b
       = Nat.min 100 (DataValidator.dict_total_non_null b)
    /\ NoDup (DataValidator.sample_categories b)
    /\ (forall k,
          In k (DataValidator.sample_categories b)
          <-> exists keys,
                In (DataValidator.VDict keys)
                   (firstn 100 (non_null job_type_skills))
                /\ In k keys)).
  { destruct job_type_skills as [col|]; cbv zeta.
    - destruct (check_dicts_counts
                  (firstn 100 (filter DataValidator.notna col))
                  (DataValidator.mkJobTypeSkills
                     (List.length (filter DataValidator.notna col)) 0 0 []))
        as (H1 & H2 & H3 & H4); [constructor|].
      cbv zeta in H1, H2, H3, H4.
      cbn [DataValidator.dict_total_non_null DataValidator.valid_dicts
           DataValidator.dict_invalid Nat.add] in H1, H2.
      rewrite H1. split; [reflexivity|]. split; [|split; [exact H3|]].
      + rewrite H2, length_firstn. reflexivity.
      + intros k. rewrite H4. cbn [DataValidator.sample_categories In].
        tauto.
    - cbn. split; [reflexivity|]. split; [reflexivity|].
      split; [constructor|]. intros k. split; [easy|].
      intros (keys & H & _). unfold non_null in H.
      rewrite ?firstn_nil in H. exact H. }
  cbv zeta in Hl, Hd.
  destruct Hl as (L1 & L2 & L3 & L4). destruct Hd as (D1 & D2 & D3 & D4).
  repeat split; try assumption; apply D4.
Qed.

(** ** The pipeline: the order of the phases *)

Ltac phases_case :=
  cbn;
  (split;
   [match goal with
    | |- exists before, ?evs = _ /\ _ =>
        exists (removelast evs); cbn; split;
        [reflexivity|intuition discriminate]
    end|]);
  (split; [intuition discriminate|]);
  (split; [intuition discriminate|]);
  (split; [intuition discriminate|]);
  intuition discriminate.

(** X16: Every run closes the connections, once and as its last step, whatever
    failed before.  The frame is loaded into the staging table only after
    the connection test, the schema file, the reading of the CSV file and
    the validation have all succeeded.  The transformation runs when it is
    the only phase asked for, or when set-up and ingestion have succeeded,
    and in no other case; the run returns True exactly when the
    transformation has run and succeeded.  With [only_transformation]
    nothing but the transformation runs. *)
Theorem run_phases (only_transformation : bool) (w : JobPipeline.world) :
  let r := JobPipeline.run only_transformation w in
  (exists before, snd r = before ++ [JobPipeline.Close]
                  /\ ~ In JobPipeline.Close before)
  /\ (In JobPipeline.LoadToStaging (snd r) ->
      only_transformation = false
      /\ JobPipeline.connection_ok w = true
      /\ JobPipeline.schema_exists w = true
      /\ JobPipeline.schema_ok w = true
      /\ JobPipeline.csv_ok w = true
      /\ JobPipeline.data_valid w = true
      /\ JobPipeline.checks_ok w = true)
  /\ (In JobPipeline.Transformation (snd r)
      <-> only_transformation = true
          \/ (fst (JobPipeline.setup_database w) = true
              /\ fst (JobPipeline.run_ingestion w) = true))
  /\ (fst r = true
      <-> In JobPipeline.Transformation (snd r)
          /\ JobPipeline.transformation_ok w = true)
  /\ (only_transformation = true ->
      snd r = [JobPipeline.Transformation; JobPipeline.Close]).
Proof.
  intros r. subst r. destruct w as [c se so cs dv ck lo tr].
  destruct only_transformation; [destruct tr; phases_case|].
  destruct c; [|phases_case].
  destruct se; [|phases_case].
  destruct so; [|phases_case].
  destruct cs; [|phases_case].
  destruct dv; [|phases_case].
  destruct ck; [|phases_case].
  destruct lo; [|phases_case].
  destruct tr; phases_case.
Qed.

(** ** The rows a run leaves in the locations table *)

Lemma extract_location_components_nonempty
    (location_string : pyval) (c : option string) :
  city (extract_location_components location_string c) <> Some ""
  /\ state_province (extract_location_components location_string c)
     <> Some "".
Proof.
  assert (H : forall p, or_none p <> Some "").
  { intros p. unfold or_none. destruct p; simpl; discriminate. }
  unfold extract_location_components.
  destruct (py_not location_string || pd_isna location_string);
    [split; discriminate|].
  destruct (3 <=? _); [split; apply H|].
  destruct (_ =? 2); [split; apply H|].
  destruct (_ =? 1); split; try apply H; discriminate.
Qed.

Section LocationRows.

Variable any_order : forall A : Type, list A -> list A.
Hypothesis any_order_perm :
  forall (A : Type) (l : list A), Permutation (any_order A l) l.

(** X17: After a full run the locations table holds exactly the 4-tuples
    the staging rows propose, whatever it held before: city and
    state/province as the normalizer reads them from the raw location,
    the country and the raw location with "Unknown" for NULL.  A 4-tuple
    whose city and state/province are both there is in the table once; one
    with a NULL city or state/province conflicts with no row and is there
    once for every distinct (job_location, job_country) pair of the staging
    table that proposes it.  No location row has an empty city or
    state/province. *)
Theorem run_transformation_location_rows (d : db) :
  let r := run_transformation any_order d in
  (forall k,
     In k (location_keys r)
     <-> exists s,
           In s (staging_jobs d)
           /\ k = (city (extract_location_components
                           (of_column (Staging.job_location s))
                           (Staging.job_country s)),
                   state_province (extract_location_components
                                     (of_column (Staging.job_location s))
                                     (Staging.job_country s)),
                   Sql.coalesce (Staging.job_country s) "Unknown",
                   Sql.coalesce (Staging.job_location s) "Unknown"))
  /\ NoDup (filter location_key_complete (location_keys r))
  /\ Permutation
       (filter (fun k => negb (location_key_complete k)) (location_keys r))
       (filter (fun k => negb (location_key_complete k))
          (map proposed_location_key
             (nodup location_pair_dec
                (map (fun s => (Staging.job_location s, Staging.job_country s))
                   (staging_jobs d)))))
  /\ Forall (fun l => Location.main_city l <> Some ""
                      /\ Location.main_state_province l <> Some "")
            (rows (locations r)).
Proof.
  intros r. subst r. unfold location_keys.
  destruct (run_transformation_dimensions any_order d) as (_ & -> & _ & _).
  set (e := delete_previous_info d).
  assert (Hempty : rows (locations e) = []) by reflexivity.
  assert (Hstg : staging_jobs e = staging_jobs d) by reflexivity.
  clearbody e.
  destruct (populate_dimensions_tables any_order e) as (_ & -> & _ & _).
  rewrite fold_insert_location, Hstg.
  assert (Hiff : forall k,
    In k (map location_key
            (rows (fold_left
                     (insert_keyed location_key location_key_eqb
                        location_of_key)
                     (map proposed_location_key
                        (locations_select any_order (staging_jobs d)))
                     (locations e))))
    <-> exists s,
          In s (staging_jobs d)
          /\ k = (city (extract_location_components
                          (of_column (Staging.job_location s))
                          (Staging.job_country s)),
                  state_province (extract_location_components
                                    (of_column (Staging.job_location s))
                                    (Staging.job_country s)),
                  Sql.coalesce (Staging.job_country s) "Unknown",
                  Sql.coalesce (Staging.job_location s) "Unknown")).
  { intros k.
    rewrite (insert_keyed_in_sound location_key location_key_eqb
               location_of_key location_key_eqb_sound location_key_mk).
    rewrite Hempty. cbn [map In]. rewrite in_map_iff. split.
    - intros [[]|(p & <- & Hp)]. unfold locations_select in Hp.
      apply (in_select_distinct any_order any_order_perm) in Hp.
      apply in_map_iff in Hp as (s & <- & Hs). exists s.
      split; [exact Hs|]. unfold proposed_location_key. cbn [fst snd].
      now rewrite extract_location_components_country.
    - intros (s & Hs & ->). right.
      exists (Staging.job_location s, Staging.job_country s). split.
      + unfold proposed_location_key. cbn [fst snd].
        now rewrite extract_location_components_country.
      + unfold locations_select.
        apply (in_select_distinct any_order any_order_perm).
        apply in_map_iff. now exists s. }
  split; [exact Hiff|]. split; [|split].
  - apply (insert_keyed_NoDup_where location_key location_key_eqb
             location_of_key location_key_eqb_sound location_key_mk
             location_key_complete _ location_key_eqb_refl).
    rewrite Hempty. constructor.
  - rewrite (insert_keyed_filter_free location_key location_key_eqb
               location_of_key location_key_eqb_sound location_key_mk
               (fun k => negb (location_key_complete k))).
    + rewrite Hempty. cbn [map filter app].
      apply Permutation_filter_pred, Permutation_map.
      unfold locations_select, select_distinct. apply any_order_perm.
    + intros a b Hab. pose proof (location_key_eqb_sound a b Hab) as <-.
      apply location_key_eqb_spec in Hab as [_ Hc]. now rewrite Hc.
  - apply Forall_forall. intros l Hl.
    apply (in_map location_key) in Hl. apply Hiff in Hl as (s & _ & E).
    unfold location_key in E. inversion E as [[E1 E2 E3 E4]].
    rewrite E1, E2. apply extract_location_components_nonempty.
Qed.

End LocationRows.

(** The location of [acme_db] after a run: Berlin, Germany. *)
Lemma run_transformation_location_rows_witness :
  In (Some "Berlin", Some "Germany", "Germany", "Berlin, Germany")
     (location_keys (run_transformation in_order acme_db)).
Proof.
  apply (proj1 (run_transformation_location_rows in_order in_order_perm
                  acme_db)).
  eexists. split; [left; reflexivity|reflexivity].
Defined.

(** ** The skills of a posting that reach the bridge table *)

Lemma py_isspace_lower (c : ascii) :
  Str.py_isspace (Str.lower_char c) = Str.py_isspace c.
Proof.
  destruct c as [[] [] [] [] [] [] [] []]; vm_compute; reflexivity.
Qed.

Lemma lstrip_by_map (f : ascii -> bool) (g : ascii -> ascii) (s : string) :
  (forall c, f (g c) = f c) ->
  Str.lstrip_by f (Str.map_string g s) = Str.map_string g (Str.lstrip_by f s).
Proof.
  intros H. induction s as [|c r IH]; simpl; [reflexivity|].
  rewrite H. destruct (f c); [exact IH|reflexivity].
Qed.

Lemma rstrip_by_map (f : ascii -> bool) (g : ascii -> ascii) (s : string) :
  (forall c, f (g c) = f c) ->
  Str.rstrip_by f (Str.map_string g s) = Str.map_string g (Str.rstrip_by f s).
Proof.
  intros H. induction s as [|c r IH]; simpl; [reflexivity|].
  rewrite IH. destruct (Str.rstrip_by f r); simpl.
  - rewrite H. now destruct (f c).
  - reflexivity.
Qed.

(** Stripping and lower-casing commute. *)
Lemma py_strip_lower (s : string) :
  Str.py_strip (Str.py_lower s) = Str.py_lower (Str.py_strip s).
Proof.
  unfold Str.py_strip, Str.strip_by, Str.py_lower.
  rewrite (lstrip_by_map _ _ _ py_isspace_lower).
  now rewrite (rstrip_by_map _ _ _ py_isspace_lower).
Qed.

Lemma sql_lower_char_lower (c : ascii) :
  (nat_of_ascii c <? 128) = true ->
  Str.sql_lower_char (Str.lower_char c) = Str.sql_lower_char c.
Proof.
  destruct c as [[] [] [] [] [] [] [] []]; vm_compute;
    intros H; (reflexivity || discriminate H).
Qed.

(** On ASCII text the LOWER of the store undoes nothing Python's [lower]
    did. *)
Lemma sql_lower_py_lower (s : string) :
  is_ascii s = true -> Str.sql_lower (Str.py_lower s) = Str.sql_lower s.
Proof.
  unfold is_ascii, Str.sql_lower, Str.py_lower.
  induction s as [|c r IH]; cbn [list_ascii_of_string forallb Str.map_string];
    [reflexivity|].
  intros H. apply andb_prop in H as [Hc Hr].
  now rewrite (sql_lower_char_lower c Hc), (IH Hr).
Qed.

Lemma is_ascii_strip (f : ascii -> bool) (s : string) :
  is_ascii s = true -> is_ascii (Str.strip_by f s) = true.
Proof.
  unfold is_ascii. rewrite !forallb_forall. intros H c Hc.
  apply H. now apply strip_by_chars in Hc.
Qed.

(** The ON clause of the bridge finds the skill row the builder made for
    an ASCII element of the flat list, when TRIM and [strip] agree on
    it. *)
Lemma skill_on_own_row (x : string) (sk : Skill.row) :
  Str.sql_trim x = Str.py_strip x ->
  is_ascii x = true ->
  Skill.skill_name sk = Str.py_strip (Str.py_lower x) ->
  skill_on x sk = true.
Proof.
  intros Ht Ha Hn. unfold skill_on. rewrite Ht, Hn, py_strip_lower.
  rewrite sql_lower_py_lower by now apply is_ascii_strip.
  apply String.eqb_refl.
Qed.

Section BridgeCovers.

Variable any_order : forall A : Type, list A -> list A.
Hypothesis any_order_perm :
  forall (A : Type) (l : list A), Permutation (any_order A l) l.

(** X18: After a full run, a job row whose title and posted date equal
    those of a staging row is linked to every skill of that row's flat
    list that is ASCII text with no white space other than spaces at its
    ends: the skill row named by the lower-cased, stripped element exists
    and the pair is in the bridge table.  On such text TRIM and [strip]
    agree, and so do the LOWER of the store and Python's [lower]; on other
    text the name the builder stores need not be the one the join looks
    for. *)
Theorem run_transformation_bridge_covers (d : db) (j : Job.row)
    (s : Staging.row) (l : list string) (x : string) :
  let r := run_transformation any_order d in
  In j (rows (jobs r)) ->
  In s (staging_jobs d) ->
  bridge_on j s = true ->
  Staging.job_skills s = Some l -> In x l ->
  Str.sql_trim x = Str.py_strip x ->
  is_ascii x = true ->
  exists sk,
    In sk (rows (skills r))
    /\ Skill.skill_name sk = Str.py_strip (Str.py_lower x)
    /\ In (Job.job_id j, Skill.skill_id sk) (map pair_of (job_skills r)).
Proof.
  intros r. subst r. unfold run_transformation, populate_dimensions.
  set (e := populate_schedule_types any_order
              (populate_platforms any_order
                 (populate_locations any_order
                    (populate_companies any_order
                       (delete_previous_info d))))).
  assert (Hstg : staging_jobs e = staging_jobs d) by reflexivity.
  clearbody e.
  destruct (builder_skill_rows any_order any_order_perm e) as (Hnames & _).
  cbv zeta in Hnames. rewrite Hstg in Hnames.
  set (b := populate_skill_categories_and_skills any_order e) in *.
  assert (Hstg' : staging_jobs b = staging_jobs d) by exact Hstg.
  assert (Hflat : forall n,
            flat_skill (staging_jobs d) n ->
            In n (map Skill.skill_name (rows (skills b))))
    by (intros n Hn; apply Hnames; right; now right).
  clearbody b. clear e Hstg Hnames.
  set (f := populate_jobs b).
  assert (Hf : skills f = skills b /\ staging_jobs f = staging_jobs d).
  { subst f. rewrite populate_jobs_with. now split. }
  destruct Hf as [Hf1 Hf2]. clearbody f.
  intros Hj Hs Hon El Hx Ht Ha.
  rewrite populate_job_skills_with in Hj |- *.
  cbn [jobs skills with_job_skills] in Hj |- *.
  assert (Hsk : In (Str.py_strip (Str.py_lower x))
                   (map Skill.skill_name (rows (skills f)))).
  { rewrite Hf1. apply Hflat. now exists s, l, x. }
  apply in_map_iff in Hsk as (sk & Hname & Hin).
  exists sk. split; [exact Hin|]. split; [exact Hname|].
  rewrite <- populate_job_skills_with.
  apply populate_job_skills_pairs. right.
  apply in_bridge_joined. exists j, s, x, sk.
  rewrite Hf2, El. cbn [unnest].
  repeat split; try assumption.
  now apply skill_on_own_row.
Qed.

End BridgeCovers.

(** The posting of [acme_db] is linked to its skill "python". *)
Lemma run_transformation_bridge_covers_witness :
  exists sk,
    In sk (rows (skills (run_transformation in_order acme_db)))
    /\ Skill.skill_name sk = Str.py_strip (Str.py_lower "python")
    /\ In (Job.job_id acme_job, Skill.skill_id sk)
          (map pair_of (job_skills (run_transformation in_order acme_db))).
Proof.
  apply (run_transformation_bridge_covers in_order in_order_perm acme_db
           acme_job acme_row ["python"] "python").
  - left. reflexivity.
  - left. reflexivity.
  - reflexivity.
  - reflexivity.
  - left. reflexivity.
  - reflexivity.
  - reflexivity.
Defined.
